(** * The access-control dashboard front end: data gateway, log table and
      polling views, embedded from the JavaScript sources.

    Layout: the JavaScript value model ([Js]), then one module per source
    file ([Utils] for [utils/index.js], [Api] for [api/index.js],
    [LogTable], [AccessLogs], [Dashboard]), then the properties. *)

From Stdlib Require Import String Ascii ZArith QArith Qabs Qround List Lia Bool DecimalString.
Import ListNotations.

Local Close Scope Q_scope.
Local Open Scope list_scope.
Local Open Scope string_scope.

(* ================================================================== *)
(** ** JavaScript values as the sources use them *)
(* ================================================================== *)

Module Js.

(** A JavaScript string is modelled by a Rocq [string] read as a sequence of
    code units below 256 (one [ascii] per code unit).

    A number is an exact rational ([JNum]) or [JNaN]; the binary rounding of
    IEEE doubles and the infinities are not modelled, and no property below
    depends on the digits of a fraction.

    An object is the list of its own enumerable properties in enumeration
    order, keys pairwise distinct.  [JNative] stands for a built-in function
    or object reached through [Object.prototype] (for instance
    [locations["constructor"]]); such values never occur in a JSON body. *)
#[warnings="-register-all"] Inductive value : Type :=
| JUndefined
| JNull
| JBool (b : bool)
| JNum (q : Q)
| JNaN
| JStr (s : string)
| JArr (items : list value)
| JObj (props : list (string * value))
| JNative (name : string).
Arguments JNum q%_Q.

Definition object : Type := list (string * value).

(** What a [throw] or a rejected promise carries. [Rejected] wraps the error
    object axios hands to the response interceptor. *)
Inductive exn : Type :=
| TypeError (msg : string)
| Rejected (cause : value).

(** The completion of an expression or of an [async] function:
    [Ok] is a normal return (a fulfilled promise), [Throw] an exception
    (a rejected promise). *)
Inductive result (A : Type) : Type :=
| Ok (a : A)
| Throw (e : exn).
Arguments Ok {A} a.
Arguments Throw {A} e.

Definition bind {A B : Type} (m : result A) (k : A -> result B) : result B :=
  match m with
  | Ok a => k a
  | Throw e => Throw e
  end.

Notation "x <- m ;; k" := (bind m (fun x => k))
  (at level 61, m at next level, right associativity).

(** [ToBoolean]. *)
Definition truthy (v : value) : bool :=
  match v with
  | JUndefined | JNull | JNaN => false
  | JBool b => b
  | JNum q => negb (Qeq_bool q 0%Q)
  | JStr s => negb (s =? "")
  | JArr _ | JObj _ | JNative _ => true
  end.

(** [a || b] once both operands are evaluated (the right operand of every
    [||] in the sources that can throw is sequenced by [or_else] below). *)
Definition or (a b : value) : value := if truthy a then a else b.

(** [a || e] where evaluating [e] may throw: [e] runs only when [a] is
    falsy. *)
Definition or_else (a : value) (e : result value) : result value :=
  if truthy a then Ok a else e.

Fixpoint lookup (k : string) (o : object) : option value :=
  match o with
  | [] => None
  | (k', v) :: rest => if k' =? k then Some v else lookup k rest
  end.

(** [o[k] = v] on an ordinary object with a non-index key: an existing
    property keeps its place, a new one goes last. *)
Fixpoint set_prop (k : string) (v : value) (o : object) : object :=
  match o with
  | [] => [(k, v)]
  | (k', v') :: rest =>
      if k' =? k then (k', v) :: rest else (k', v') :: set_prop k v rest
  end.

Definition from_option (o : option value) : value :=
  match o with
  | Some v => v
  | None => JUndefined
  end.

(** The own property [k] of an object, [undefined] when it has none. *)
Definition own (o : object) (k : string) : value := from_option (lookup k o).

(** [v.k] for the fixed identifiers the sources read ([status], [id],
    [logs], ...): a [TypeError] on [undefined] and [null]; the own property
    of an object; [undefined] on the other values, none of whose prototypes
    defines any of these identifiers. *)
Definition get (v : value) (k : string) : result value :=
  match v with
  | JUndefined =>
      Throw (TypeError ("Cannot read properties of undefined (reading '" ++ k ++ "')"))
  | JNull =>
      Throw (TypeError ("Cannot read properties of null (reading '" ++ k ++ "')"))
  | JObj o => Ok (own o k)
  | _ => Ok JUndefined
  end.

Definition string_of_nat (n : nat) : string :=
  NilZero.string_of_uint (Nat.to_uint n).

Fixpoint indexed (i : nat) (xs : list value) : object :=
  match xs with
  | [] => []
  | x :: rest => (string_of_nat i, x) :: indexed (S i) rest
  end.

Fixpoint chars (s : string) : list value :=
  match s with
  | EmptyString => []
  | String c rest => JStr (String c EmptyString) :: chars rest
  end.

(** The own enumerable properties copied by [{...v}]: those of an object,
    the indexed elements of an array or of a string, nothing otherwise
    (also nothing for [null] and [undefined]). *)
Definition spread (v : value) : object :=
  match v with
  | JObj o => o
  | JArr xs => indexed 0 xs
  | JStr s => indexed 0 (chars s)
  | _ => []
  end.

(** An object literal [{...base, k1: v1, ..., kn: vn}]. *)
Definition assign (base : object) (fields : list (string * value)) : object :=
  fold_left (fun o kv => set_prop (fst kv) (snd kv) o) fields base.

Definition isArray (v : value) : bool :=
  match v with
  | JArr _ => true
  | _ => false
  end.

(** [typeof v === 'object'] ([null] included, as in JavaScript). *)
Definition typeof_object (v : value) : bool :=
  match v with
  | JNull | JArr _ | JObj _ => true
  | JNative _ | JUndefined | JBool _ | JNum _ | JNaN | JStr _ => false
  end.

(** The elements of an array. *)
Definition elements (v : value) : list value :=
  match v with
  | JArr items => items
  | _ => []
  end.

(** [Object.values(v)] for a value that passed [v && typeof v === 'object']. *)
Definition values (v : value) : list value :=
  map snd (spread v).

(** [xs.map(f)] where [f] may throw: left to right, stopping at the first
    exception. *)
Fixpoint mapM {A B : Type} (f : A -> result B) (xs : list A) : result (list B) :=
  match xs with
  | [] => Ok []
  | x :: rest =>
      y <- f x ;;
      ys <- mapM f rest ;;
      Ok (y :: ys)
  end.

(** As [mapM], with the index of the element passed along (used where the
    callback reads the clock once per element). *)
Fixpoint mapMi {A B : Type} (f : nat -> A -> result B) (i : nat) (xs : list A)
  : result (list B) :=
  match xs with
  | [] => Ok []
  | x :: rest =>
      y <- f i x ;;
      ys <- mapMi f (S i) rest ;;
      Ok (y :: ys)
  end.

(** [v === 'text'] for a string literal. *)
Definition is_text (v : value) (text : string) : bool :=
  match v with
  | JStr s => s =? text
  | _ => false
  end.

Fixpoint starts_with (prefix s : string) : bool :=
  match prefix, s with
  | EmptyString, _ => true
  | String a prefix', String b s' => Ascii.eqb a b && starts_with prefix' s'
  | String _ _, EmptyString => false
  end.

(** [s.includes(part)]. *)
Fixpoint includes (s part : string) : bool :=
  starts_with part s ||
  match s with
  | EmptyString => false
  | String _ rest => includes rest part
  end.

(** [xs.filter(f)] where [f] may throw. *)
Fixpoint filterM (f : value -> result bool) (xs : list value)
  : result (list value) :=
  match xs with
  | [] => Ok []
  | x :: rest =>
      keep <- f x ;;
      ys <- filterM f rest ;;
      Ok (if keep then x :: ys else ys)
  end.

End Js.

(* ================================================================== *)
(** ** Regular expressions, as far as [utils/index.js] uses them *)
(* ================================================================== *)

Module Regex.

Inductive re : Type :=
| Nothing
| Epsilon
| Class (p : ascii -> bool)          (* one character of a class *)
| Seq (a b : re)
| Or (a b : re)
| Star (a : re).

(** [a+]. *)
Definition Plus (a : re) : re := Seq a (Star a).

Definition Char (c : ascii) : re := Class (Ascii.eqb c).

Fixpoint nullable (r : re) : bool :=
  match r with
  | Nothing => false
  | Epsilon => true
  | Class _ => false
  | Seq a b => nullable a && nullable b
  | Or a b => nullable a || nullable b
  | Star _ => true
  end.

(** What is left of [r] after the character [c]. *)
Fixpoint deriv (c : ascii) (r : re) : re :=
  match r with
  | Nothing => Nothing
  | Epsilon => Nothing
  | Class p => if p c then Epsilon else Nothing
  | Seq a b =>
      if nullable a then Or (Seq (deriv c a) b) (deriv c b)
      else Seq (deriv c a) b
  | Or a b => Or (deriv c a) (deriv c b)
  | Star a => Seq (deriv c a) (Star a)
  end.

(** [/^r$/.test(s)]. *)
Fixpoint test (r : re) (s : string) : bool :=
  match s with
  | EmptyString => nullable r
  | String c rest => test (deriv c r) rest
  end.

(** The texts a regular expression matches from end to end. *)
Inductive Matches : re -> string -> Prop :=
| MEpsilon : Matches Epsilon ""
| MClass p c : p c = true -> Matches (Class p) (String c "")
| MSeq a b s t : Matches a s -> Matches b t -> Matches (Seq a b) (s ++ t)
| MOrL a b s : Matches a s -> Matches (Or a b) s
| MOrR a b s : Matches b s -> Matches (Or a b) s
| MStarEnd a : Matches (Star a) ""
| MStarMore a s t : Matches a s -> Matches (Star a) t -> Matches (Star a) (s ++ t).

End Regex.

(* ================================================================== *)
(** ** [utils/index.js] *)
(* ================================================================== *)

Module Utils.
Import Js.

Definition code (c : ascii) : nat := nat_of_ascii c.

Definition between (lo hi : nat) (c : ascii) : bool :=
  (lo <=? code c)%nat && (code c <=? hi)%nat.

(** The class [\w] of a regular expression without flags: [[A-Za-z0-9_]]. *)
Definition is_word_char (c : ascii) : bool :=
  between 65 90 c || between 97 122 c || between 48 57 c || (code c =? 95)%nat.

(** [l.toUpperCase()] for a single [\w] character [l]. *)
Definition upper_word_char (c : ascii) : ascii :=
  if between 97 122 c then ascii_of_nat (code c - 32) else c.

(** [c.toLowerCase()] for one code unit below 256: the letters [A-Z] and the
    Latin-1 capitals [U+00C0..U+00DE] without the multiplication sign. *)
Definition lower_char (c : ascii) : ascii :=
  if between 65 90 c || (between 192 222 c && negb (code c =? 215)%nat)
  then ascii_of_nat (code c + 32)
  else c.

Fixpoint toLowerCase (s : string) : string :=
  match s with
  | EmptyString => EmptyString
  | String c rest => String (lower_char c) (toLowerCase rest)
  end.

(** [s.replace('_', ' ')]: a string pattern replaces its first occurrence
    only. *)
Fixpoint replace_first_underscore (s : string) : string :=
  match s with
  | EmptyString => EmptyString
  | String c rest =>
      if (code c =? 95)%nat then String " "%char rest
      else String c (replace_first_underscore rest)
  end.

(** [s.replace(/\b\w/g, l => l.toUpperCase())]: [\b\w] matches a word
    character that has no word character just before it. [prev] tells
    whether the preceding character is a word character. *)
Fixpoint capitalize_words (prev : bool) (s : string) : string :=
  match s with
  | EmptyString => EmptyString
  | String c rest =>
      String (if is_word_char c && negb prev then upper_word_char c else c)
             (capitalize_words (is_word_char c) rest)
  end.

(** [formatCameraName]. A truthy argument that is not a string has no
    [replace] method. *)
Definition formatCameraName (cameraId : value) : result value :=
  if negb (truthy cameraId) then Ok (JStr "Unknown Camera")
  else
    match cameraId with
    | JStr s => Ok (JStr (capitalize_words false (replace_first_underscore s)))
    | _ => Throw (TypeError "cameraId.replace is not a function")
    end.

Definition join_comma (parts : list string) : string :=
  String.concat "," parts.

(** [ToString] of a value used as a computed property key ([table[v]]).
    [Ok None] stands for a key that contains the decimal rendering of a
    number or the source text of a function: such a key is the rendering
    itself or contains [","], so it names no property of the tables below
    nor of [Object.prototype]. An object that carries an own [toString]
    property (never callable in a JSON body) has no primitive value. *)
Fixpoint property_key (v : value) : result (option string) :=
  match v with
  | JUndefined => Ok (Some "undefined")
  | JNull => Ok (Some "null")
  | JBool true => Ok (Some "true")
  | JBool false => Ok (Some "false")
  | JNaN => Ok (Some "NaN")
  | JNum _ => Ok None
  | JNative _ => Ok None
  | JStr s => Ok (Some s)
  | JObj o =>
      match lookup "toString" o with
      | Some _ => Throw (TypeError "Cannot convert object to primitive value")
      | None => Ok (Some "[object Object]")
      end
  | JArr xs =>
      parts <- (fix join (ys : list value) : result (option (list string)) :=
                  match ys with
                  | [] => Ok (Some [])
                  | y :: rest =>
                      p <- match y with
                           | JUndefined | JNull => Ok (Some "")
                           | _ => property_key y
                           end ;;
                      ps <- join rest ;;
                      Ok (match p, ps with
                          | Some s, Some ss => Some (s :: ss)
                          | _, _ => None
                          end)
                  end) xs ;;
      Ok (option_map join_comma parts)
  end.

(** The members every object literal inherits from [Object.prototype]. *)
Definition object_prototype_members : list string :=
  [ "constructor"; "hasOwnProperty"; "isPrototypeOf"; "propertyIsEnumerable";
    "toLocaleString"; "toString"; "valueOf"; "__proto__";
    "__defineGetter__"; "__defineSetter__"; "__lookupGetter__";
    "__lookupSetter__" ].

Definition mem_string (k : string) (ks : list string) : bool :=
  existsb (String.eqb k) ks.

(** [table[key]] on an object literal: an own property, else an inherited
    member, else [undefined]. *)
Definition literal_get (table : object) (key : option string) : value :=
  match key with
  | None => JUndefined
  | Some k =>
      match lookup k table with
      | Some v => v
      | None => if mem_string k object_prototype_members then JNative k
                else JUndefined
      end
  end.

Definition locations : object :=
  [ ("camera_1", JStr "Main Entrance");
    ("camera_2", JStr "Office Floor");
    ("camera_3", JStr "Parking Lot");
    ("camera_4", JStr "Server Room") ].

(** [getCameraLocation]. *)
Definition getCameraLocation (cameraId : value) : result value :=
  k <- property_key cameraId ;;
  Ok (or (literal_get locations k) (JStr "Unknown Location")).

Definition green : string :=
  "text-green-600 bg-green-100 dark:bg-green-900 dark:text-green-400".
Definition red : string :=
  "text-red-600 bg-red-100 dark:bg-red-900 dark:text-red-400".
Definition yellow : string :=
  "text-yellow-600 bg-yellow-100 dark:bg-yellow-900 dark:text-yellow-400".
Definition orange : string :=
  "text-orange-600 bg-orange-100 dark:bg-orange-900 dark:text-orange-400".
Definition gray : string :=
  "text-gray-600 bg-gray-100 dark:bg-gray-900 dark:text-gray-400".

Definition statusColors : object :=
  [ ("online", JStr green); ("offline", JStr red); ("error", JStr yellow);
    ("granted", JStr green); ("denied", JStr red);
    ("tailgating", JStr orange); ("active", JStr green);
    ("inactive", JStr gray) ].

(** [status?.toLowerCase()]: [undefined] for [undefined] and [null], the
    folded string for a string, no such method otherwise. *)
Definition optional_toLowerCase (status : value) : result value :=
  match status with
  | JUndefined | JNull => Ok JUndefined
  | JStr s => Ok (JStr (toLowerCase s))
  | _ => Throw (TypeError "status?.toLowerCase is not a function")
  end.

(** [getStatusColor]. *)
Definition getStatusColor (status : value) : result value :=
  lowered <- optional_toLowerCase status ;;
  k <- property_key lowered ;;
  Ok (or (literal_get statusColors k) (JStr gray)).

Definition types : object :=
  [ ("card_swipe", JStr "Card Swipe");
    ("face_recognition", JStr "Face Recognition");
    ("body_recognition", JStr "Body Recognition") ].

(** [formatAccessType]. *)
Definition formatAccessType (accessType : value) : result value :=
  k <- property_key accessType ;;
  Ok (or (literal_get types k) accessType).

(** The decimal digits of a whole number from 0 up. *)
Definition decimal (n : Z) : string :=
  NilZero.string_of_uint (N.to_uint (Z.to_N n)).

(** [formatRelativeTime], from the computation of [diffInSeconds] on.
    [None] stands for [NaN], the difference for an invalid date, which
    fails every comparison. *)
Definition relative_text (diffInSeconds : option Z) : string :=
  match diffInSeconds with
  | None => "NaN days ago"
  | Some d =>
      if (d <? 60)%Z then "Just now"
      else if (d <? 3600)%Z then decimal (d / 60) ++ " minutes ago"
      else if (d <? 86400)%Z then decimal (d / 3600) ++ " hours ago"
      else decimal (d / 86400) ++ " days ago"
  end.

(** [formatRelativeTime(timestamp)]. [now] is the reading of [new Date()]
    and [date] the time value of [new Date(timestamp)], [None] for an
    invalid date (the parsing of dates is not modelled; the timestamp is
    one that [Date] accepts without an exception). *)
Definition formatRelativeTime (now : Z) (timestamp : value) (date : option Z)
  : string :=
  if negb (truthy timestamp) then "N/A"
  else relative_text (option_map (fun d => ((now - d) / 1000)%Z) date).

(** The class [\s] on code units below 256: tab, line feed, vertical tab,
    form feed, carriage return, space and no-break space. *)
Definition is_space (c : ascii) : bool :=
  between 9 13 c || (code c =? 32)%nat || (code c =? 160)%nat.

(** The class [[^\s@]]. *)
Definition not_space_at (c : ascii) : bool :=
  negb (is_space c) && negb (code c =? 64)%nat.

(** [/^[^\s@]+@[^\s@]+\.[^\s@]+$/]. *)
Definition emailRegex : Regex.re :=
  Regex.Seq (Regex.Plus (Regex.Class not_space_at))
    (Regex.Seq (Regex.Char "@")
       (Regex.Seq (Regex.Plus (Regex.Class not_space_at))
          (Regex.Seq (Regex.Char ".")
             (Regex.Plus (Regex.Class not_space_at))))).

(** [isValidEmail]. [test] converts its argument to a string; the
    rendering of a number contains no [@], so it never matches. *)
Definition isValidEmail (email : value) : result bool :=
  k <- property_key email ;;
  Ok (match k with
      | Some s => Regex.test emailRegex s
      | None => false
      end).

End Utils.

(* ================================================================== *)
(** ** [Date]: clock readings and [toISOString] *)
(* ================================================================== *)

Module JsDate.

Local Open Scope Z_scope.

Definition digit (n : Z) : ascii := ascii_of_nat (48 + Z.to_nat (n mod 10)).

(** The last [width] decimal digits of [n], most significant first. *)
Fixpoint pad (width : nat) (n : Z) : string :=
  match width with
  | O => EmptyString
  | S w => (pad w (n / 10) ++ String (digit n) EmptyString)%string
  end.

(** Year, month and day of the proleptic Gregorian calendar, from the
    number of days since 1970-01-01. *)
Definition civil_from_days (days : Z) : Z * Z * Z :=
  let z := days + 719468 in
  let era := z / 146097 in
  let doe := z - era * 146097 in
  let yoe := (doe - doe / 1460 + doe / 36524 - doe / 146096) / 365 in
  let doy := doe - (365 * yoe + yoe / 4 - yoe / 100) in
  let mp := (5 * doy + 2) / 153 in
  let d := doy - (153 * mp + 2) / 5 + 1 in
  let m := if mp <? 10 then mp + 3 else mp - 9 in
  let y := yoe + era * 400 + (if m <=? 2 then 1 else 0) in
  (y, m, d).

Definition year_string (y : Z) : string :=
  if (0 <=? y) && (y <=? 9999) then pad 4 y
  else ((if (y <? 0)%Z then "-" else "+") ++ pad 6 (Z.abs y))%string.

(** [new Date(ms).toISOString()] for a time value [ms] (milliseconds since
    the epoch, within the range of [Date]; every reading of [Date.now()]
    is). *)
Definition toISOString (ms : Z) : string :=
  let days := ms / 86400000 in
  let rest := ms mod 86400000 in
  let '(y, m, d) := civil_from_days days in
  (year_string y ++ "-" ++ pad 2 m ++ "-" ++ pad 2 d ++ "T"
   ++ pad 2 (rest / 3600000) ++ ":" ++ pad 2 (rest / 60000 mod 60) ++ ":"
   ++ pad 2 (rest / 1000 mod 60) ++ "." ++ pad 3 (rest mod 1000) ++ "Z")%string.

End JsDate.

(* ================================================================== *)
(** ** [api/index.js]: the gateway and its normalisers *)
(* ================================================================== *)

Module Api.
Import Js.

(** What the HTTP layer does with one request: a response whose body it
    hands over as [data], or a failure (time-out after 10 s, refused
    connection, status outside 2xx, a body it does not accept) described by
    the error object [cause]. *)
Inductive transport : Type :=
| Response (data : value)
| Failure (cause : value).

(** The server and the network, as a function of the requested path. *)
Definition backend : Type := string -> transport.

(** [api.get(url)] through the response interceptors: [response => response.data]
    on success, [error => Promise.reject(error)] on failure. *)
Definition api_get (server : backend) (url : string) : result value :=
  match server url with
  | Response data => Ok data
  | Failure cause => Throw (Rejected cause)
  end.

Definition checkHealth (server : backend) : result value :=
  api_get server "/health".

Definition getSystemStats (server : backend) : result value :=
  api_get server "/system/stats".

(** The callback of [Object.values(response.cameras).map(...)]. *)
Definition normalizeCamera (camera : value) : result value :=
  person_count <- get camera "person_count" ;;
  personCount <- get camera "personCount" ;;
  last_frame_time <- get camera "last_frame_time" ;;
  lastFrame <- get camera "lastFrame" ;;
  status <- get camera "status" ;;
  fps <- get camera "fps" ;;
  name0 <- get camera "name" ;;
  name <- or_else name0 (id <- get camera "id" ;; Utils.formatCameraName id) ;;
  location0 <- get camera "location" ;;
  location <- or_else location0
                (id <- get camera "id" ;; Utils.getCameraLocation id) ;;
  Ok (JObj (assign (spread camera)
    [ ("personCount", or (or person_count personCount) (JNum 0));
      ("lastFrame", or last_frame_time lastFrame);
      ("status", or status (JStr "unknown"));
      ("fps", or fps (JNum 0));
      ("name", name);
      ("location", location) ])).

(** [getCameras]. *)
Definition getCameras (server : backend) : result value :=
  response <- api_get server "/cameras" ;;
  cameras <- get response "cameras" ;;
  if truthy cameras && typeof_object cameras then
    camerasArray <- mapM normalizeCamera (values cameras) ;;
    Ok (JObj (assign (spread response) [ ("cameras", JArr camerasArray) ]))
  else Ok response.

Definition getCameraStatus (server : backend) (cameraId : string) : result value :=
  api_get server ("/cameras/" ++ cameraId).

Definition getCameraHealth (server : backend) (cameraId : string) : result value :=
  api_get server ("/cameras/" ++ cameraId ++ "/health").

(** *** The query string, [new URLSearchParams(params).toString()] *)

Definition hex_digit (n : nat) : ascii :=
  match n with
  | 0 => "0" | 1 => "1" | 2 => "2" | 3 => "3" | 4 => "4" | 5 => "5"
  | 6 => "6" | 7 => "7" | 8 => "8" | 9 => "9" | 10 => "A" | 11 => "B"
  | 12 => "C" | 13 => "D" | 14 => "E" | _ => "F"
  end%char.

Definition percent_byte (b : nat) : string :=
  String "%" (String (hex_digit (b / 16)) (String (hex_digit (b mod 16)) EmptyString)).

(** The bytes the [application/x-www-form-urlencoded] serializer leaves
    as they are: ASCII letters and digits, [*], [-], [.] and [_]. *)
Definition form_safe (b : nat) : bool :=
  Utils.is_word_char (ascii_of_nat b) || (b =? 42)%nat || (b =? 45)%nat
  || (b =? 46)%nat.

Definition encode_byte (b : nat) : string :=
  if (b =? 32)%nat then "+"
  else if form_safe b then String (ascii_of_nat b) EmptyString
  else percent_byte b.

(** One code unit below 256, through its UTF-8 bytes. *)
Definition encode_char (c : ascii) : string :=
  let n := nat_of_ascii c in
  if (n <? 128)%nat then encode_byte n
  else encode_byte (192 + n / 64) ++ encode_byte (128 + n mod 64).

Fixpoint encode (s : string) : string :=
  match s with
  | EmptyString => EmptyString
  | String c rest => encode_char c ++ encode rest
  end.

(** [params] is the list of the properties of the object handed to
    [URLSearchParams], all of them strings (the text of the filter
    inputs). *)
Definition query_string (params : list (string * string)) : string :=
  String.concat "&" (map (fun kv => encode (fst kv) ++ "=" ++ encode (snd kv)) params).

Definition access_logs_url (params : list (string * string)) : string :=
  "/access/logs?" ++ query_string params.

(** The callback of [response.logs.map(...)]. [now] is the reading
    [new Date()] makes when the log has no usable timestamp. *)
Definition normalizeLog (now : Z) (log : value) : result value :=
  id <- get log "id" ;;
  log_id <- get log "log_id" ;;
  access_type <- get log "access_type" ;;
  access_result <- get log "access_result" ;;
  confidence <- get log "confidence" ;;
  confidence_score <- get log "confidence_score" ;;
  timestamp <- get log "timestamp" ;;
  camera_id <- get log "camera_id" ;;
  person_id <- get log "person_id" ;;
  Ok (JObj (assign (spread log)
    [ ("log_id", or id log_id);
      ("access_result", or access_type access_result);
      ("confidence_score", or confidence confidence_score);
      ("timestamp", or timestamp (JStr (JsDate.toISOString now)));
      ("camera_id", or camera_id (JStr "unknown"));
      ("person_id", or person_id (JStr "unknown"));
      ("access_type", or access_type (JStr "unknown")) ])).

(** [getAccessLogs]. [clock i] is the clock reading available while the
    [i]-th log is normalised. *)
Definition getAccessLogs (server : backend) (clock : nat -> Z)
    (params : list (string * string)) : result value :=
  let queryParams := query_string params in
  response <- api_get server ("/access/logs?" ++ queryParams) ;;
  logs <- get response "logs" ;;
  if truthy logs && isArray logs then
    normalized <- mapMi (fun i => normalizeLog (clock i)) 0 (elements logs) ;;
    Ok (JArr normalized)
  else if isArray response then Ok response
  else Ok (JArr []).

(** The callback of [response.employees.map(...)]. *)
Definition normalizeEmployee (now : Z) (employee : value) : result value :=
  id <- get employee "id" ;;
  employee_id <- get employee "employee_id" ;;
  name <- get employee "name" ;;
  email <- get employee "email" ;;
  department <- get employee "department" ;;
  position <- get employee "position" ;;
  face_snapshot <- get employee "face_snapshot" ;;
  face_image <- get employee "face_image" ;;
  registered_date <- get employee "registered_date" ;;
  status <- get employee "status" ;;
  Ok (JObj (assign (spread employee)
    [ ("employee_id", or id employee_id);
      ("name", or name (JStr "Unknown"));
      ("email", or email (JStr ""));
      ("department", or department (JStr ""));
      ("position", or position (JStr ""));
      ("face_image", or (or face_snapshot face_image) (JStr ""));
      ("registered_date", or registered_date (JStr (JsDate.toISOString now)));
      ("status", or status (JStr "active")) ])).

(** [getEmployees]. *)
Definition getEmployees (server : backend) (clock : nat -> Z) : result value :=
  response <- api_get server "/employees" ;;
  employees <- get response "employees" ;;
  if truthy employees && isArray employees then
    normalized <- mapMi (fun i => normalizeEmployee (clock i)) 0 (elements employees) ;;
    Ok (JArr normalized)
  else if isArray response then Ok response
  else Ok (JArr []).

(** *** Reading a query string back

    [read_char] reads the first encoded character of a query value, as a
    server does; it is used to show that the serializer loses nothing. *)

Definition hex_value (c : ascii) : nat :=
  let n := nat_of_ascii c in
  if (n <? 58)%nat then n - 48 else n - 55.

Definition read_byte (h l : ascii) : nat := 16 * hex_value h + hex_value l.

Definition read_char (s : string) : option (ascii * string) :=
  match s with
  | EmptyString => None
  | String "+" rest => Some (" "%char, rest)
  | String "%" (String h (String l rest)) =>
      let b := read_byte h l in
      if (b <? 128)%nat then Some (ascii_of_nat b, rest)
      else
        match rest with
        | String "%" (String h' (String l' rest')) =>
            Some (ascii_of_nat ((b - 192) * 64 + (read_byte h' l' - 128)), rest')
        | _ => None
        end
  | String "%" _ => None
  | String c rest =>
      if form_safe (nat_of_ascii c) then Some (c, rest) else None
  end.

(** *** The fetch functions, by name *)

Inductive fetch : Type :=
| CheckHealth
| GetSystemStats
| GetCameras
| GetCameraStatus (cameraId : string)
| GetCameraHealth (cameraId : string)
| GetAccessLogs (params : list (string * string))
| GetEmployees.

(** The path a fetch function requests. *)
Definition url_of (f : fetch) : string :=
  match f with
  | CheckHealth => "/health"
  | GetSystemStats => "/system/stats"
  | GetCameras => "/cameras"
  | GetCameraStatus cameraId => "/cameras/" ++ cameraId
  | GetCameraHealth cameraId => "/cameras/" ++ cameraId ++ "/health"
  | GetAccessLogs params => access_logs_url params
  | GetEmployees => "/employees"
  end.

Definition call (server : backend) (clock : nat -> Z) (f : fetch) : result value :=
  match f with
  | CheckHealth => checkHealth server
  | GetSystemStats => getSystemStats server
  | GetCameras => getCameras server
  | GetCameraStatus cameraId => getCameraStatus server cameraId
  | GetCameraHealth cameraId => getCameraHealth server cameraId
  | GetAccessLogs params => getAccessLogs server clock params
  | GetEmployees => getEmployees server clock
  end.

End Api.

(* ================================================================== *)
(** ** [components/LogTable.jsx] *)
(* ================================================================== *)

Module LogTable.
Import Js.

Local Open Scope Z_scope.

(** The [filters] state: the text of the six filter inputs. *)
Record FilterCriteria : Type := {
  search : string;
  dateFrom : string;
  dateTo : string;
  employeeId : string;
  cameraId : string;
  status : string
}.

Definition clearedFilters : FilterCriteria :=
  {| search := ""; dateFrom := ""; dateTo := ""; employeeId := "";
     cameraId := ""; status := "" |}.

(** The properties of a [filters] object, in the order of the literal. *)
Definition entries (f : FilterCriteria) : list (string * string) :=
  [ ("search", search f); ("dateFrom", dateFrom f); ("dateTo", dateTo f);
    ("employeeId", employeeId f); ("cameraId", cameraId f);
    ("status", status f) ].

Inductive filter_key : Type :=
| KSearch | KDateFrom | KDateTo | KEmployeeId | KCameraId | KStatus.

(** [{ ...filters, [key]: value }]. *)
Definition with_key (f : FilterCriteria) (key : filter_key) (v : string)
  : FilterCriteria :=
  match key with
  | KSearch => {| search := v; dateFrom := dateFrom f; dateTo := dateTo f;
                  employeeId := employeeId f; cameraId := cameraId f;
                  status := status f |}
  | KDateFrom => {| search := search f; dateFrom := v; dateTo := dateTo f;
                    employeeId := employeeId f; cameraId := cameraId f;
                    status := status f |}
  | KDateTo => {| search := search f; dateFrom := dateFrom f; dateTo := v;
                  employeeId := employeeId f; cameraId := cameraId f;
                  status := status f |}
  | KEmployeeId => {| search := search f; dateFrom := dateFrom f;
                      dateTo := dateTo f; employeeId := v;
                      cameraId := cameraId f; status := status f |}
  | KCameraId => {| search := search f; dateFrom := dateFrom f;
                    dateTo := dateTo f; employeeId := employeeId f;
                    cameraId := v; status := status f |}
  | KStatus => {| search := search f; dateFrom := dateFrom f;
                  dateTo := dateTo f; employeeId := employeeId f;
                  cameraId := cameraId f; status := v |}
  end.

(** The component's own state ([useState]). *)
Record state : Type := {
  currentPage : Z;
  filters : FilterCriteria
}.

Definition initial : state :=
  {| currentPage := 1; filters := clearedFilters |}.

(** [handleFilterChange(key, value)]: the next state and the argument
    handed to the parent's [onFilterChange]. *)
Definition handleFilterChange (st : state) (key : filter_key) (v : string)
  : state * FilterCriteria :=
  let newFilters := with_key (filters st) key v in
  ({| currentPage := 1; filters := newFilters |}, newFilters).

Definition handleSearch (st : state) (v : string) : state * FilterCriteria :=
  handleFilterChange st KSearch v.

Definition clearFilters (st : state) : state * FilterCriteria :=
  ({| currentPage := 1; filters := clearedFilters |}, clearedFilters).

Definition itemsPerPage : Z := 10.

(** [Array.isArray(logs) ? logs : []]. *)
Definition safeLogs (logs : value) : list value :=
  match logs with
  | JArr items => items
  | _ => []
  end.

Definition len (l : list value) : Z := Z.of_nat (length l).

(** [Math.ceil(n / d)] for an array length [n] and [d = 10]: the quotient
    of two such integers is far from the next integer unless it is one, so
    the rounding of the division does not change the ceiling. *)
Definition ceil_div (n d : Z) : Z := - ((- n) / d).

Definition totalPages (logs : value) : Z :=
  ceil_div (len (safeLogs logs)) itemsPerPage.

Definition startIndex (st : state) : Z := (currentPage st - 1) * itemsPerPage.

Definition endIndex (st : state) : Z := startIndex st + itemsPerPage.

(** [Array.prototype.slice(start, end)] on integer arguments. *)
Definition slice (l : list value) (start stop : Z) : list value :=
  let n := len l in
  let k := if start <? 0 then Z.max (n + start) 0 else Z.min start n in
  let final := if stop <? 0 then Z.max (n + stop) 0 else Z.min stop n in
  firstn (Z.to_nat (Z.max (final - k) 0)) (skipn (Z.to_nat k) l).

(** The rows of the table body. *)
Definition currentLogs (logs : value) (st : state) : list value :=
  slice (safeLogs logs) (startIndex st) (endIndex st).

(** The pagination footer, rendered when [totalPages > 1]:
    "Showing [a] to [b] of [c] results". *)
Definition showing (logs : value) (st : state) : option (Z * Z * Z) :=
  if 1 <? totalPages logs then
    Some (startIndex st + 1,
          Z.min (endIndex st) (len (safeLogs logs)),
          len (safeLogs logs))
  else None.

(** The two page buttons. *)
Definition previousPage (st : state) : state :=
  {| currentPage := Z.max 1 (currentPage st - 1); filters := filters st |}.

Definition nextPage (logs : value) (st : state) : state :=
  {| currentPage := Z.min (totalPages logs) (currentPage st + 1);
     filters := filters st |}.

(** *** What the user can do in the table

    The page buttons exist only while [totalPages > 1]; "previous" is
    disabled on page 1 and "next" on the last page. *)
Inductive action : Type :=
| ChangeFilter (key : filter_key) (v : string)
| ClearFilters
| Previous
| Next.

Definition act (logs : value) (st : state) (a : action) : state :=
  match a with
  | ChangeFilter key v => fst (handleFilterChange st key v)
  | ClearFilters => fst (clearFilters st)
  | Previous =>
      if (1 <? totalPages logs) && negb (currentPage st =? 1)
      then previousPage st else st
  | Next =>
      if (1 <? totalPages logs) && negb (currentPage st =? totalPages logs)
      then nextPage logs st else st
  end.

(** The table on page [page], with the filters of [st]. *)
Definition on_page (st : state) (page : Z) : state :=
  {| currentPage := page; filters := filters st |}.

(** *** The confidence cell *)

(** A number as the arithmetic of the cell produces it: a real number,
    [NaN], or an infinity. *)
Inductive number : Type :=
| Finite (q : Q)
| NotANumber
| Infinite (negative : bool).

(** What the cell asks of the JavaScript engine beyond the arithmetic
    written out below: [ToNumber] for an operand of [*] that is a string
    (the grammar of numeric literals), an array or an object (converted to
    a primitive first, which may throw), and the text of a number of
    magnitude [10^21] or more, which [toFixed] prints as [String(x)] does,
    with an exponent.  Every property below holds whatever these two
    functions return. *)
Record engine : Type := {
  ToNumber : value -> result number;
  NumberToString : Q -> string
}.

(** Where the rounding of a result goes to an infinity: at the magnitude
    [2^1024 - 2^970], half way from the largest number to [2^1024], and
    above it. *)
Definition overflow : Q := inject_Z (2 ^ 1024 - 2 ^ 970).

(** The result of an operation whose exact value is [q]. *)
Definition of_real (q : Q) : number :=
  if Qle_bool overflow (Qabs q) then Infinite (negb (Qle_bool 0%Q q))
  else Finite q.

(** [x * 100] for a number [x]. *)
Definition hundredfold (x : number) : number :=
  match x with
  | Finite q => of_real (q * 100)
  | NotANumber => NotANumber
  | Infinite negative => Infinite negative
  end.

(** [v * 100]: [ToNumber(v)], then the product. *)
Definition times100 (e : engine) (v : value) : result number :=
  match v with
  | JNum q => Ok (hundredfold (Finite q))
  | JNaN | JUndefined => Ok NotANumber
  | JNull | JBool false => Ok (hundredfold (Finite 0))
  | JBool true => Ok (hundredfold (Finite 1))
  | JStr _ | JArr _ | JObj _ | JNative _ =>
      x <- ToNumber e v ;;
      Ok (hundredfold x)
  end.

Definition string_of_Z (n : Z) : string :=
  NilZero.string_of_uint (N.to_uint (Z.to_N n)).

(** [x.toFixed(1)] for [0 <= x < 10^21]: the integer [n] nearest to [10 x]
    (the larger one on a tie), printed with a point before its last
    digit. *)
Definition fixed1_nonneg (x : Q) : string :=
  let n := (20 * Qnum x + Zpos (Qden x)) / (2 * Zpos (Qden x)) in
  (string_of_Z (n / 10) ++ "." ++ string_of_Z (n mod 10))%string.

(** [x.toFixed(1)]: the text of [x] itself when [x] is not finite; else
    the sign, then the magnitude, printed as [String] prints it from
    [10^21] on and with one decimal below. *)
Definition toFixed1 (e : engine) (x : number) : string :=
  match x with
  | NotANumber => "NaN"
  | Infinite negative => if negative then "-Infinity" else "Infinity"
  | Finite q =>
      ((if Qle_bool 0%Q q then "" else "-")
       ++ (if Qle_bool (10 ^ 21)%Q (Qabs q) then NumberToString e (Qabs q)
           else fixed1_nonneg (Qabs q)))%string
  end.

(** [score ? `${(score * 100).toFixed(1)}%` : 'N/A']. *)
Definition confidence_text (e : engine) (score : value) : result string :=
  if truthy score then
    x <- times100 e score ;;
    Ok (toFixed1 e x ++ "%")%string
  else Ok "N/A".

(** The sixth cell of a row: [log.confidence_score ? ... : 'N/A']. *)
Definition confidence_cell (e : engine) (log : value) : result string :=
  score <- get log "confidence_score" ;;
  confidence_text e score.

End LogTable.

(* ================================================================== *)
(** ** [pages/AccessLogs.jsx] *)
(* ================================================================== *)

Module AccessLogs.
Import Js.

Local Open Scope Z_scope.

(** The page's state ([useState]); [filters] is the list of the properties
    of the object last handed to [setFilters] (initially [{}]). *)
Record state : Type := {
  logs : value;
  loading : bool;
  error : option string;
  filters : list (string * string)
}.

Definition initial : state :=
  {| logs := JArr []; loading := true; error := None; filters := [] |}.

Definition mockLog (log_id : Q) (timestamp : Z) (camera_id person_id : string)
    (access_type access_result : string) (confidence_score : Q) : value :=
  JObj [ ("log_id", JNum log_id);
         ("timestamp", JStr (JsDate.toISOString timestamp));
         ("camera_id", JStr camera_id);
         ("person_id", JStr person_id);
         ("access_type", JStr access_type);
         ("access_result", JStr access_result);
         ("confidence_score", JNum confidence_score) ].

(** The collection substituted in the [catch] branch. [clock i] is the
    [i]-th reading of [Date.now()] made while the literal is built. *)
Definition mockLogs (clock : nat -> Z) : value :=
  JArr [ mockLog 1 (clock 0%nat - 5000) "camera_1" "EMP001"
                 "face_recognition" "granted" 0.95;
         mockLog 2 (clock 1%nat - 15000) "camera_2" "unknown"
                 "body_recognition" "denied" 0.45;
         mockLog 3 (clock 2%nat - 30000) "camera_1" "EMP002"
                 "face_recognition" "tailgating" 0.88;
         mockLog 4 (clock 3%nat - 60000) "camera_3" "EMP003"
                 "card_swipe" "granted" 1.0;
         mockLog 5 (clock 4%nat - 120000) "camera_1" "EMP001"
                 "face_recognition" "granted" 0.92 ].

(** [fetchLogs] up to its [await]: [setLoading(true)]; the request that
    leaves is [getAccessLogs(filters)]. *)
Definition fetchLogs_start (st : state) : state :=
  {| logs := logs st; loading := true; error := error st;
     filters := filters st |}.

(** [fetchLogs] after the [await], given how [getAccessLogs] completed:
    the rest of [try], or [catch], then [finally]. *)
Definition fetchLogs_settle (data : result value) (mock_clock : nat -> Z)
    (st : state) : state :=
  match data with
  | Ok d =>
      let logList := if isArray d then d else JArr [] in
      {| logs := logList; loading := false; error := None;
         filters := filters st |}
  | Throw _ =>
      {| logs := mockLogs mock_clock; loading := false;
         error := Some "Failed to load access logs";
         filters := filters st |}
  end.

(** One whole run of [fetchLogs]. *)
Definition fetchLogs (server : Api.backend) (norm_clock mock_clock : nat -> Z)
    (st : state) : state :=
  let st1 := fetchLogs_start st in
  fetchLogs_settle (Api.getAccessLogs server norm_clock (filters st1))
                   mock_clock st1.

(** [handleFilterChange(newFilters)], the [onFilterChange] of the table. *)
Definition handleFilterChange (newFilters : LogTable.FilterCriteria)
    (st : state) : state :=
  {| logs := logs st; loading := loading st; error := error st;
     filters := LogTable.entries newFilters |}.

(** A change of the filters in the table: the table's handler, the page's
    handler, then the effect on [[filters]], which runs [fetchLogs]. *)
Definition change_filter (server : Api.backend)
    (norm_clock mock_clock : nat -> Z)
    (key : LogTable.filter_key) (v : string)
    (page : state) (table : LogTable.state) : state * LogTable.state :=
  let '(table', newFilters) := LogTable.handleFilterChange table key v in
  (fetchLogs server norm_clock mock_clock (handleFilterChange newFilters page),
   table').

Definition csv_header : string :=
  String.concat ","
    [ "Timestamp"; "Camera"; "Person ID"; "Access Type"; "Status";
      "Confidence" ].

(** The last field of a CSV row in [handleExport]:
    [log.confidence_score ? ... : 'N/A']. *)
Definition export_confidence (e : LogTable.engine) (log : value)
  : result string :=
  score <- get log "confidence_score" ;;
  LogTable.confidence_text e score.

(** *** The counters under the table *)

(** [Array.isArray(logs) ? logs.filter(p).length : 0]. *)
Definition count_where (p : value -> result bool) (logs : value) : result nat :=
  if isArray logs then
    kept <- filterM p (elements logs) ;;
    Ok (length kept)
  else Ok 0%nat.

(** [Array.isArray(logs) ? logs.length : 0]. *)
Definition totalLogs (logs : value) : nat :=
  if isArray logs then length (elements logs) else 0%nat.

(** [log => log.access_result === 'granted']. *)
Definition is_granted (log : value) : result bool :=
  access_result <- get log "access_result" ;;
  Ok (is_text access_result "granted").

(** [log => log.access_result === 'denied' || log.access_result === 'tailgating']. *)
Definition is_denied (log : value) : result bool :=
  access_result <- get log "access_result" ;;
  Ok (is_text access_result "denied" || is_text access_result "tailgating").

Definition grantedCount (logs : value) : result nat := count_where is_granted logs.

Definition deniedCount (logs : value) : result nat := count_where is_denied logs.

End AccessLogs.

(* ================================================================== *)
(** ** [pages/Dashboard.jsx] *)
(* ================================================================== *)

Module Dashboard.
Import Js.

Record state : Type := {
  systemStats : value;
  cameras : value;
  loading : bool;
  error : option string
}.

Definition initial : state :=
  {| systemStats := JNull; cameras := JArr []; loading := true;
     error := None |}.

(** The fallback statistics; [now] is the reading of [new Date()]. *)
Definition mockStats (now : Z) : value :=
  JObj [ ("total_people_detected", JNum 42);
         ("total_access_granted", JNum 156);
         ("total_access_denied", JNum 8);
         ("total_tailgating_incidents", JNum 3);
         ("active_cameras", JNum 2);
         ("total_cameras", JNum 4);
         ("system_uptime", JStr "2 days, 14 hours");
         ("last_update", JStr (JsDate.toISOString now)) ].

(** The fallback cameras; [now1] and [now2] are the two readings of
    [new Date()]. *)
Definition mockCameras (now1 now2 : Z) : value :=
  JArr [ JObj [ ("id", JStr "camera_1"); ("name", JStr "Main Entrance");
                ("status", JStr "online"); ("personCount", JNum 2);
                ("fps", JNum 30);
                ("lastFrame", JStr (JsDate.toISOString now1)) ];
         JObj [ ("id", JStr "camera_2"); ("name", JStr "Office Floor");
                ("status", JStr "online"); ("personCount", JNum 1);
                ("fps", JNum 28);
                ("lastFrame", JStr (JsDate.toISOString now2)) ];
         JObj [ ("id", JStr "camera_3"); ("name", JStr "Parking Lot");
                ("status", JStr "offline"); ("personCount", JNum 0);
                ("fps", JNum 0); ("error", JStr "Connection lost") ];
         JObj [ ("id", JStr "camera_4"); ("name", JStr "Server Room");
                ("status", JStr "error"); ("personCount", JNum 0);
                ("fps", JNum 0); ("error", JStr "Hardware malfunction") ] ].

(** [camerasData?.cameras]. *)
Definition optional_cameras (camerasData : value) : value :=
  match camerasData with
  | JObj o => own o "cameras"
  | _ => JUndefined
  end.

(** [fetchData] up to its [await]: [setLoading(true)], and the two
    requests leave. *)
Definition fetchData_start (st : state) : state :=
  {| systemStats := systemStats st; cameras := cameras st; loading := true;
     error := error st |}.

(** [fetchData] after the [await]: [Promise.all] is fulfilled when both
    requests are, and rejected otherwise. [clock i] is the [i]-th reading
    of [new Date()] in the [catch] branch. *)
Definition fetchData_settle (stats camerasData : result value)
    (clock : nat -> Z) (st : state) : state :=
  match stats, camerasData with
  | Ok statsData, Ok cams =>
      let cameraList :=
        if isArray (optional_cameras cams) then optional_cameras cams
        else if isArray cams then cams
        else JArr [] in
      {| systemStats := statsData; cameras := cameraList; loading := false;
         error := None |}
  | _, _ =>
      {| systemStats := mockStats (clock 0%nat);
         cameras := mockCameras (clock 1%nat) (clock 2%nat);
         loading := false;
         error := Some "Failed to load dashboard data" |}
  end.

(** *** The effect: one fetch at once, then one every 30 seconds

    [view] holds the value last handed to each state setter; [timer] tells
    whether the interval is registered and not yet cleared; [issued] counts
    the calls of [fetchData], [pending] those whose [await] has not
    returned. *)
Record subscription : Type := {
  view : state;
  timer : bool;
  issued : nat;
  pending : nat
}.

Definition idle : subscription :=
  {| view := initial; timer := false; issued := 0; pending := 0 |}.

Inductive event : Type :=
| Mount                              (* the effect runs *)
| Tick                               (* 30 seconds have passed *)
| Settle (server : Api.backend) (clock : nat -> Z)
                                     (* the oldest [await] returns *)
| Unmount.                           (* the clean-up runs *)

Definition call_fetchData (s : subscription) : subscription :=
  {| view := fetchData_start (view s); timer := timer s;
     issued := S (issued s); pending := S (pending s) |}.

Definition step (s : subscription) (e : event) : subscription :=
  match e with
  | Mount =>
      let s' := call_fetchData s in
      {| view := view s'; timer := true; issued := issued s';
         pending := pending s' |}
  | Tick => if timer s then call_fetchData s else s
  | Settle server clock =>
      match pending s with
      | O => s
      | S n =>
          {| view := fetchData_settle (Api.getSystemStats server)
                                      (Api.getCameras server) clock (view s);
             timer := timer s; issued := issued s; pending := n |}
      end
  | Unmount =>
      {| view := view s; timer := false; issued := issued s;
         pending := pending s |}
  end.

Definition run (s : subscription) (es : list event) : subscription :=
  fold_left step es s.

(** What every state of the subscription satisfies (see the properties):
    no more responses awaited than requests issued, an array of cameras,
    and [loading] off once nothing is awaited after a first fetch. *)
Definition invariant (s : subscription) : Prop :=
  (pending s <= issued s)%nat /\
  isArray (cameras (view s)) = true /\
  (pending s = 0%nat -> issued s = 0%nat \/ loading (view s) = false).

(** *** The success rate of the system status card *)

(** [systemStats?.k]. *)
Definition optional_get (systemStats : value) (k : string) : value :=
  match systemStats with
  | JObj o => own o k
  | _ => JUndefined
  end.

(** [Math.round(x)] for a finite [x]: the nearest whole number, the larger
    one on a tie. *)
Definition round (x : Q) : Z := Qfloor (x + (1 # 2))%Q.

(** The text of a whole number in a template; [None] from [10^21] on,
    where an exponent is printed. *)
Definition whole_text (n : Z) : option string :=
  if (10 ^ 21 <=? Z.abs n)%Z then None
  else if (n <? 0)%Z then Some ("-" ++ Utils.decimal (- n))
  else Some (Utils.decimal n).

(** The success rate
    [granted && denied ? `${Math.round(granted / (granted + denied) * 100)}%` : '100%'].
    [None]: a counter is truthy without being a number, or the rate has
    more than 21 digits. A division by zero gives an infinity. *)
Definition success_rate (systemStats : value) : option string :=
  let granted := optional_get systemStats "total_access_granted" in
  let denied := optional_get systemStats "total_access_denied" in
  if truthy granted && truthy denied then
    match granted, denied with
    | JNum g, JNum d =>
        if Qeq_bool (g + d)%Q 0%Q
        then Some (if Qle_bool 0%Q g then "Infinity%" else "-Infinity%")
        else option_map (fun text => text ++ "%")
                        (whole_text (round (g / (g + d) * 100)%Q))
    | _, _ => None
    end
  else Some "100%".

End Dashboard.

(* ================================================================== *)
(** ** [pages/CameraHealth.jsx] *)
(* ================================================================== *)

Module CameraHealth.
Import Js.

(** [v > n] for a number literal [n]. [None]: [v] is a string, an array or
    an object, whose conversion to a number is not modelled. *)
Definition greater (v : value) (n : Q) : option bool :=
  match v with
  | JNum q => Some (negb (Qle_bool q n))
  | JNaN | JUndefined => Some false
  | JNull | JBool false => Some (negb (Qle_bool 0%Q n))
  | JBool true => Some (negb (Qle_bool 1%Q n))
  | JStr _ | JArr _ | JObj _ | JNative _ => None
  end.
Arguments greater v n%_Q.

(** [getHealthScore]. The frame rate is compared only when the status is
    ['online']. *)
Definition getHealthScore (camera : value) : result (option Z) :=
  status <- get camera "status" ;;
  fps <- get camera "fps" ;;
  if is_text status "online" then
    match greater fps 25 with
    | None => Ok None
    | Some true => Ok (Some 100%Z)
    | Some false =>
        match greater fps 15 with
        | None => Ok None
        | Some true => Ok (Some 80%Z)
        | Some false => Ok (Some 60%Z)
        end
    end
  else if is_text status "offline" then Ok (Some 20%Z)
  else Ok (Some 0%Z).

(** [getHealthColor]. *)
Definition getHealthColor (score : Z) : string :=
  if (80 <=? score)%Z then "text-green-600"
  else if (60 <=? score)%Z then "text-yellow-600"
  else if (40 <=? score)%Z then "text-orange-600"
  else "text-red-600".

(** The icon of a status, by the name of its component:
    [switch (status?.toLowerCase())]. *)
Definition getStatusIcon (status : value) : result string :=
  lowered <- Utils.optional_toLowerCase status ;;
  Ok (if is_text lowered "online" then "CheckCircle"
      else if is_text lowered "offline" then "XCircle"
      else if is_text lowered "error" then "AlertTriangle"
      else "Camera").

(** The page's own [getStatusColor], a [switch] as well. *)
Definition getStatusColor (status : value) : result string :=
  lowered <- Utils.optional_toLowerCase status ;;
  Ok (if is_text lowered "online" then Utils.green
      else if is_text lowered "offline" then Utils.red
      else if is_text lowered "error" then Utils.yellow
      else Utils.gray).

(** [cameras.filter(c => c.status === text).length]. *)
Definition count_status (text : string) (cameras : list value) : result nat :=
  kept <- filterM (fun c => status <- get c "status" ;; Ok (is_text status text))
                  cameras ;;
  Ok (length kept).

End CameraHealth.

(* ================================================================== *)
(** ** [pages/LiveFeed.jsx] *)
(* ================================================================== *)

Module LiveFeed.
Import Js.

Record state : Type := {
  selectedCamera : value;
  cameras : value;
  loading : bool;
  error : option string
}.

Definition initial : state :=
  {| selectedCamera := JNull; cameras := JArr []; loading := true;
     error := None |}.

Definition mockCameras : list value :=
  [ JObj [ ("id", JStr "camera_1"); ("name", JStr "Main Entrance");
           ("status", JStr "online"); ("location", JStr "Main Entrance") ];
    JObj [ ("id", JStr "camera_2"); ("name", JStr "Office Floor");
           ("status", JStr "online"); ("location", JStr "Office Floor") ] ].

(** [xs.find(c => c.id === cameraId)]. *)
Fixpoint find_by_id (cameraId : string) (xs : list value) : result value :=
  match xs with
  | [] => Ok JUndefined
  | c :: rest =>
      id <- get c "id" ;;
      if is_text id cameraId then Ok c else find_by_id cameraId rest
  end.

(** [xs[0]]. *)
Definition first (xs : list value) : value :=
  match xs with
  | [] => JUndefined
  | x :: _ => x
  end.

(** [camerasData.find(c => c.id === cameraId) || camerasData[0]]: only an
    array has a [find] method. *)
Definition choose (cameraId : string) (camerasData : value) : result value :=
  match camerasData with
  | JArr xs =>
      found <- find_by_id cameraId xs ;;
      Ok (or found (first xs))
  | JUndefined | JNull =>
      Throw (TypeError "Cannot read properties of undefined (reading 'find')")
  | _ => Throw (TypeError "camerasData.find is not a function")
  end.

(** What the [catch] branch leaves. *)
Definition degraded (cameraId : string) : state :=
  {| selectedCamera :=
       match find_by_id cameraId mockCameras with
       | Ok found => or found (first mockCameras)
       | Throw _ => JUndefined
       end;
     cameras := JArr mockCameras;
     loading := false;
     error := Some "Failed to load cameras" |}.

(** [fetchCameras] after its [await], given how [getCameras] completed:
    [try], or [catch], then [finally]. [setCameras(camerasData)] runs
    before [find] can throw, and is overwritten by the [catch] branch. *)
Definition fetchCameras_settle (camerasData : result value) (cameraId : string)
  : state :=
  match camerasData with
  | Ok data =>
      match choose cameraId data with
      | Ok camera =>
          {| selectedCamera := camera; cameras := data; loading := false;
             error := None |}
      | Throw _ => degraded cameraId
      end
  | Throw _ => degraded cameraId
  end.

Definition fetchCameras (server : Api.backend) (cameraId : string) : state :=
  fetchCameras_settle (Api.getCameras server) cameraId.

(** The interval of the live logs: [setLogs(prev => [newLog, ...prev.slice(0, 9)])].
    [newLog] stands for the entry built from the clock and the random
    numbers, whatever it holds. *)
Definition push_log (newLog : value) (prev : list value) : list value :=
  newLog :: LogTable.slice prev 0 9.

End LiveFeed.

(* ================================================================== *)
(** ** [pages/Employees.jsx] *)
(* ================================================================== *)

Module Employees.
Import Js.

(** [v.toLowerCase()]. *)
Definition lower_of (v : value) : result string :=
  match v with
  | JStr s => Ok (Utils.toLowerCase s)
  | JUndefined =>
      Throw (TypeError "Cannot read properties of undefined (reading 'toLowerCase')")
  | JNull =>
      Throw (TypeError "Cannot read properties of null (reading 'toLowerCase')")
  | _ => Throw (TypeError "toLowerCase is not a function")
  end.

(** [employee.k.toLowerCase().includes(searchTerm.toLowerCase())]. *)
Definition field_includes (employee : value) (k searchTerm : string) : result bool :=
  field <- get employee k ;;
  lowered <- lower_of field ;;
  Ok (includes lowered (Utils.toLowerCase searchTerm)).

(** The callback of [employees.filter(...)]: the three tests, joined by
    [||], so that a later one runs only when the earlier ones failed. *)
Definition matches (searchTerm : string) (employee : value) : result bool :=
  by_name <- field_includes employee "name" searchTerm ;;
  if by_name then Ok true
  else
    by_id <- field_includes employee "employee_id" searchTerm ;;
    if by_id then Ok true
    else field_includes employee "email" searchTerm.

(** [filteredEmployees]. *)
Definition filteredEmployees (employees : list value) (searchTerm : string)
  : result (list value) :=
  filterM (matches searchTerm) employees.

(** The employee passes the filter, without an exception. *)
Definition keeps (searchTerm : string) (employee : value) : bool :=
  match matches searchTerm employee with
  | Ok true => true
  | _ => false
  end.

(** The record has a text as its [name]. *)
Definition named (employee : value) : Prop :=
  exists o name, employee = JObj o /\ own o "name" = JStr name.

End Employees.

(* ================================================================== *)
(** ** The filter engine as section 4.5 of the specification words it,
       for comparison with the table component *)
(* ================================================================== *)

Module FilterEngine.
Import Js.

(** The specification names the fields of an entry [cameraId], [personId],
    [accessType], [accessResult]; the records of the sources carry them as
    [camera_id], [person_id], [access_type], [access_result]. The criterion
    [employeeId] is compared with the person, [status] with the access
    result. *)

(** The text of a field of an entry, empty when the field holds no
    string. *)
Definition text (k : string) (entry : value) : string :=
  match get entry k with
  | Ok (JStr s) => s
  | _ => ""
  end.

Fixpoint starts_with (p s : string) : bool :=
  match p, s with
  | EmptyString, _ => true
  | String a p', String b s' => Ascii.eqb a b && starts_with p' s'
  | String _ _, EmptyString => false
  end.

Fixpoint contains (needle hay : string) : bool :=
  starts_with needle hay ||
  match hay with
  | EmptyString => false
  | String _ rest => contains needle rest
  end.

(** The searchable text of an access-log entry. The specification leaves
    the choice of the fields to the entity kind; here they are the camera,
    the person, the access type and the access result. *)
Definition searchable (entry : value) : string :=
  text "camera_id" entry ++ text "person_id" entry
  ++ text "access_type" entry ++ text "access_result" entry.

(** Predicate 1: case-insensitive substring match; an empty search matches
    every entry. *)
Definition matches_search (c : LogTable.FilterCriteria) (entry : value) : bool :=
  contains (Utils.toLowerCase (LogTable.search c))
           (Utils.toLowerCase (searchable entry)).

(** Predicate 2: inclusive bounds on the timestamp (ISO-8601 strings are
    ordered as their instants); an empty bound is absent. *)
Definition matches_dates (c : LogTable.FilterCriteria) (entry : value) : bool :=
  ((LogTable.dateFrom c =? "")
   || String.leb (LogTable.dateFrom c) (text "timestamp" entry))
  && ((LogTable.dateTo c =? "")
      || String.leb (text "timestamp" entry) (LogTable.dateTo c)).

Definition exact (criterion field : string) : bool :=
  (criterion =? "") || (criterion =? field).

(** Predicate 3: exact, case-sensitive matches, ignored when empty. *)
Definition matches_exact (c : LogTable.FilterCriteria) (entry : value) : bool :=
  exact (LogTable.employeeId c) (text "person_id" entry)
  && exact (LogTable.cameraId c) (text "camera_id" entry)
  && exact (LogTable.status c) (text "access_result" entry).

Definition satisfies (c : LogTable.FilterCriteria) (entry : value) : bool :=
  matches_search c entry && matches_dates c entry && matches_exact c entry.

Definition matching (collection : list value) (c : LogTable.FilterCriteria)
  : list value :=
  filter (satisfies c) collection.

Definition totalCount (collection : list value) (c : LogTable.FilterCriteria) : Z :=
  Z.of_nat (length (matching collection c)).

Definition totalPages (collection : list value) (c : LogTable.FilterCriteria) : Z :=
  LogTable.ceil_div (totalCount collection c) LogTable.itemsPerPage.

(** [page] clamped to [[1, totalPages]], 1 at least. *)
Definition clamp (page pages : Z) : Z := Z.max 1 (Z.min page pages).

End FilterEngine.

(* ================================================================== *)
(** ** Vocabulary of the properties of records *)
(* ================================================================== *)

Module Records.
Import Js.

(** Every property of the raw entry is found, with its value, in the
    converted one. *)
Definition preserved (raw out : object) : Prop :=
  forall k v, lookup k raw = Some v -> lookup k out = Some v.

(** The properties [normalizeCamera] writes. *)
Definition canonical_keys : list string :=
  [ "personCount"; "lastFrame"; "status"; "fps"; "name"; "location" ].

(** [delete o[k]]. *)
Fixpoint remove (k : string) (o : object) : object :=
  match o with
  | [] => []
  | (k', v) :: rest =>
      if k' =? k then remove k rest else (k', v) :: remove k rest
  end.

Definition without (k : string) (v : value) : value :=
  match v with
  | JObj o => JObj (remove k o)
  | _ => v
  end.

Definition each_without (k : string) (collection : value) : value :=
  match collection with
  | JArr items => JArr (map (without k) items)
  | _ => collection
  end.

(** What the last of the assignments [fields] to the key [k] leaves, [init]
    if there is none. *)
Definition override (k : string) (fields : list (string * value))
    (init : option value) : option value :=
  fold_left (fun acc kv => if fst kv =? k then Some (snd kv) else acc)
            fields init.

(** The property [k] of the record [r] exists and is not [undefined]. *)
Definition defined (r : value) (k : string) : Prop :=
  exists v, get r k = Ok v /\ v <> JUndefined.

(** The [id] of a raw camera is a string, or missing. *)
Definition id_is_text (camera : object) : bool :=
  match own camera "id" with
  | JStr _ | JUndefined => true
  | _ => false
  end.

Definition is_string (v : value) : bool :=
  match v with
  | JStr _ => true
  | _ => false
  end.

(** The value can be used as a computed property key ([table[v]]): its
    conversion to a string does not throw. Only an object that carries a
    property [toString] of its own (which a JSON body cannot make
    callable) has no string, and an array that holds such an object. *)
Fixpoint usable_as_key (v : value) : bool :=
  match v with
  | JObj o =>
      match lookup "toString" o with
      | Some _ => false
      | None => true
      end
  | JArr xs => forallb usable_as_key xs
  | _ => true
  end.

(** The raw cameras [normalizeCamera] accepts. The default of [name],
    [formatCameraName(camera.id)], is computed when the raw [name] is
    falsy, and needs an [id] that is falsy or a string; the default of
    [location], [getCameraLocation(camera.id)], is computed when the raw
    [location] is falsy, and needs an [id] that can be used as a key. *)
Definition accepted (camera : object) : bool :=
  (truthy (own camera "name") || negb (truthy (own camera "id"))
   || is_string (own camera "id"))
  && (truthy (own camera "location") || usable_as_key (own camera "id")).

(** The six properties of the converted record [canon], from the raw
    record [raw]: [personCount] is the first truthy one of [person_count]
    and [personCount], else 0; [lastFrame] is [last_frame_time] when that
    is truthy, else [lastFrame]; [status] and [fps] are kept when truthy
    and are ['unknown'] and 0 otherwise; [name] and [location] are kept
    when truthy and computed from [id] otherwise. *)
Definition defaults_applied (raw canon : value) : Prop :=
  exists o r,
    raw = JObj o /\ canon = JObj r /\
    own r "personCount"
    = or (or (own o "person_count") (own o "personCount")) (JNum 0) /\
    own r "lastFrame" = or (own o "last_frame_time") (own o "lastFrame") /\
    own r "status" = or (own o "status") (JStr "unknown") /\
    own r "fps" = or (own o "fps") (JNum 0) /\
    or_else (own o "name") (Utils.formatCameraName (own o "id"))
    = Ok (own r "name") /\
    or_else (own o "location") (Utils.getCameraLocation (own o "id"))
    = Ok (own r "location").

(** The record [canon] stands for the raw record [raw] after conversion:
    both are objects, every raw property outside the canonical keys is
    kept with its value, and a truthy raw [status], [fps], [name] or
    [location] is kept too. *)
Definition converted (raw canon : value) : Prop :=
  exists o r,
    raw = JObj o /\ canon = JObj r /\
    (forall k, ~ In k canonical_keys -> lookup k r = lookup k o) /\
    (forall k, In k [ "status"; "fps"; "name"; "location" ] ->
               truthy (own o k) = true -> own r k = own o k).

Definition is_digit (c : ascii) : bool :=
  (48 <=? nat_of_ascii c)%nat && (nat_of_ascii c <=? 57)%nat.

(** A percentage with one decimal place: some text, a point, one digit and
    the percent sign. *)
Definition percent_one_decimal (s : string) : Prop :=
  exists whole d,
    s = whole ++ "." ++ String d "%" /\ whole <> "" /\ is_digit d = true.

(** The score is the number zero. *)
Definition is_zero (score : value) : Prop :=
  exists q, score = JNum q /\ (q == 0)%Q.

(** How many times the character [c] occurs in [s]. *)
Fixpoint count_char (c : ascii) (s : string) : nat :=
  match s with
  | EmptyString => 0
  | String x rest => (if Ascii.eqb x c then 1 else 0) + count_char c rest
  end.

Fixpoint all_chars (p : ascii -> bool) (s : string) : bool :=
  match s with
  | EmptyString => true
  | String c rest => p c && all_chars p rest
  end.

(** The five class lists of [getStatusColor]. *)
Definition class_lists : list string :=
  [ Utils.green; Utils.red; Utils.yellow; Utils.orange; Utils.gray ].

(** A non-empty text without white space and without [@]. *)
Definition plain (s : string) : Prop :=
  s <> "" /\ all_chars Utils.not_space_at s = true.

(** The value is a record, that is an object. *)
Definition is_record (v : value) : Prop := exists o, v = JObj o.

(** The value is a text, or [undefined]. *)
Definition text_or_missing (v : value) : Prop :=
  match v with
  | JStr _ | JUndefined => True
  | _ => False
  end.

(** [s] is ["online"] up to letter case. *)
Definition any_case_online (s : string) : Prop :=
  Utils.toLowerCase s = "online".

End Records.

(* ================================================================== *)
(** ** Concrete servers, records and traces used below *)
(* ================================================================== *)

Module Examples.
Import Js.

(** A server that answers every request with one log carrying both an
    access type and an access result. *)
Definition both_fields_server : Api.backend :=
  fun _ => Api.Response
    (JObj [ ("logs", JArr [ JObj [ ("id", JNum 7);
                                   ("access_type", JStr "face_recognition");
                                   ("access_result", JStr "granted") ] ]) ]).

Definition shouting_camera : object :=
  [ ("id", JStr "camera_1"); ("status", JStr "ONLINE") ].

Definition bare_camera : object := [ ("id", JStr "camera_1") ].

Definition bare_log : object := [ ("id", JNum 1) ].

(** A camera that the server identifies by a number, and does not name. *)
Definition numbered_camera : object := [ ("id", JNum 7) ].

(** One camera that reports its head count under both spellings. *)
Definition two_counts : object :=
  [ ("id", JStr "camera_1"); ("person_count", JNum 3); ("personCount", JNum 7) ].

Definition map_of (entries : object) : Api.backend :=
  fun _ => Api.Response (JObj [ ("cameras", JObj entries) ]).

Definition two_cameras : object :=
  [ ("camera_1", JObj [ ("id", JStr "camera_1"); ("status", JStr "online") ]);
    ("camera_2", JObj [ ("id", JStr "camera_2"); ("fps", JNum 25) ]) ].

Definition network_error : value :=
  JObj [ ("message", JStr "Network Error"); ("code", JStr "ERR_NETWORK") ].

(** A server that cannot be reached. *)
Definition down : Api.backend := fun _ => Api.Failure network_error.

(** A clock that stands still at [t]. *)
Definition at_time (t : Z) : nat -> Z := fun _ => t.

(** 2026-11-02T03:00:00Z, and thirty seconds later. *)
Definition first_failure : Z := 1793588400000.
Definition second_failure : Z := 1793588430000.

Definition zero_confidence_log : value :=
  JObj [ ("log_id", JNum 9); ("confidence_score", JNum 0) ].

(** A stand-in for the engine where the score of a log is a number below
    [10^19]: the cell then calls neither of its two functions. *)
Definition numbers_only : LogTable.engine :=
  {| LogTable.ToNumber := fun _ => Ok LogTable.NotANumber;
     LogTable.NumberToString := fun _ => "" |}.

Definition granted_only : LogTable.FilterCriteria :=
  {| LogTable.search := ""; LogTable.dateFrom := ""; LogTable.dateTo := "";
     LogTable.employeeId := ""; LogTable.cameraId := "";
     LogTable.status := "granted" |}.

(** A server that ignores the query and answers with one denied access,
    in which it writes down the path it was asked for. *)
Definition echo : Api.backend :=
  fun url => Api.Response
    (JObj [ ("logs", JArr [ JObj [ ("id", JNum 1);
                                   ("timestamp", JStr "2026-11-02T03:00:00.000Z");
                                   ("camera_id", JStr "camera_1");
                                   ("person_id", JStr "EMP001");
                                   ("access_result", JStr "denied");
                                   ("requested", JStr url) ] ]) ]).

Definition denied_log (i : nat) : value :=
  JObj [ ("log_id", JNum (inject_Z (Z.of_nat i)));
         ("timestamp", JStr "2026-11-02T03:00:00.000Z");
         ("camera_id", JStr "camera_2");
         ("person_id", JStr "unknown");
         ("access_type", JStr "body_recognition");
         ("access_result", JStr "denied");
         ("confidence_score", JNum 0.45) ].

Definition denied_logs (n : nat) : value := JArr (map denied_log (seq 1 n)).


Definition raw_log_without_type : object :=
  [ ("id", JNum 3); ("access_result", JStr "denied") ].

(** Statistics of a day on which every access was denied. *)
Definition all_denied_stats : value :=
  JObj [ ("total_access_granted", JNum 0); ("total_access_denied", JNum 8) ].

Definition mounted : Dashboard.subscription :=
  Dashboard.step Dashboard.idle Dashboard.Mount.

Definition fast_camera : object :=
  [ ("id", JStr "camera_1"); ("status", JStr "online"); ("fps", JNum 30) ].

(** An employee as the fallback data of the page has it, before
    normalisation: a numeric [id] beside the [employee_id]. *)
Definition john : object :=
  [ ("id", JNum 1); ("name", JStr "John Doe"); ("employee_id", JStr "EMP001");
    ("email", JStr "john.doe@company.com") ].

Definition three_logs : list value :=
  [ JObj [ ("id", JNum 1) ]; JObj [ ("id", JNum 2) ]; JObj [ ("id", JNum 3) ] ].

End Examples.

(* ================================================================== *)
(** ** Properties *)
(* ================================================================== *)

Import Js.

(** *** Objects and [||] *)

Lemma lookup_set_prop (k k' : string) (v : value) (o : object) :
  lookup k (set_prop k' v o) = if k' =? k then Some v else lookup k o.
Proof.
  induction o as [| [k0 v0] rest IH]; simpl.
  - destruct (k' =? k); reflexivity.
  - destruct (k0 =? k') eqn:E0; simpl.
    + apply String.eqb_eq in E0; subst k0.
      destruct (k' =? k); reflexivity.
    + destruct (k0 =? k) eqn:E1.
      * apply String.eqb_eq in E1; subst k0. rewrite String.eqb_sym, E0.
        reflexivity.
      * exact IH.
Qed.

Lemma lookup_assign (k : string) (fields : list (string * value)) :
  forall base,
    lookup k (assign base fields) = Records.override k fields (lookup k base).
Proof.
  unfold assign, Records.override.
  induction fields as [| [k' v] rest IH]; intros base; simpl.
  - reflexivity.
  - rewrite IH, lookup_set_prop. reflexivity.
Qed.

Lemma own_assign (k : string) (fields : list (string * value)) (base : object) :
  own (assign base fields) k
  = from_option (Records.override k fields (lookup k base)).
Proof. unfold own. now rewrite lookup_assign. Qed.

Lemma truthy_or (a b : value) : truthy b = true -> truthy (or a b) = true.
Proof. unfold or. destruct (truthy a) eqn:E; auto. Qed.

Lemma or_defined (a b : value) : b <> JUndefined -> or a b <> JUndefined.
Proof.
  unfold or. destruct (truthy a) eqn:E; auto.
  intros _ ->. discriminate.
Qed.

Lemma truthy_defined (v : value) : truthy v = true -> v <> JUndefined.
Proof. intros H ->. discriminate. Qed.

Lemma or_undefined (a b : value) :
  or a b = JUndefined <-> truthy a = false /\ b = JUndefined.
Proof.
  unfold or. destruct (truthy a) eqn:E; split.
  - intros ->. discriminate.
  - intros [H _]. discriminate.
  - auto.
  - intros [_ H]. exact H.
Qed.

(** *** The normalisers on a record (a JSON object) *)

Lemma normalizeLog_object (now : Z) (o : object) :
  Api.normalizeLog now (JObj o) =
  Ok (JObj (assign o
    [ ("log_id", or (own o "id") (own o "log_id"));
      ("access_result", or (own o "access_type") (own o "access_result"));
      ("confidence_score", or (own o "confidence") (own o "confidence_score"));
      ("timestamp", or (own o "timestamp") (JStr (JsDate.toISOString now)));
      ("camera_id", or (own o "camera_id") (JStr "unknown"));
      ("person_id", or (own o "person_id") (JStr "unknown"));
      ("access_type", or (own o "access_type") (JStr "unknown")) ])).
Proof. reflexivity. Qed.

Lemma normalizeCamera_object (o : object) :
  Api.normalizeCamera (JObj o) =
  (name <- or_else (own o "name") (Utils.formatCameraName (own o "id")) ;;
   location <- or_else (own o "location") (Utils.getCameraLocation (own o "id")) ;;
   Ok (JObj (assign o
     [ ("personCount", or (or (own o "person_count") (own o "personCount")) (JNum 0));
       ("lastFrame", or (own o "last_frame_time") (own o "lastFrame"));
       ("status", or (own o "status") (JStr "unknown"));
       ("fps", or (own o "fps") (JNum 0));
       ("name", name);
       ("location", location) ]))).
Proof. reflexivity. Qed.

(** Whenever [normalizeCamera] returns, the record it returns is the raw
    one with the six canonical properties assigned. *)
Lemma normalizeCamera_inv (o : object) (r : value) :
  Api.normalizeCamera (JObj o) = Ok r ->
  exists name location,
    or_else (own o "name") (Utils.formatCameraName (own o "id")) = Ok name /\
    or_else (own o "location") (Utils.getCameraLocation (own o "id")) = Ok location /\
    r = JObj (assign o
      [ ("personCount", or (or (own o "person_count") (own o "personCount")) (JNum 0));
        ("lastFrame", or (own o "last_frame_time") (own o "lastFrame"));
        ("status", or (own o "status") (JStr "unknown"));
        ("fps", or (own o "fps") (JNum 0));
        ("name", name);
        ("location", location) ]).
Proof.
  rewrite normalizeCamera_object.
  destruct (or_else (own o "name") _) as [name | e] eqn:En; [| discriminate].
  destruct (or_else (own o "location") _) as [location | e] eqn:El;
    [| discriminate].
  simpl. intros H. injection H as <-. eauto.
Qed.

Lemma capitalize_words_length (s : string) :
  forall prev, String.length (Utils.capitalize_words prev s) = String.length s.
Proof. induction s; intros prev; simpl; auto. Qed.

Lemma replace_first_underscore_length (s : string) :
  String.length (Utils.replace_first_underscore s) = String.length s.
Proof.
  induction s as [| c rest IH]; simpl; auto.
  destruct (Utils.code c =? 95)%nat; simpl; auto.
Qed.

Lemma length_zero_empty (s : string) : String.length s = 0%nat -> s = "".
Proof. destruct s; simpl; [reflexivity | discriminate]. Qed.

(** [formatCameraName] returns a non-empty string whenever it returns. *)
Lemma formatCameraName_truthy (id v : value) :
  Utils.formatCameraName id = Ok v -> truthy v = true.
Proof.
  unfold Utils.formatCameraName.
  destruct (truthy id) eqn:Et; simpl.
  - destruct id; try discriminate. intros H. injection H as <-.
    simpl in *.
    destruct (Utils.capitalize_words false (Utils.replace_first_underscore s)
              =? "") eqn:E; [| reflexivity].
    apply String.eqb_eq, (f_equal String.length) in E.
    rewrite capitalize_words_length, replace_first_underscore_length in E.
    apply length_zero_empty in E. subst s. discriminate.
  - intros H. injection H as <-. reflexivity.
Qed.

Lemma getCameraLocation_truthy (id v : value) :
  Utils.getCameraLocation id = Ok v -> truthy v = true.
Proof.
  unfold Utils.getCameraLocation.
  destruct (Utils.property_key id) as [k | e]; simpl; [| discriminate].
  intros H. injection H as <-. apply truthy_or. reflexivity.
Qed.

Lemma or_else_truthy (a : value) (e : result value) (v : value) :
  (forall w, e = Ok w -> truthy w = true) ->
  or_else a e = Ok v -> truthy v = true.
Proof.
  unfold or_else. destruct (truthy a) eqn:E; intros He H.
  - injection H as <-. exact E.
  - auto.
Qed.

Lemma property_key_text (v : value) :
  match v with JStr _ | JUndefined => True | _ => False end ->
  exists k, Utils.property_key v = Ok k.
Proof. destruct v; simpl; intros H; try contradiction; eauto. Qed.

(** A raw camera whose [id] is a string, or missing, is always
    normalised: no exception. *)
Lemma normalizeCamera_returns (o : object) :
  Records.id_is_text o = true -> exists r, Api.normalizeCamera (JObj o) = Ok r.
Proof.
  unfold Records.id_is_text. intros H.
  rewrite normalizeCamera_object.
  assert (Hn : exists n, or_else (own o "name")
                           (Utils.formatCameraName (own o "id")) = Ok n).
  { unfold or_else. destruct (truthy (own o "name")); [eauto |].
    unfold Utils.formatCameraName.
    destruct (own o "id"); try discriminate; simpl; eauto.
    destruct (negb (negb (s =? ""))); eauto. }
  assert (Hl : exists l, or_else (own o "location")
                           (Utils.getCameraLocation (own o "id")) = Ok l).
  { unfold or_else. destruct (truthy (own o "location")); [eauto |].
    unfold Utils.getCameraLocation.
    destruct (own o "id"); try discriminate; simpl; eauto. }
  destruct Hn as [n ->], Hl as [l ->]. simpl. eauto.
Qed.

(** *** The cameras [normalizeCamera] accepts *)

(** The conversion of a value to a property key throws exactly on the
    values that are not usable as a key. *)
Lemma property_key_domain :
  forall v,
    if Records.usable_as_key v
    then exists k, Utils.property_key v = Ok k
    else exists msg, Utils.property_key v = Throw (TypeError msg).
Proof.
  fix IH 1. intros [ | | b | q | | s | items | props | name];
    try (cbn; eauto; fail).
  - destruct b; cbn; eauto.
  - cbn [Records.usable_as_key Utils.property_key].
    induction items as [| y ys IHys].
    + cbn. eauto.
    + cbn [forallb].
      specialize (IH y).
      destruct (Records.usable_as_key y) eqn:Ey.
      * destruct IH as [k Hk].
        assert (Hy : exists p, match y with
                               | JUndefined | JNull => Ok (Some "")
                               | _ => Utils.property_key y
                               end = Ok p).
        { destruct y; eauto. }
        destruct Hy as [p Hp]. cbn [andb].
        destruct (forallb Records.usable_as_key ys).
        -- destruct IHys as [ks Hks]. cbn [bind] in *. rewrite Hp. cbn [bind].
           match type of Hks with
           | bind ?m _ = _ => destruct m as [ps | err] eqn:Em; [| discriminate]
           end. cbn [bind]. eauto.
        -- destruct IHys as [msg Hmsg]. cbn [bind] in *. rewrite Hp. cbn [bind].
           match type of Hmsg with
           | bind ?m _ = _ => destruct m as [ps | err] eqn:Em; [discriminate |]
           end. cbn [bind] in *. eauto.
      * destruct IH as [msg Hmsg]. cbn [andb].
        assert (Hy : match y with
                     | JUndefined | JNull => Ok (Some "")
                     | _ => Utils.property_key y
                     end = Throw (TypeError msg)).
        { destruct y; try exact Hmsg; discriminate Ey. }
        cbn [bind]. rewrite Hy. cbn [bind]. eauto.
  - cbn. destruct (lookup "toString" props); eauto.
Qed.

(** [normalizeCamera] returns exactly on the records it accepts, and
    throws a [TypeError] on the others. *)
Lemma normalizeCamera_domain (o : object) :
  if Records.accepted o
  then exists r, Api.normalizeCamera (JObj o) = Ok r
  else exists msg, Api.normalizeCamera (JObj o) = Throw (TypeError msg).
Proof.
  rewrite normalizeCamera_object. unfold Records.accepted, or_else.
  destruct (truthy (own o "name")) eqn:En; cbn [orb].
  - destruct (truthy (own o "location")) eqn:El; cbn [orb andb bind].
    + eauto.
    + unfold Utils.getCameraLocation.
      pose proof (property_key_domain (own o "id")) as Hk.
      destruct (Records.usable_as_key (own o "id")).
      * destruct Hk as [k ->]. cbn [bind]. eauto.
      * destruct Hk as [msg ->]. cbn [bind]. eauto.
  - unfold Utils.formatCameraName.
    destruct (truthy (own o "id")) eqn:Ei; cbn [negb orb].
    + destruct (own o "id") eqn:Eid; cbn [Records.is_string andb bind];
        try (eexists; reflexivity).
      destruct (truthy (own o "location")) eqn:El;
        cbn [orb bind Records.usable_as_key]; [eauto |].
      unfold Utils.getCameraLocation. cbn [Utils.property_key bind]. eauto.
    + cbn [bind andb].
      destruct (truthy (own o "location")) eqn:El; cbn [orb bind]; [eauto |].
      unfold Utils.getCameraLocation.
      pose proof (property_key_domain (own o "id")) as Hk.
      destruct (Records.usable_as_key (own o "id")).
      * destruct Hk as [k ->]. cbn [bind]. eauto.
      * destruct Hk as [msg ->]. cbn [bind]. eauto.
Qed.

Lemma normalizeCamera_accepted (o : object) :
  Records.accepted o = true -> exists r, Api.normalizeCamera (JObj o) = Ok r.
Proof.
  intros H. pose proof (normalizeCamera_domain o) as Hd.
  now rewrite H in Hd.
Qed.

Lemma normalizeCamera_refused (o : object) :
  Records.accepted o = false ->
  exists msg, Api.normalizeCamera (JObj o) = Throw (TypeError msg).
Proof.
  intros H. pose proof (normalizeCamera_domain o) as Hd.
  now rewrite H in Hd.
Qed.

(** The camera that has a number for its [id] and no [name] is not
    normalised: the default of [name] throws. *)
Lemma numbered_camera_refused :
  exists msg,
    Api.normalizeCamera (JObj Examples.numbered_camera) = Throw (TypeError msg).
Proof. eexists. reflexivity. Qed.

(** Whenever [normalizeCamera] returns, the six canonical properties of
    its record are the defaulted ones. *)
Lemma normalizeCamera_defaults (o : object) (r : value) :
  Api.normalizeCamera (JObj o) = Ok r -> Records.defaults_applied (JObj o) r.
Proof.
  intros H.
  apply normalizeCamera_inv in H as (name & location & Hn & Hl & ->).
  eexists o, _. split; [reflexivity |]. split; [reflexivity |].
  rewrite !own_assign.
  cbn [Records.override fold_left fst snd String.eqb Ascii.eqb Bool.eqb
       from_option].
  repeat split; assumption.
Qed.

(** *** C1: the source of [access_result] *)

(** What [normalizeLog] stores: [access_type] comes first for
    [access_result], and [access_result] is read only when [access_type] is
    falsy. *)
Lemma normalizeLog_access_result (now : Z) (o : object) :
  exists r,
    Api.normalizeLog now (JObj o) = Ok r /\
    get r "access_result" = Ok (or (own o "access_type") (own o "access_result")) /\
    get r "access_type" = Ok (or (own o "access_type") (JStr "unknown")).
Proof.
  rewrite normalizeLog_object. eexists. split; [reflexivity |].
  cbn [get]. rewrite !own_assign. split; reflexivity.
Qed.

(** C1. The claim takes the canonical access result from the raw
    [access_result] when it is present. On a log that carries
    [access_type: "face_recognition"] and [access_result: "granted"],
    [getAccessLogs] returns a record whose [access_result] is
    ["face_recognition"]: the raw result is overwritten by the access
    type. *)
Theorem C1_access_result_overwritten_by_access_type :
  forall clock params,
  exists r,
    Api.getAccessLogs Examples.both_fields_server clock params = Ok (JArr [r]) /\
    get r "access_result" = Ok (JStr "face_recognition") /\
    get r "access_type" = Ok (JStr "face_recognition") /\
    get r "access_result" <> Ok (JStr "granted").
Proof.
  intros clock params. eexists. split; [reflexivity |].
  repeat split; try reflexivity. discriminate.
Qed.

(** *** C4: the status of a camera *)

Lemma any_case_online_nonempty (s : string) : Records.any_case_online s -> s <> "".
Proof. intros H ->. discriminate. Qed.

Lemma normalizeCamera_status (o : object) (r : value) :
  Api.normalizeCamera (JObj o) = Ok r ->
  get r "status" = Ok (or (own o "status") (JStr "unknown")).
Proof.
  intros H. apply normalizeCamera_inv in H as (name & location & _ & _ & ->).
  cbn [get]. rewrite own_assign. reflexivity.
Qed.

(** A status that reads ["online"] in capitals is neither ['online'] nor
    ['offline'] for a strict comparison. *)
Lemma capitals_fail_strict_comparison (s : string) :
  Records.any_case_online s -> s <> "online" ->
  is_text (JStr s) "online" = false /\ is_text (JStr s) "offline" = false.
Proof.
  intros Hcase Hneq. cbn [is_text]. split.
  - apply String.eqb_neq. exact Hneq.
  - apply String.eqb_neq. intros ->. discriminate Hcase.
Qed.

(** C4, as the code has it. [normalizeCamera] accepts a raw camera exactly
    when the defaults of [name] and [location] can be computed, and
    throws a [TypeError] otherwise. On a camera it accepts: a missing
    [status] becomes ['unknown'], and a status that is ["online"] in any
    letter case is kept as it was written, letter case included. No case
    is folded by the normaliser; [getStatusColor] folds it for itself and
    gives such a status the colour of ['online'], while a strict
    comparison with ['online'], as [getHealthScore] makes, does not match
    a status written with a capital: the health score is 0. *)
Theorem C4_status_default_and_verbatim (o : object) :
  Records.accepted o = true ->
  (exists r,
      Api.normalizeCamera (JObj o) = Ok r /\
      (lookup "status" o = None -> get r "status" = Ok (JStr "unknown")) /\
      (forall s, lookup "status" o = Some (JStr s) -> Records.any_case_online s ->
                 get r "status" = Ok (JStr s) /\
                 Utils.getStatusColor (JStr s) = Ok (JStr Utils.green) /\
                 (s <> "online" ->
                  get r "status" <> Ok (JStr "online") /\
                  CameraHealth.getHealthScore r = Ok (Some 0%Z)))) /\
  (forall other, Records.accepted other = false ->
                 exists msg,
                   Api.normalizeCamera (JObj other) = Throw (TypeError msg)).
Proof.
  intros Hacc. split; [| exact normalizeCamera_refused].
  destruct (normalizeCamera_accepted o Hacc) as [r Hr].
  exists r. split; [exact Hr |].
  pose proof (normalizeCamera_status o r Hr) as Hs. split.
  - intros Hnone. rewrite Hs. unfold own. rewrite Hnone. reflexivity.
  - intros s Hsome Hcase.
    assert (Hst : get r "status" = Ok (JStr s)).
    { rewrite Hs. unfold own. rewrite Hsome. cbn [from_option]. unfold or.
      simpl. destruct (s =? "") eqn:E; [| reflexivity].
      apply String.eqb_eq in E. now apply any_case_online_nonempty in Hcase. }
    split; [exact Hst |]. split.
    + unfold Utils.getStatusColor. simpl. rewrite Hcase. reflexivity.
    + intros Hneq. split.
      * rewrite Hst. intros H. injection H as H. contradiction.
      * destruct (capitals_fail_strict_comparison s Hcase Hneq) as [Hon Hoff].
        apply normalizeCamera_inv in Hr as (name & location & _ & _ & ->).
        unfold CameraHealth.getHealthScore. rewrite Hst.
        cbn [bind get]. rewrite Hon, Hoff. reflexivity.
Qed.

Lemma C4_status_default_and_verbatim_witness :
  exists r,
    Api.normalizeCamera (JObj Examples.shouting_camera) = Ok r /\
    get r "status" = Ok (JStr "ONLINE") /\
    Utils.getStatusColor (JStr "ONLINE") = Ok (JStr Utils.green) /\
    CameraHealth.getHealthScore r = Ok (Some 0%Z).
Proof.
  destruct (C4_status_default_and_verbatim Examples.shouting_camera eq_refl)
    as [(r & Hr & _ & Hs) _].
  destruct (Hs "ONLINE" eq_refl eq_refl) as (Hst & Hcolour & Hstrict).
  exists r. split; [exact Hr |]. split; [exact Hst |]. split; [exact Hcolour |].
  apply Hstrict. discriminate.
Defined.

(** C4 fails as stated: the status ["ONLINE"] is normalised to ["ONLINE"],
    not to ['online']. *)
Lemma C4_counterexample :
  exists r,
    Api.normalizeCamera (JObj Examples.shouting_camera) = Ok r /\
    Records.any_case_online "ONLINE" /\
    get r "status" = Ok (JStr "ONLINE") /\
    get r "status" <> Ok (JStr "online").
Proof.
  eexists. split; [reflexivity |]. repeat split. discriminate.
Qed.

(** *** C6: which canonical fields are always defined *)

Lemma defined_truthy (o : object) (k : string) :
  truthy (own o k) = true -> Records.defined (JObj o) k.
Proof.
  intros H. exists (own o k). split; [reflexivity |].
  now apply truthy_defined.
Qed.

Lemma defined_own (o : object) (k : string) :
  own o k <> JUndefined -> Records.defined (JObj o) k.
Proof. intros H. exists (own o k). split; [reflexivity | exact H]. Qed.

Ltac field_defined :=
  apply defined_own; rewrite own_assign; cbn [Records.override fold_left fst snd
    String.eqb Ascii.eqb Bool.eqb from_option];
  first [ apply or_defined; discriminate
        | apply truthy_defined; assumption ].

Lemma normalizeLog_fields (now : Z) (o : object) :
  exists r,
    Api.normalizeLog now (JObj o) = Ok r /\
    Forall (Records.defined r)
           [ "timestamp"; "camera_id"; "person_id"; "access_type" ] /\
    get r "log_id" = Ok (or (own o "id") (own o "log_id")) /\
    get r "confidence_score"
    = Ok (or (own o "confidence") (own o "confidence_score")).
Proof.
  rewrite normalizeLog_object. eexists. split; [reflexivity |]. split.
  - repeat constructor; field_defined.
  - cbn [get]. rewrite !own_assign. split; reflexivity.
Qed.

Lemma normalizeEmployee_fields (now : Z) (o : object) :
  exists r,
    Api.normalizeEmployee now (JObj o) = Ok r /\
    Forall (Records.defined r)
           [ "name"; "email"; "department"; "position"; "face_image";
             "registered_date"; "status" ] /\
    get r "employee_id" = Ok (or (own o "id") (own o "employee_id")).
Proof.
  eexists. split; [reflexivity |]. split.
  - repeat constructor; field_defined.
  - cbn [get]. rewrite own_assign. reflexivity.
Qed.

(** C6, as the code has it. Every raw log is normalised, and a raw camera
    is normalised exactly when [normalizeCamera] accepts it (the defaults
    of [name] and [location] throw a [TypeError] otherwise, so that no
    record is produced). Normalisation then gives every required field a
    value that is not [undefined], by a default when the sources are
    missing or falsy: [personCount], [status], [fps], [name], [location] of
    a camera, [timestamp], [camera_id], [person_id], [access_type] of a
    log. The fields without a default hold what their sources hold:
    [lastFrame] is [last_frame_time || lastFrame] and [confidence_score] is
    [confidence || confidence_score], which is [undefined] when the raw
    record has neither. *)
Theorem C6_required_fields_defined (o : object) :
  Records.accepted o = true ->
  (exists r,
      Api.normalizeCamera (JObj o) = Ok r /\
      Forall (Records.defined r)
             [ "personCount"; "status"; "fps"; "name"; "location" ] /\
      get r "lastFrame" = Ok (or (own o "last_frame_time") (own o "lastFrame"))) /\
  (forall other, Records.accepted other = false ->
                 exists msg,
                   Api.normalizeCamera (JObj other) = Throw (TypeError msg)) /\
  (forall now log, exists l,
      Api.normalizeLog now (JObj log) = Ok l /\
      Forall (Records.defined l)
             [ "timestamp"; "camera_id"; "person_id"; "access_type" ] /\
      get l "confidence_score"
      = Ok (or (own log "confidence") (own log "confidence_score"))).
Proof.
  intros Hacc. split; [| split; [exact normalizeCamera_refused |]].
  - destruct (normalizeCamera_accepted o Hacc) as [r Hr].
    exists r. split; [exact Hr |].
    apply normalizeCamera_inv in Hr as (name & location & Hn & Hl & ->).
    apply or_else_truthy in Hn; [| apply formatCameraName_truthy].
    apply or_else_truthy in Hl; [| apply getCameraLocation_truthy].
    split.
    + repeat constructor; field_defined.
    + cbn [get]. rewrite own_assign. reflexivity.
  - intros now log.
    destruct (normalizeLog_fields now log) as (l & Hl1 & Hl2 & _ & Hl3).
    exists l. auto.
Qed.

Lemma C6_required_fields_defined_witness :
  exists r,
    Api.normalizeCamera (JObj Examples.bare_camera) = Ok r /\
    Forall (Records.defined r)
           [ "personCount"; "status"; "fps"; "name"; "location" ].
Proof.
  destruct (C6_required_fields_defined Examples.bare_camera eq_refl)
    as [(r & Hr & Hfields & _) _].
  exists r. split; [exact Hr | exact Hfields].
Defined.

(** C6 fails as stated: a camera without a frame time is normalised to a
    record whose [lastFrame] is [undefined], and a log without a confidence
    to one whose [confidence_score] is [undefined]. *)
Lemma C6_counterexample :
  exists r l,
    Api.normalizeCamera (JObj Examples.bare_camera) = Ok r /\
    Api.normalizeLog 0 (JObj Examples.bare_log) = Ok l /\
    ~ Records.defined r "lastFrame" /\
    ~ Records.defined l "confidence_score".
Proof.
  do 2 eexists. split; [reflexivity |]. split; [reflexivity |].
  split; intros (v & Hget & Hv); apply Hv; cbv in Hget; congruence.
Qed.

(** *** C8: a map of cameras becomes an array *)

Lemma override_outside (k : string) (fields : list (string * value))
    (init : option value) :
  ~ In k (map fst fields) -> Records.override k fields init = init.
Proof.
  unfold Records.override. revert init.
  induction fields as [| [k' v] rest IH]; intros init Hk; simpl.
  - reflexivity.
  - simpl in Hk. rewrite IH by tauto.
    destruct (k' =? k) eqn:E; [| reflexivity].
    apply String.eqb_eq in E. tauto.
Qed.

Lemma normalizeCamera_converted (o : object) (r : value) :
  Api.normalizeCamera (JObj o) = Ok r -> Records.converted (JObj o) r.
Proof.
  intros H.
  apply normalizeCamera_inv in H as (name & location & Hn & Hl & ->).
  eexists o, _. split; [reflexivity |]. split; [reflexivity |]. split.
  - intros k Hk. rewrite lookup_assign. now apply override_outside.
  - intros k Hk Ht. rewrite own_assign.
    unfold or_else in Hn, Hl.
    simpl in Hk. destruct Hk as [<- | [<- | [<- | [<- | []]]]];
      cbn [Records.override fold_left fst snd String.eqb Ascii.eqb Bool.eqb
           from_option].
    + unfold or. now rewrite Ht.
    + unfold or. now rewrite Ht.
    + rewrite Ht in Hn. congruence.
    + rewrite Ht in Hl. congruence.
Qed.

Lemma mapM_normalizeCamera (raws : list value) :
  Forall (fun raw => exists o, raw = JObj o /\ Records.id_is_text o = true) raws ->
  exists out,
    mapM Api.normalizeCamera raws = Ok out /\
    Forall2 Records.converted raws out.
Proof.
  induction 1 as [| raw rest (o & -> & Hid) _ (out & Hout & Hall)].
  - exists []. split; [reflexivity | constructor].
  - destruct (normalizeCamera_returns o Hid) as [r Hr].
    exists (r :: out). split.
    + cbn [mapM]. rewrite Hr. cbn [bind]. rewrite Hout. reflexivity.
    + constructor; [now apply normalizeCamera_converted | exact Hall].
Qed.

Lemma mapM_normalizeCamera_defaults (raws out : list value) :
  Forall (fun raw => exists o, raw = JObj o) raws ->
  mapM Api.normalizeCamera raws = Ok out ->
  Forall2 Records.defaults_applied raws out.
Proof.
  intros Hraws. revert out.
  induction Hraws as [| raw rest [o ->] _ IH]; intros out H.
  - cbn [mapM] in H. injection H as <-. constructor.
  - cbn [mapM] in H.
    destruct (Api.normalizeCamera (JObj o)) as [r | e] eqn:Er;
      [| discriminate H].
    cbn [bind] in H.
    destruct (mapM Api.normalizeCamera rest) as [ys | e] eqn:Eys;
      [| discriminate H].
    cbn [bind] in H. injection H as <-.
    constructor; [now apply normalizeCamera_defaults | now apply IH].
Qed.

Lemma Forall2_both {A B : Type} (P Q : A -> B -> Prop) (xs : list A)
    (ys : list B) :
  Forall2 P xs ys -> Forall2 Q xs ys ->
  Forall2 (fun x y => P x y /\ Q x y) xs ys.
Proof.
  intros HP. induction HP as [| x y xs ys Hxy _ IH]; intros HQ.
  - constructor.
  - inversion HQ; subst. constructor; auto.
Qed.

(** C8, as the code has it. When the body of the response carries, under
    [cameras], a map whose entries are camera records (objects whose [id]
    is a string or missing), [getCameras] returns the body with [cameras]
    replaced by an array that has one element per key, in the order of
    the keys. Each element is the record stored under that key with every
    property outside the six canonical ones unchanged, nothing added (the
    key is not copied into it), and the six canonical ones set:
    [personCount] to [person_count] when that is truthy, else to a truthy
    [personCount], else to 0; [lastFrame] to [last_frame_time] when that
    is truthy, else to [lastFrame]; [status], [fps], [name] and [location]
    kept when truthy, and defaulted otherwise. *)
Theorem C8_map_becomes_array (server : Api.backend) (body entries : object) :
  server "/cameras" = Api.Response (JObj body) ->
  lookup "cameras" body = Some (JObj entries) ->
  Forall (fun raw => exists o, raw = JObj o /\ Records.id_is_text o = true)
         (map snd entries) ->
  exists out,
    Api.getCameras server
    = Ok (JObj (assign body [ ("cameras", JArr out) ])) /\
    length out = length entries /\
    Forall2 (fun raw canon => Records.converted raw canon /\
                              Records.defaults_applied raw canon)
            (map snd entries) out.
Proof.
  intros Hserver Hcams Hentries.
  destruct (mapM_normalizeCamera _ Hentries) as (out & Hout & Hall).
  exists out. split; [| split].
  - unfold Api.getCameras, Api.api_get. rewrite Hserver.
    cbn [bind get]. unfold own. rewrite Hcams.
    cbn [from_option truthy typeof_object andb].
    change (values (JObj entries)) with (map snd entries).
    rewrite Hout. reflexivity.
  - apply Forall2_length in Hall. rewrite <- Hall. apply length_map.
  - apply Forall2_both; [exact Hall |].
    apply mapM_normalizeCamera_defaults; [| exact Hout].
    eapply Forall_impl; [| exact Hentries].
    intros raw (o & -> & _). eauto.
Qed.

Lemma C8_map_becomes_array_witness :
  exists out,
    Api.getCameras (Examples.map_of Examples.two_cameras)
    = Ok (JObj (assign [ ("cameras", JObj Examples.two_cameras) ]
                       [ ("cameras", JArr out) ])) /\
    length out = 2%nat /\
    Forall2 (fun raw canon => Records.converted raw canon /\
                              Records.defaults_applied raw canon)
            (map snd Examples.two_cameras) out.
Proof.
  apply (C8_map_becomes_array (Examples.map_of Examples.two_cameras)
           [ ("cameras", JObj Examples.two_cameras) ] Examples.two_cameras).
  - reflexivity.
  - reflexivity.
  - repeat constructor; eexists; split; reflexivity.
Defined.

(** C8 fails as stated: the conversion is not lossless. A camera that
    reports [person_count: 3] and [personCount: 7] comes out with
    [personCount: 3], so its raw [personCount] is gone; and two maps that
    store the same record under different keys give the same array. *)
Lemma C8_counterexample :
  exists r,
    Api.getCameras (Examples.map_of [ ("camera_1", JObj Examples.two_counts) ])
    = Ok (JObj [ ("cameras", JArr [ JObj r ]) ]) /\
    lookup "personCount" Examples.two_counts = Some (JNum 7) /\
    lookup "personCount" r = Some (JNum 3) /\
    ~ Records.preserved Examples.two_counts r /\
    Api.getCameras (Examples.map_of [ ("camera_1", JObj [ ("fps", JNum 25) ]) ])
    = Api.getCameras (Examples.map_of [ ("camera_2", JObj [ ("fps", JNum 25) ]) ]).
Proof.
  eexists. split; [reflexivity |]. split; [reflexivity |].
  split; [reflexivity |]. split; [| reflexivity].
  intros H. specialize (H "personCount" (JNum 7) eq_refl). discriminate H.
Qed.

(** *** C3: what a transport failure becomes *)

Lemma api_get_failure (server : Api.backend) (url : string) (cause : value) :
  server url = Api.Failure cause ->
  Api.api_get server url = Throw (Rejected cause).
Proof. unfold Api.api_get. intros ->. reflexivity. Qed.

Lemma call_failure (server : Api.backend) (clock : nat -> Z) (f : Api.fetch)
    (cause : value) :
  server (Api.url_of f) = Api.Failure cause ->
  Api.call server clock f = Throw (Rejected cause).
Proof.
  destruct f; intros H;
    unfold Api.call, Api.url_of, Api.access_logs_url in *;
    unfold Api.checkHealth, Api.getSystemStats, Api.getCameras,
           Api.getCameraStatus, Api.getCameraHealth, Api.getAccessLogs,
           Api.getEmployees;
    cbv zeta; rewrite (api_get_failure _ _ _ H); reflexivity.
Qed.

(** C3, as the code has it. On a transport failure every fetch function is
    rejected with the error object of the failure, unchanged, as its
    reason: the response interceptor re-raises it, and no value is
    returned. The pages catch it: [fetchLogs] and [fetchData] then store
    the fallback data and an error message, and clear [loading]. *)
Theorem C3_failure_rejects_and_pages_catch (server : Api.backend)
    (clock : nat -> Z) (f : Api.fetch) (cause : value) :
  server (Api.url_of f) = Api.Failure cause ->
  Api.call server clock f = Throw (Rejected cause) /\
  (forall v, Api.call server clock f <> Ok v) /\
  (forall mock_clock st,
      f = Api.GetAccessLogs (AccessLogs.filters st) ->
      AccessLogs.fetchLogs server clock mock_clock st
      = {| AccessLogs.logs := AccessLogs.mockLogs mock_clock;
           AccessLogs.loading := false;
           AccessLogs.error := Some "Failed to load access logs";
           AccessLogs.filters := AccessLogs.filters st |}) /\
  (forall mock_clock st,
      f = Api.GetSystemStats \/ f = Api.GetCameras ->
      Dashboard.fetchData_settle (Api.getSystemStats server)
                                 (Api.getCameras server) mock_clock st
      = {| Dashboard.systemStats := Dashboard.mockStats (mock_clock 0%nat);
           Dashboard.cameras :=
             Dashboard.mockCameras (mock_clock 1%nat) (mock_clock 2%nat);
           Dashboard.loading := false;
           Dashboard.error := Some "Failed to load dashboard data" |}).
Proof.
  intros H. pose proof (call_failure server clock f cause H) as Hcall.
  split; [exact Hcall |]. split; [| split].
  - intros v Hv. rewrite Hcall in Hv. discriminate.
  - intros mock_clock st ->. unfold Api.call in Hcall.
    unfold AccessLogs.fetchLogs, AccessLogs.fetchLogs_start.
    cbv zeta. cbn [AccessLogs.filters].
    rewrite Hcall. reflexivity.
  - intros mock_clock st [-> | ->]; unfold Api.call in Hcall; rewrite Hcall.
    + reflexivity.
    + unfold Dashboard.fetchData_settle.
      destruct (Api.getSystemStats server); reflexivity.
Qed.

Lemma C3_failure_rejects_and_pages_catch_witness :
  Api.call Examples.down (Examples.at_time 0) Api.GetCameras
  = Throw (Rejected Examples.network_error).
Proof.
  apply (C3_failure_rejects_and_pages_catch Examples.down (Examples.at_time 0)
           Api.GetCameras Examples.network_error).
  reflexivity.
Defined.

(** C3 fails as stated: when the server cannot be reached, [getCameras]
    and [getAccessLogs] return nothing, tagged or not; they are
    rejected. *)
Lemma C3_counterexample :
  Api.getCameras Examples.down = Throw (Rejected Examples.network_error) /\
  Api.getAccessLogs Examples.down (Examples.at_time 0) []
  = Throw (Rejected Examples.network_error) /\
  ~ (exists v, Api.getCameras Examples.down = Ok v).
Proof.
  split; [reflexivity |]. split; [reflexivity |].
  intros [v Hv]. discriminate Hv.
Qed.

(** A body that is not of the expected shape is no failure for the
    gateway: a text body gives an empty list of logs, and a [null] body
    raises a [TypeError] inside [getAccessLogs]. *)
Lemma getAccessLogs_odd_bodies (server : Api.backend) (clock : nat -> Z)
    (params : list (string * string)) :
  (forall text, server (Api.access_logs_url params) = Api.Response (JStr text) ->
                Api.getAccessLogs server clock params = Ok (JArr [])) /\
  (server (Api.access_logs_url params) = Api.Response JNull ->
   exists msg, Api.getAccessLogs server clock params = Throw (TypeError msg)).
Proof.
  unfold Api.getAccessLogs, Api.api_get.
  fold (Api.access_logs_url params). split.
  - intros text ->. reflexivity.
  - intros ->. eexists. reflexivity.
Qed.

(** *** C9: the fallback data *)

(** C9, as the code has it. The fallback collections are fixed except for
    their time stamps, which are computed from the clock when the failure
    is handled: two invocations agree on every field other than
    [timestamp], [lastFrame] and [last_update], whatever the clock shows,
    and they give the same logs when the five clock readings are the
    same. *)
Theorem C9_fallback_fixed_up_to_time (clock1 clock2 : nat -> Z) :
  (forall i, (i < 5)%nat -> clock1 i = clock2 i) ->
  AccessLogs.mockLogs clock1 = AccessLogs.mockLogs clock2 /\
  (forall c1 c2 : nat -> Z,
      Records.each_without "timestamp" (AccessLogs.mockLogs c1)
      = Records.each_without "timestamp" (AccessLogs.mockLogs c2)) /\
  (forall a1 b1 a2 b2 : Z,
      Records.each_without "lastFrame" (Dashboard.mockCameras a1 b1)
      = Records.each_without "lastFrame" (Dashboard.mockCameras a2 b2)) /\
  (forall n1 n2 : Z,
      Records.without "last_update" (Dashboard.mockStats n1)
      = Records.without "last_update" (Dashboard.mockStats n2)).
Proof.
  intros H. split; [| repeat split].
  unfold AccessLogs.mockLogs.
  rewrite (H 0%nat), (H 1%nat), (H 2%nat), (H 3%nat), (H 4%nat) by lia.
  reflexivity.
Qed.

Lemma C9_fallback_fixed_up_to_time_witness :
  AccessLogs.mockLogs (Examples.at_time Examples.first_failure)
  = AccessLogs.mockLogs
      (fun i => if (i <? 5)%nat then Examples.first_failure
                else Examples.second_failure).
Proof.
  apply (C9_fallback_fixed_up_to_time
           (Examples.at_time Examples.first_failure)
           (fun i => if (i <? 5)%nat then Examples.first_failure
                     else Examples.second_failure)).
  intros i Hi. apply Nat.ltb_lt in Hi. unfold Examples.at_time.
  rewrite Hi. reflexivity.
Defined.

(** C9 fails as stated: two failures thirty seconds apart are given
    different logs, different cameras and different statistics. *)
Lemma C9_counterexample :
  AccessLogs.mockLogs (Examples.at_time Examples.first_failure)
  <> AccessLogs.mockLogs (Examples.at_time Examples.second_failure) /\
  Dashboard.mockCameras Examples.first_failure Examples.first_failure
  <> Dashboard.mockCameras Examples.second_failure Examples.second_failure /\
  Dashboard.mockStats Examples.first_failure
  <> Dashboard.mockStats Examples.second_failure.
Proof.
  repeat split; intros H; vm_compute in H; discriminate H.
Qed.

(** *** C10: the confidence of a log, in the table and in the export *)

Lemma string_of_Z_digit (d : Z) :
  (0 <= d < 10)%Z ->
  exists c, LogTable.string_of_Z d = String c "" /\ Records.is_digit c = true.
Proof.
  intros H.
  assert (Hd : (d = 0 \/ d = 1 \/ d = 2 \/ d = 3 \/ d = 4 \/ d = 5 \/ d = 6
                \/ d = 7 \/ d = 8 \/ d = 9)%Z) by lia.
  repeat (destruct Hd as [-> | Hd]); try subst d;
    eexists; split; reflexivity.
Qed.

Lemma string_of_uint_nonempty (u : Decimal.uint) :
  NilZero.string_of_uint u <> "".
Proof.
  unfold NilZero.string_of_uint. destruct u; simpl; discriminate.
Qed.

Lemma fixed1_nonneg_shape (x : Q) :
  exists whole d,
    LogTable.fixed1_nonneg x = whole ++ "." ++ String d "" /\
    whole <> "" /\ Records.is_digit d = true.
Proof.
  unfold LogTable.fixed1_nonneg.
  set (n := ((20 * Qnum x + Z.pos (Qden x)) / (2 * Z.pos (Qden x)))%Z).
  destruct (string_of_Z_digit (n mod 10)%Z) as (d & Hd & Hdigit).
  { apply Z.mod_pos_bound. lia. }
  exists (LogTable.string_of_Z (n / 10)), d. rewrite Hd.
  split; [reflexivity |]. split; [| exact Hdigit].
  apply string_of_uint_nonempty.
Qed.

Lemma append_assoc (a b c : string) : (a ++ b) ++ c = a ++ (b ++ c).
Proof. induction a as [| x a IH]; simpl; [reflexivity | now rewrite IH]. Qed.

(** Below [10^21] the text of [toFixed(1)], followed by [%], is a
    percentage with one decimal place. *)
Lemma toFixed1_shape (e : LogTable.engine) (q : Q) :
  Qle_bool (10 ^ 21)%Q (Qabs q) = false ->
  Records.percent_one_decimal (LogTable.toFixed1 e (LogTable.Finite q) ++ "%").
Proof.
  intros Hsmall. cbn [LogTable.toFixed1]. rewrite Hsmall.
  destruct (fixed1_nonneg_shape (Qabs q)) as (whole & d & -> & Hw & Hd).
  destruct (Qle_bool 0 q).
  - exists whole, d. cbn [append]. rewrite !append_assoc. auto.
  - exists ("-" ++ whole), d. split; [| split; [discriminate | exact Hd]].
    cbn [append]. rewrite !append_assoc. reflexivity.
Qed.

(** No text that ends with the percent sign is ['N/A']. *)
Lemma percent_is_not_NA (t : string) : t ++ "%" <> "N/A".
Proof.
  destruct t as [| a [| b [| c [| d t]]]]; cbn [append]; discriminate.
Qed.

Lemma is_zero_falsy (score : value) : Records.is_zero score -> truthy score = false.
Proof.
  intros (q & -> & Hq). simpl. apply Qeq_bool_iff in Hq. now rewrite Hq.
Qed.

(** A score between 0 and 1 is multiplied exactly: its hundredfold neither
    overflows nor reaches [10^21]. *)
Lemma hundredfold_in_range (q : Q) :
  (0 <= q <= 1)%Q ->
  LogTable.hundredfold (LogTable.Finite q) = LogTable.Finite (q * 100) /\
  Qle_bool (10 ^ 21)%Q (Qabs (q * 100)) = false.
Proof.
  intros [Hlo Hhi].
  assert (Habs : (Qabs (q * 100) <= 100)%Q).
  { rewrite Qabs_pos by (apply Qmult_le_0_compat; [exact Hlo | discriminate]).
    apply (Qmult_le_compat_r _ _ 100) in Hhi; [exact Hhi | discriminate]. }
  split.
  - cbn [LogTable.hundredfold]. unfold LogTable.of_real.
    destruct (Qle_bool LogTable.overflow (Qabs (q * 100))) eqn:E; [| reflexivity].
    exfalso. apply Qle_bool_iff in E.
    apply (Qle_not_lt _ _ (Qle_trans _ _ _ E Habs)). reflexivity.
  - destruct (Qle_bool (10 ^ 21) (Qabs (q * 100))) eqn:E; [| reflexivity].
    exfalso. apply Qle_bool_iff in E.
    apply (Qle_not_lt _ _ (Qle_trans _ _ _ E Habs)). reflexivity.
Qed.

(** The text of a truthy score ends with the percent sign, whatever the
    score is converted to. *)
Lemma confidence_text_truthy (e : LogTable.engine) (score : value) (s : string) :
  truthy score = true -> LogTable.confidence_text e score = Ok s ->
  exists t, s = t ++ "%".
Proof.
  unfold LogTable.confidence_text. intros ->.
  destruct (LogTable.times100 e score) as [x | err]; [| discriminate].
  cbn [bind]. intros H. injection H as <-. eauto.
Qed.

(** A score that is a text is converted by the engine first: the text
    ["0"], which is truthy, shows ['0.0%'], and a text that is no number
    shows ['NaN%']. *)
Lemma confidence_of_text_score (e : LogTable.engine) (t : string) :
  t <> "" ->
  (LogTable.ToNumber e (JStr t) = Ok (LogTable.Finite 0) ->
   LogTable.confidence_text e (JStr t) = Ok "0.0%") /\
  (LogTable.ToNumber e (JStr t) = Ok LogTable.NotANumber ->
   LogTable.confidence_text e (JStr t) = Ok "NaN%").
Proof.
  intros Ht. apply String.eqb_neq in Ht.
  unfold LogTable.confidence_text. cbn [truthy LogTable.times100].
  rewrite Ht. cbn [negb].
  split; intros ->; reflexivity.
Qed.

(** C10. An entry whose confidence score is the number zero shows ['N/A']
    in the table cell and in the exported field, which are the same text,
    and not ['0.0%']. Whenever the cell has a text, it is ['N/A'] exactly
    for a falsy score; so a percentage with one decimal place is produced
    only for a score that is neither zero nor [null]. A number between 0
    and 1 always has a text, a percentage with one decimal place unless
    the number is zero. *)
Theorem C10_zero_confidence_shows_NA (e : LogTable.engine) (log score : value) :
  get log "confidence_score" = Ok score ->
  AccessLogs.export_confidence e log = LogTable.confidence_cell e log /\
  (Records.is_zero score ->
   LogTable.confidence_cell e log = Ok "N/A" /\
   LogTable.confidence_cell e log <> Ok "0.0%") /\
  (forall s, LogTable.confidence_cell e log = Ok s ->
             (s = "N/A" <-> truthy score = false)) /\
  (forall s, LogTable.confidence_cell e log = Ok s ->
             Records.percent_one_decimal s ->
             ~ Records.is_zero score /\ score <> JNull) /\
  (forall q, score = JNum q -> (0 <= q <= 1)%Q ->
             exists s, LogTable.confidence_cell e log = Ok s /\
                       (~ (q == 0)%Q -> Records.percent_one_decimal s)).
Proof.
  intros Hget. unfold AccessLogs.export_confidence, LogTable.confidence_cell.
  rewrite Hget. cbn [bind].
  assert (Hna : forall s, LogTable.confidence_text e score = Ok s ->
                          (s = "N/A" <-> truthy score = false)).
  { intros s H. destruct (truthy score) eqn:Et.
    - destruct (confidence_text_truthy e score s Et H) as [t ->].
      split; [intros Hs; now apply percent_is_not_NA in Hs | discriminate].
    - unfold LogTable.confidence_text in H. rewrite Et in H.
      injection H as <-. split; reflexivity. }
  split; [reflexivity |]. split; [| split; [exact Hna | split]].
  - intros Hz. apply is_zero_falsy in Hz. unfold LogTable.confidence_text.
    rewrite Hz. split; [reflexivity | discriminate].
  - intros s H (whole & d & Hs & _).
    assert (Ht : truthy score = true).
    { apply not_false_is_true. intros Et.
      apply (proj2 (Hna s H)) in Et. subst s.
      destruct whole as [| a [| b [| c [| c' whole]]]]; cbn [append] in Et;
        discriminate Et. }
    split.
    + intros Hz. apply is_zero_falsy in Hz. congruence.
    + intros ->. discriminate Ht.
  - intros q -> Hq. unfold LogTable.confidence_text.
    destruct (hundredfold_in_range q Hq) as [Hx Hsmall].
    destruct (truthy (JNum q)) eqn:Et.
    + cbn [LogTable.times100 bind]. rewrite Hx. eexists. split; [reflexivity |].
      intros _. now apply toFixed1_shape.
    + exists "N/A". split; [reflexivity |].
      intros Hq0. exfalso. apply Hq0. simpl in Et.
      apply negb_false_iff, Qeq_bool_iff in Et. exact Et.
Qed.

Lemma C10_zero_confidence_shows_NA_witness :
  AccessLogs.export_confidence Examples.numbers_only Examples.zero_confidence_log
  = LogTable.confidence_cell Examples.numbers_only Examples.zero_confidence_log /\
  LogTable.confidence_cell Examples.numbers_only Examples.zero_confidence_log
  = Ok "N/A".
Proof.
  destruct (C10_zero_confidence_shows_NA Examples.numbers_only
              Examples.zero_confidence_log (JNum 0) eq_refl)
    as (Hsame & Hzero & _).
  split; [exact Hsame |]. apply Hzero. exists 0%Q. split; reflexivity.
Defined.

(** *** The query string determines the parameters *)

Lemma read_char_encode_char (c : ascii) (rest : string) :
  Api.read_char (Api.encode_char c ++ rest) = Some (c, rest).
Proof.
  destruct c as [[] [] [] [] [] [] [] []]; reflexivity.
Qed.

Lemma read_char_ampersand (rest : string) :
  Api.read_char (String "&" rest) = None.
Proof. reflexivity. Qed.

Lemma encode_cons (c : ascii) (s rest : string) :
  Api.encode (String c s) ++ rest = Api.encode_char c ++ (Api.encode s ++ rest).
Proof. cbn [Api.encode]. apply append_assoc. Qed.

(** Two encoded values followed by [&] and equal as texts are encodings of
    the same value, and what follows is the same. *)
Lemma encode_until_ampersand (a : string) :
  forall b x y,
    Api.encode a ++ String "&" x = Api.encode b ++ String "&" y ->
    a = b /\ x = y.
Proof.
  induction a as [| c a IH]; intros [| c' b] x y H.
  - simpl in H. injection H as ->. auto.
  - rewrite encode_cons in H. apply (f_equal Api.read_char) in H.
    rewrite read_char_encode_char in H. discriminate H.
  - rewrite encode_cons in H. apply (f_equal Api.read_char) in H.
    rewrite read_char_encode_char in H. discriminate H.
  - rewrite !encode_cons in H. apply (f_equal Api.read_char) in H.
    rewrite !read_char_encode_char in H. injection H as -> H.
    destruct (IH _ _ _ H) as [-> ->]. auto.
Qed.

Lemma encode_injective (a : string) :
  forall b, Api.encode a = Api.encode b -> a = b.
Proof.
  intros b H.
  destruct (encode_until_ampersand a b "" "") as [Hab _]; [| exact Hab].
  now rewrite H.
Qed.

Lemma query_of_criteria (f : LogTable.FilterCriteria) :
  Api.access_logs_url (LogTable.entries f)
  = "/access/logs?search=" ++ Api.encode (LogTable.search f)
    ++ "&dateFrom=" ++ Api.encode (LogTable.dateFrom f)
    ++ "&dateTo=" ++ Api.encode (LogTable.dateTo f)
    ++ "&employeeId=" ++ Api.encode (LogTable.employeeId f)
    ++ "&cameraId=" ++ Api.encode (LogTable.cameraId f)
    ++ "&status=" ++ Api.encode (LogTable.status f).
Proof.
  unfold Api.access_logs_url, Api.query_string, LogTable.entries.
  cbn [map fst snd String.concat].
  change (Api.encode "search") with "search".
  change (Api.encode "dateFrom") with "dateFrom".
  change (Api.encode "dateTo") with "dateTo".
  change (Api.encode "employeeId") with "employeeId".
  change (Api.encode "cameraId") with "cameraId".
  change (Api.encode "status") with "status".
  rewrite !append_assoc. reflexivity.
Qed.

(** From [prefix ++ encode a ++ "&" ++ x = prefix ++ encode b ++ "&" ++ y],
    with the same literal [prefix] on both sides, the equality of [a] and
    [b], and the equation of what follows. *)
Ltac same_prefix H :=
  cbn [append] in H;
  repeat match type of H with
         | String ?c _ = String ?c _ => injection H as H
         end.

Ltac next_field H Hfield :=
  same_prefix H; apply encode_until_ampersand in H as [Hfield H].

Lemma url_determines_criteria (f1 f2 : LogTable.FilterCriteria) :
  Api.access_logs_url (LogTable.entries f1)
  = Api.access_logs_url (LogTable.entries f2) ->
  f1 = f2.
Proof.
  rewrite !query_of_criteria. intros H.
  next_field H H1. next_field H H2. next_field H H3.
  next_field H H4. next_field H H5.
  same_prefix H. apply encode_injective in H.
  destruct f1, f2; simpl in *; congruence.
Qed.

(** *** The page of the table *)

Lemma slice_length (l : list value) (start : Z) :
  (length (LogTable.slice l start (start + 10)) <= 10)%nat.
Proof.
  unfold LogTable.slice, LogTable.len.
  rewrite length_firstn.
  etransitivity; [apply Nat.le_min_l |].
  destruct (start <? 0)%Z eqn:E1, (start + 10 <? 0)%Z eqn:E2; lia.
Qed.

Lemma firstn_skipn_clipped (l : list value) (s : nat) :
  firstn (Nat.min 10 (length l - s)) (skipn (Nat.min s (length l)) l)
  = firstn 10 (skipn s l).
Proof.
  destruct (Nat.le_gt_cases s (length l)) as [Hin | Hout].
  - rewrite (Nat.min_l s) by exact Hin.
    rewrite <- (length_skipn s l), <- firstn_firstn.
    now rewrite firstn_all.
  - rewrite (Nat.min_r s) by lia.
    rewrite !skipn_all2 by lia. now rewrite !firstn_nil.
Qed.

Lemma slice_from (l : list value) (start : Z) :
  (0 <= start)%Z ->
  LogTable.slice l start (start + 10) = firstn 10 (skipn (Z.to_nat start) l).
Proof.
  intros H. unfold LogTable.slice, LogTable.len.
  destruct (start <? 0)%Z eqn:E1; [lia |].
  destruct (start + 10 <? 0)%Z eqn:E2; [lia |].
  rewrite <- firstn_skipn_clipped. f_equal; [| f_equal]; lia.
Qed.

Lemma slice_nil (start stop : Z) : LogTable.slice [] start stop = [].
Proof. unfold LogTable.slice. now rewrite skipn_nil, firstn_nil. Qed.

Lemma ceil_div_bounds (n : Z) :
  (0 <= n)%Z ->
  (10 * (LogTable.ceil_div n 10 - 1) < n <= 10 * LogTable.ceil_div n 10)%Z.
Proof.
  intros H. unfold LogTable.ceil_div.
  pose proof (Z.div_mod (- n) 10 ltac:(lia)).
  pose proof (Z.mod_pos_bound (- n) 10 ltac:(lia)). lia.
Qed.

(** The rows, on a page from 1 on: ten logs of the collection at most,
    after those of the pages before. *)
Lemma currentLogs_of_page (logs : value) (st : LogTable.state) :
  (1 <= LogTable.currentPage st)%Z ->
  LogTable.currentLogs logs st
  = firstn 10 (skipn (10 * Z.to_nat (LogTable.currentPage st - 1))
                     (LogTable.safeLogs logs)).
Proof.
  intros H. unfold LogTable.currentLogs, LogTable.endIndex, LogTable.startIndex,
              LogTable.itemsPerPage.
  rewrite slice_from by lia. do 2 f_equal. lia.
Qed.

(** *** C5: the page and the counts *)

(** C5, as the code has it. For every collection, criteria and page the
    table shows at most ten rows; they are a slice of the whole fetched
    collection and are the same whatever the criteria; the number of pages
    and the total in the footer count the whole collection, no predicate
    applied; and for an empty collection there are no pages, no rows and
    no footer. *)
Theorem C5_table_pages_the_whole_collection (logs : value)
    (st : LogTable.state) (criteria : LogTable.FilterCriteria) :
  let st' := {| LogTable.currentPage := LogTable.currentPage st;
                LogTable.filters := criteria |} in
  (length (LogTable.currentLogs logs st) <= 10)%nat /\
  LogTable.currentLogs logs st' = LogTable.currentLogs logs st /\
  LogTable.showing logs st' = LogTable.showing logs st /\
  (forall a b total, LogTable.showing logs st = Some (a, b, total) ->
                     total = Z.of_nat (length (LogTable.safeLogs logs))) /\
  (10 * (LogTable.totalPages logs - 1)
   < Z.of_nat (length (LogTable.safeLogs logs))
   <= 10 * LogTable.totalPages logs)%Z /\
  (LogTable.safeLogs logs = [] ->
   LogTable.totalPages logs = 0%Z /\ LogTable.currentLogs logs st = []
   /\ LogTable.showing logs st = None).
Proof.
  cbv zeta. split; [apply slice_length |]. split; [reflexivity |].
  split; [reflexivity |]. split; [| split].
  - intros a b total. unfold LogTable.showing.
    destruct (1 <? LogTable.totalPages logs)%Z; [| discriminate].
    intros H. injection H as _ _ <-. reflexivity.
  - apply ceil_div_bounds. lia.
  - intros Hempty.
    unfold LogTable.showing, LogTable.totalPages, LogTable.currentLogs.
    rewrite Hempty, slice_nil. repeat split.
Qed.

(** C5 fails as stated. With the criterion [status = "granted"] and eleven
    denied accesses, no entry satisfies the predicates, yet the table has
    two pages and its footer counts eleven results; and after two clicks
    on "next" over twenty-five logs the page is 3, where it stays when the
    collection becomes empty: the rows start at index 20, not at the first
    page. *)
Lemma C5_counterexample :
  let eleven := Examples.denied_logs 11 in
  let st := {| LogTable.currentPage := 1;
               LogTable.filters := Examples.granted_only |} in
  let many := Examples.denied_logs 25 in
  let st3 := LogTable.nextPage many (LogTable.nextPage many LogTable.initial) in
  FilterEngine.totalCount (LogTable.safeLogs eleven) Examples.granted_only = 0%Z /\
  FilterEngine.totalPages (LogTable.safeLogs eleven) Examples.granted_only = 0%Z /\
  LogTable.totalPages eleven = 2%Z /\
  LogTable.showing eleven st = Some (1, 10, 11)%Z /\
  LogTable.currentPage st3 = 3%Z /\
  LogTable.startIndex st3 = 20%Z /\
  FilterEngine.clamp (LogTable.currentPage st3)
                     (LogTable.totalPages (JArr [])) = 1%Z.
Proof. cbv zeta. repeat split. Qed.

(** *** C2: where the criteria go *)

(** A fetch function asks the server for its own path and nothing else. *)
Lemma call_depends_on_its_url (server server' : Api.backend)
    (clock : nat -> Z) (f : Api.fetch) :
  server (Api.url_of f) = server' (Api.url_of f) ->
  Api.call server clock f = Api.call server' clock f.
Proof.
  destruct f; intros H;
    unfold Api.call, Api.url_of, Api.access_logs_url in *;
    unfold Api.checkHealth, Api.getSystemStats, Api.getCameras,
           Api.getCameraStatus, Api.getCameraHealth, Api.getAccessLogs,
           Api.getEmployees, Api.api_get;
    cbv zeta; rewrite H; reflexivity.
Qed.

(** [getAccessLogs] asks the server for the path that carries its
    parameters, and for nothing else: a failure there is the rejection of
    the call, and an array answered there is what the call returns. *)
Lemma getAccessLogs_request (server : Api.backend) (clock : nat -> Z)
    (params : list (string * string)) :
  (forall cause, server (Api.access_logs_url params) = Api.Failure cause ->
                 Api.getAccessLogs server clock params = Throw (Rejected cause)) /\
  (forall xs, server (Api.access_logs_url params) = Api.Response (JArr xs) ->
              Api.getAccessLogs server clock params = Ok (JArr xs)) /\
  (forall server', server' (Api.access_logs_url params)
                   = server (Api.access_logs_url params) ->
                   Api.getAccessLogs server' clock params
                   = Api.getAccessLogs server clock params).
Proof.
  unfold Api.getAccessLogs, Api.api_get, Api.access_logs_url. cbv zeta.
  split; [| split].
  - intros cause ->. reflexivity.
  - intros xs ->. reflexivity.
  - intros server' ->. reflexivity.
Qed.

(** C2, as the code has it. For every filter criteria, a change of the
    filters sends them to the backend: the page asks the server for the
    path [/access/logs?search=...&status=...], whose query string carries
    the six criteria and determines them. The request is for that path and
    no other: what the page shows afterwards depends on the server's
    answer to it alone, a failure there is the failure the page reports,
    and an array answered there is the collection the page stores. The
    table applies no predicate: its rows are a slice of the collection it
    is given, the same whatever the criteria. *)
Theorem C2_criteria_are_sent_to_the_server (f1 f2 : LogTable.FilterCriteria) :
  Api.access_logs_url (LogTable.entries f1)
  = Api.access_logs_url (LogTable.entries f2) ->
  f1 = f2 /\
  Api.access_logs_url (LogTable.entries f1)
  = "/access/logs?search=" ++ Api.encode (LogTable.search f1)
    ++ "&dateFrom=" ++ Api.encode (LogTable.dateFrom f1)
    ++ "&dateTo=" ++ Api.encode (LogTable.dateTo f1)
    ++ "&employeeId=" ++ Api.encode (LogTable.employeeId f1)
    ++ "&cameraId=" ++ Api.encode (LogTable.cameraId f1)
    ++ "&status=" ++ Api.encode (LogTable.status f1) /\
  (forall server clock mock_clock key v page table,
      LogTable.with_key (LogTable.filters table) key v = f1 ->
      let after :=
        AccessLogs.change_filter server clock mock_clock key v page table in
      LogTable.filters (snd after) = f1 /\
      AccessLogs.filters (fst after) = LogTable.entries f1 /\
      (forall cause,
          server (Api.access_logs_url (LogTable.entries f1)) = Api.Failure cause ->
          Api.getAccessLogs server clock (LogTable.entries f1)
          = Throw (Rejected cause) /\
          AccessLogs.error (fst after) = Some "Failed to load access logs") /\
      (forall xs,
          server (Api.access_logs_url (LogTable.entries f1))
          = Api.Response (JArr xs) ->
          AccessLogs.logs (fst after) = JArr xs /\
          AccessLogs.error (fst after) = None) /\
      (forall server',
          server' (Api.access_logs_url (LogTable.entries f1))
          = server (Api.access_logs_url (LogTable.entries f1)) ->
          AccessLogs.change_filter server' clock mock_clock key v page table
          = after)) /\
  (forall logs page,
      LogTable.currentLogs logs {| LogTable.currentPage := page;
                                   LogTable.filters := f1 |}
      = LogTable.slice (LogTable.safeLogs logs)
                       ((page - 1) * 10) ((page - 1) * 10 + 10)).
Proof.
  intros H. split; [now apply url_determines_criteria |].
  split; [apply query_of_criteria |]. split; [| reflexivity].
  intros server clock mock_clock key v page table <-. cbv zeta.
  set (f := LogTable.with_key (LogTable.filters table) key v).
  destruct (getAccessLogs_request server clock (LogTable.entries f))
    as (Hfail & Harray & Hsame).
  unfold AccessLogs.change_filter, LogTable.handleFilterChange,
    AccessLogs.fetchLogs, AccessLogs.fetchLogs_start,
    AccessLogs.handleFilterChange.
  cbn [fst snd AccessLogs.filters LogTable.filters]. fold f.
  split; [reflexivity |]. split; [| split; [| split]].
  - destruct (Api.getAccessLogs server clock (LogTable.entries f));
      reflexivity.
  - intros cause Hcause. rewrite (Hfail cause Hcause).
    split; reflexivity.
  - intros xs Hxs. rewrite (Harray xs Hxs). split; reflexivity.
  - intros server' Hsrv. rewrite (Hsame server' Hsrv). reflexivity.
Qed.

Lemma C2_criteria_are_sent_to_the_server_witness :
  let clock := Examples.at_time Examples.first_failure in
  AccessLogs.error
    (fst (AccessLogs.change_filter Examples.down clock clock LogTable.KStatus
            "granted" AccessLogs.initial LogTable.initial))
  = Some "Failed to load access logs" /\
  LogTable.currentLogs (Examples.denied_logs 11)
    {| LogTable.currentPage := 2; LogTable.filters := Examples.granted_only |}
  = LogTable.slice (LogTable.safeLogs (Examples.denied_logs 11)) 10 20.
Proof.
  destruct (C2_criteria_are_sent_to_the_server Examples.granted_only
              Examples.granted_only eq_refl) as (_ & _ & Hpage & Hrows).
  split.
  - destruct (Hpage Examples.down (Examples.at_time Examples.first_failure)
                (Examples.at_time Examples.first_failure) LogTable.KStatus
                "granted" AccessLogs.initial LogTable.initial eq_refl)
      as (_ & _ & Hfail & _).
    exact (proj2 (Hfail Examples.network_error eq_refl)).
  - exact (Hrows (Examples.denied_logs 11) 2%Z).
Defined.

(** C2 fails as stated. The user asks for granted accesses only; the
    server ignores the query and answers with a denied access. The table
    shows that denied access, which satisfies none of the predicates, and
    the path the server was asked for carries the criterion. *)
Lemma C2_counterexample :
  let clock := Examples.at_time Examples.first_failure in
  let '(page, table) :=
    AccessLogs.change_filter Examples.echo clock clock LogTable.KStatus
      "granted" AccessLogs.initial LogTable.initial in
  LogTable.filters table = Examples.granted_only /\
  FilterEngine.matching (LogTable.safeLogs (AccessLogs.logs page))
                        (LogTable.filters table) = [] /\
  exists row,
    LogTable.currentLogs (AccessLogs.logs page) table = [row] /\
    get row "access_result" = Ok (JStr "denied") /\
    get row "requested"
    = Ok (JStr "/access/logs?search=&dateFrom=&dateTo=&employeeId=&cameraId=&status=granted").
Proof.
  cbv zeta. split; [reflexivity |]. split; [reflexivity |].
  eexists. split; [reflexivity |]. split; reflexivity.
Qed.

(** *** The dashboard after the clean-up of its effect *)

Lemma step_stopped (s : Dashboard.subscription) (e : Dashboard.event) :
  e <> Dashboard.Mount -> Dashboard.timer s = false ->
  Dashboard.timer (Dashboard.step s e) = false /\
  Dashboard.issued (Dashboard.step s e) = Dashboard.issued s /\
  (Dashboard.pending (Dashboard.step s e) <= Dashboard.pending s)%nat.
Proof.
  intros He Ht. destruct e; simpl.
  - contradiction.
  - rewrite Ht. repeat split; [exact Ht | lia].
  - destruct (Dashboard.pending s) eqn:Ep; simpl; rewrite ?Ep;
      repeat split; try exact Ht; lia.
  - repeat split; lia.
Qed.

Lemma run_stopped (es : list Dashboard.event) :
  Forall (fun e => e <> Dashboard.Mount) es ->
  forall s, Dashboard.timer s = false ->
    Dashboard.timer (Dashboard.run s es) = false /\
    Dashboard.issued (Dashboard.run s es) = Dashboard.issued s /\
    (Dashboard.pending (Dashboard.run s es) <= Dashboard.pending s)%nat.
Proof.
  induction 1 as [| e es He _ IH]; intros s Ht.
  - simpl. auto.
  - destruct (step_stopped s e He Ht) as (Ht' & Hi & Hp).
    destruct (IH _ Ht') as (Ht'' & Hi' & Hp').
    unfold Dashboard.run in *. simpl. repeat split; [assumption | | ]; lia.
Qed.

(** The clean-up of the effect clears the interval and nothing else. From
    then on, as long as the effect does not run again, no tick calls
    [fetchData], so no further request is issued and the number of pending
    ones only goes down. A fetch that was pending at the clean-up is not
    cancelled: when its response arrives, the rest of [fetchData] runs and
    hands its results to the state setters it holds. What becomes of a
    value handed to the setter of a component that is no longer mounted
    is decided by React, outside this development. *)
Lemma cleanup_clears_the_timer_only (s : Dashboard.subscription)
    (es : list Dashboard.event) :
  Forall (fun e => e <> Dashboard.Mount) es ->
  let stopped := Dashboard.step s Dashboard.Unmount in
  Dashboard.timer (Dashboard.run stopped es) = false /\
  Dashboard.issued (Dashboard.run stopped es) = Dashboard.issued s /\
  (Dashboard.pending (Dashboard.run stopped es) <= Dashboard.pending s)%nat /\
  Dashboard.step stopped Dashboard.Tick = stopped /\
  (forall server clock n,
      Dashboard.pending s = S n ->
      Dashboard.view (Dashboard.step stopped (Dashboard.Settle server clock))
      = Dashboard.fetchData_settle (Api.getSystemStats server)
                                   (Api.getCameras server) clock
                                   (Dashboard.view s)).
Proof.
  intros Hes stopped.
  destruct (run_stopped es Hes stopped eq_refl) as (Ht & Hi & Hp).
  repeat split; try assumption.
  intros server clock n Hn. simpl. rewrite Hn. reflexivity.
Qed.

(* ================================================================== *)
(** ** Further properties of the table, the gateway and the pages *)
(* ================================================================== *)

(** *** Paging *)

Lemma totalPages_nonneg (logs : value) : (0 <= LogTable.totalPages logs)%Z.
Proof.
  unfold LogTable.totalPages.
  pose proof (ceil_div_bounds (LogTable.len (LogTable.safeLogs logs))
                ltac:(unfold LogTable.len; lia)).
  unfold LogTable.itemsPerPage, LogTable.len in *. lia.
Qed.

Lemma act_keeps_page_in_range (logs : value) (st : LogTable.state)
    (a : LogTable.action) :
  (1 <= LogTable.currentPage st <= Z.max 1 (LogTable.totalPages logs))%Z ->
  (1 <= LogTable.currentPage (LogTable.act logs st a)
   <= Z.max 1 (LogTable.totalPages logs))%Z.
Proof.
  intros H. destruct a; simpl.
  - lia.
  - lia.
  - destruct ((1 <? LogTable.totalPages logs)%Z
              && negb (LogTable.currentPage st =? 1)%Z); simpl; lia.
  - destruct ((1 <? LogTable.totalPages logs)%Z
              && negb (LogTable.currentPage st =? LogTable.totalPages logs)%Z)
      eqn:E; simpl; [| lia].
    apply andb_true_iff in E as [E _]. apply Z.ltb_lt in E. lia.
Qed.

(** X1. Whatever the user does in the table over a given collection
    (changing or clearing filters, clicking the page buttons), the current
    page stays between 1 and the number of pages (1 when there is at most
    one page). *)
Theorem X1_page_stays_in_range (logs : value) (actions : list LogTable.action) :
  let st := fold_left (LogTable.act logs) actions LogTable.initial in
  (1 <= LogTable.currentPage st <= Z.max 1 (LogTable.totalPages logs))%Z.
Proof.
  cbv zeta.
  assert (H0 : (1 <= LogTable.currentPage LogTable.initial
                <= Z.max 1 (LogTable.totalPages logs))%Z) by (simpl; lia).
  revert H0. generalize LogTable.initial.
  induction actions as [| a rest IH]; intros st H; simpl.
  - exact H.
  - apply IH. now apply act_keeps_page_in_range.
Qed.

Lemma chunks_cover (n : nat) :
  forall l : list value,
    (length l <= 10 * n)%nat ->
    concat (map (fun i => firstn 10 (skipn (10 * i) l)) (seq 0 n)) = l.
Proof.
  induction n as [| n IH]; intros l Hl.
  - destruct l; [reflexivity | simpl in Hl; lia].
  - cbn [seq map concat]. rewrite <- seq_shift, map_map.
    replace (10 * 0)%nat with 0%nat by lia. cbn [skipn].
    transitivity (firstn 10 l ++ skipn 10 l)%list; [| apply firstn_skipn].
    f_equal.
    etransitivity;
      [| apply (IH (skipn 10 l)); rewrite length_skipn; lia].
    f_equal. apply map_ext. intros i.
    rewrite skipn_skipn. do 2 f_equal. lia.
Qed.

(** X2. The pages 1 to [totalPages] of the table, put one after the
    other, are the fetched collection: paging drops no log, repeats none
    and keeps the order. *)
Theorem X2_pages_partition_the_collection (logs : value) (st : LogTable.state) :
  concat (map (fun p => LogTable.currentLogs logs
                          (LogTable.on_page st (Z.of_nat p)))
              (seq 1 (Z.to_nat (LogTable.totalPages logs))))
  = LogTable.safeLogs logs.
Proof.
  rewrite <- seq_shift, map_map.
  etransitivity;
    [| apply (chunks_cover (Z.to_nat (LogTable.totalPages logs))
                (LogTable.safeLogs logs)) ].
  - f_equal. apply map_ext. intros i.
    rewrite currentLogs_of_page by (simpl; lia).
    simpl LogTable.currentPage. do 2 f_equal. lia.
  - pose proof (ceil_div_bounds (LogTable.len (LogTable.safeLogs logs))
                  ltac:(unfold LogTable.len; lia)) as H.
    unfold LogTable.totalPages, LogTable.itemsPerPage, LogTable.len in *. lia.
Qed.

Lemma currentLogs_length (logs : value) (st : LogTable.state) :
  (1 <= LogTable.currentPage st)%Z ->
  Z.of_nat (length (LogTable.currentLogs logs st))
  = Z.max 0 (Z.min 10 (Z.of_nat (length (LogTable.safeLogs logs))
                       - 10 * (LogTable.currentPage st - 1))).
Proof.
  intros H. rewrite currentLogs_of_page by exact H.
  rewrite length_firstn, length_skipn. lia.
Qed.

(** X3. On a page from 1 to [totalPages] the table has at least one row,
    and exactly ten on every page before the last; on a page after the
    last it has none. *)
Theorem X3_rows_per_page (logs : value) (st : LogTable.state) :
  (1 <= LogTable.currentPage st)%Z ->
  ((LogTable.currentPage st <= LogTable.totalPages logs)%Z ->
   (1 <= length (LogTable.currentLogs logs st))%nat) /\
  ((LogTable.currentPage st < LogTable.totalPages logs)%Z ->
   length (LogTable.currentLogs logs st) = 10%nat) /\
  ((LogTable.totalPages logs < LogTable.currentPage st)%Z ->
   LogTable.currentLogs logs st = []).
Proof.
  intros H.
  pose proof (currentLogs_length logs st H) as Hlen.
  pose proof (ceil_div_bounds (LogTable.len (LogTable.safeLogs logs))
                ltac:(unfold LogTable.len; lia)) as Hb.
  unfold LogTable.totalPages, LogTable.itemsPerPage, LogTable.len in *.
  repeat split; intros Hp; try lia.
  apply length_zero_iff_nil. lia.
Qed.

Lemma X3_rows_per_page_witness :
  length (LogTable.currentLogs (Examples.denied_logs 25)
            (LogTable.on_page LogTable.initial 2)) = 10%nat.
Proof.
  apply (X3_rows_per_page (Examples.denied_logs 25)
           (LogTable.on_page LogTable.initial 2)).
  - simpl. lia.
  - vm_compute. reflexivity.
Defined.

(** X4. When the footer is shown on a page from 1 to [totalPages], its
    text "Showing a to b of c results" agrees with the rows: the page has
    [b - a + 1] rows, and [1 <= a <= b <= c]. *)
Theorem X4_footer_agrees_with_rows (logs : value) (st : LogTable.state)
    (a b c : Z) :
  (1 <= LogTable.currentPage st <= LogTable.totalPages logs)%Z ->
  LogTable.showing logs st = Some (a, b, c) ->
  (Z.of_nat (length (LogTable.currentLogs logs st)) = b - a + 1
   /\ 1 <= a <= b /\ b <= c)%Z.
Proof.
  intros Hp Hs.
  pose proof (currentLogs_length logs st ltac:(lia)) as Hlen.
  pose proof (ceil_div_bounds (LogTable.len (LogTable.safeLogs logs))
                ltac:(unfold LogTable.len; lia)) as Hb.
  unfold LogTable.showing in Hs.
  destruct (1 <? LogTable.totalPages logs)%Z; [| discriminate].
  injection Hs as <- <- <-.
  unfold LogTable.endIndex, LogTable.startIndex, LogTable.totalPages,
         LogTable.itemsPerPage, LogTable.len in *.
  lia.
Qed.

Lemma X4_footer_agrees_with_rows_witness :
  (Z.of_nat (length (LogTable.currentLogs (Examples.denied_logs 25)
                       (LogTable.on_page LogTable.initial 3)))
   = 25 - 21 + 1 /\ 1 <= 21 <= 25 /\ 25 <= 25)%Z.
Proof.
  apply (X4_footer_agrees_with_rows (Examples.denied_logs 25)
           (LogTable.on_page LogTable.initial 3) 21 25 25).
  - vm_compute. split; discriminate.
  - reflexivity.
Defined.

(** *** The query string *)

(** Two encoded texts, each followed by something that is not the start of
    an encoded character (the end, [&] or [=]), are equal only if the
    texts and what follows are. *)
Lemma encode_split (a : string) :
  forall b t1 t2,
    Api.read_char t1 = None -> Api.read_char t2 = None ->
    Api.encode a ++ t1 = Api.encode b ++ t2 ->
    a = b /\ t1 = t2.
Proof.
  induction a as [| c a IH]; intros [| c' b] t1 t2 H1 H2 H.
  - simpl in H. auto.
  - rewrite encode_cons in H. simpl in H. rewrite H in H1.
    rewrite read_char_encode_char in H1. discriminate H1.
  - rewrite encode_cons in H. simpl in H. rewrite <- H in H2.
    rewrite read_char_encode_char in H2. discriminate H2.
  - rewrite !encode_cons in H. apply (f_equal Api.read_char) in H.
    rewrite !read_char_encode_char in H. injection H as -> H.
    destruct (IH _ _ _ H1 H2 H) as [-> ->]. auto.
Qed.

(** What follows the first parameter in a query string. *)
Lemma query_string_cons (k v : string) (rest : list (string * string)) :
  Api.query_string ((k, v) :: rest)
  = Api.encode k
    ++ String "=" (Api.encode v
                   ++ match rest with
                      | [] => ""
                      | _ :: _ => String "&" (Api.query_string rest)
                      end).
Proof.
  destruct rest as [| p rest];
    unfold Api.query_string; cbn [map String.concat fst snd].
  - cbn [append]. do 2 f_equal.
    induction (Api.encode v); simpl; congruence.
  - rewrite append_assoc. reflexivity.
Qed.

Lemma query_string_start (p : string * string) (rest : list (string * string)) :
  Api.query_string (p :: rest) <> "".
Proof.
  destruct p as [k v]. rewrite query_string_cons.
  destruct (Api.encode k); discriminate.
Qed.

(** X5. On parameters written with the characters below U+0100, which
    are the texts of this development, the query string determines the
    parameters: two lists of such parameters with the same query string
    are the same list, names, values and order. (Characters from U+0100 on
    are outside the model; the serialiser replaces a lone surrogate by
    U+FFFD, so the statement does not extend to every text.) *)
Theorem X5_query_string_injective (params : list (string * string)) :
  forall params',
    Api.query_string params = Api.query_string params' -> params = params'.
Proof.
  induction params as [| [k v] rest IH]; intros [| [k' v'] rest'] H.
  - reflexivity.
  - symmetry in H. now apply query_string_start in H.
  - now apply query_string_start in H.
  - rewrite !query_string_cons in H.
    apply encode_split in H as [-> H]; [| reflexivity | reflexivity].
    injection H as H.
    apply encode_split in H as [-> H];
      [| destruct rest; reflexivity | destruct rest'; reflexivity].
    destruct rest as [| p rest], rest' as [| p' rest']; try discriminate H.
    + reflexivity.
    + injection H as H. f_equal. now apply IH.
Qed.

Lemma X5_query_string_injective_witness :
  LogTable.entries Examples.granted_only = LogTable.entries Examples.granted_only.
Proof.
  apply (X5_query_string_injective (LogTable.entries Examples.granted_only)).
  reflexivity.
Defined.

Lemma count_char_append (c : ascii) (a b : string) :
  Records.count_char c (a ++ b)
  = (Records.count_char c a + Records.count_char c b)%nat.
Proof. induction a as [| x a IH]; simpl; [reflexivity | rewrite IH; lia]. Qed.

Lemma encode_char_no_separator (c : ascii) :
  Records.count_char "&" (Api.encode_char c) = 0%nat /\
  Records.count_char "=" (Api.encode_char c) = 0%nat /\
  Records.count_char "#" (Api.encode_char c) = 0%nat /\
  Records.count_char " " (Api.encode_char c) = 0%nat.
Proof.
  destruct c as [[] [] [] [] [] [] [] []]; repeat split.
Qed.

Lemma encode_no_separator (s : string) :
  Records.count_char "&" (Api.encode s) = 0%nat /\
  Records.count_char "=" (Api.encode s) = 0%nat /\
  Records.count_char "#" (Api.encode s) = 0%nat /\
  Records.count_char " " (Api.encode s) = 0%nat.
Proof.
  induction s as [| c s (H1 & H2 & H3 & H4)]; [repeat split |].
  cbn [Api.encode]. rewrite !count_char_append.
  destruct (encode_char_no_separator c) as (E1 & E2 & E3 & E4).
  rewrite H1, H2, H3, H4, E1, E2, E3, E4. repeat split.
Qed.

(** X6. No name and no value can add a parameter or cut the path short:
    whatever the texts are, the query string of [n] parameters contains
    exactly [n] signs [=], [n - 1] signs [&], and no [#] and no space. *)
Theorem X6_query_string_separators (params : list (string * string)) :
  Records.count_char "=" (Api.query_string params) = length params /\
  Records.count_char "&" (Api.query_string params) = (length params - 1)%nat /\
  Records.count_char "#" (Api.query_string params) = 0%nat /\
  Records.count_char " " (Api.query_string params) = 0%nat.
Proof.
  induction params as [| [k v] rest (H1 & H2 & H3 & H4)]; [repeat split |].
  rewrite query_string_cons.
  destruct (encode_no_separator k) as (K1 & K2 & K3 & K4).
  destruct (encode_no_separator v) as (V1 & V2 & V3 & V4).
  rewrite !count_char_append. cbn [Records.count_char].
  rewrite !count_char_append, K1, K2, K3, K4, V1, V2, V3, V4.
  destruct rest as [| p rest].
  - repeat split.
  - cbn [Records.count_char]. rewrite H1, H2, H3, H4.
    cbn [Ascii.eqb Bool.eqb length]. repeat split; simpl; lia.
Qed.

(** *** Normalising twice *)

Lemma set_prop_same (k : string) (v : value) (o : object) :
  lookup k o = Some v -> set_prop k v o = o.
Proof.
  induction o as [| [k0 v0] rest IH]; simpl; [discriminate |].
  destruct (k0 =? k); intros H.
  - injection H as ->. reflexivity.
  - now rewrite IH.
Qed.

Lemma assign_same (fields : list (string * value)) :
  forall o,
    (forall k v, In (k, v) fields -> lookup k o = Some v) ->
    assign o fields = o.
Proof.
  unfold assign.
  induction fields as [| [k v] rest IH]; intros o H; simpl; [reflexivity |].
  rewrite set_prop_same by (apply H; left; reflexivity).
  apply IH. intros k' v' Hin. apply H. right. exact Hin.
Qed.

Lemma or_truthy_left (a b : value) : truthy a = true -> or a b = a.
Proof. unfold or. now intros ->. Qed.

Lemma or_again (a b : value) : or (or a b) b = or a b.
Proof. unfold or. destruct (truthy a) eqn:Ea; [now rewrite Ea |]. now destruct (truthy b). Qed.

Lemma or_absorb (a b : value) : or a (or a b) = or a b.
Proof. unfold or. now destruct (truthy a). Qed.

Lemma or_keeps_truthy (a b c : value) :
  truthy b = true -> or (or a b) c = or a b.
Proof. intros H. unfold or at 1. now rewrite truthy_or. Qed.

Lemma or_alias_again (a b c : value) :
  or (or a (or (or a b) c)) c = or (or a b) c.
Proof.
  unfold or. destruct (truthy a) eqn:Ea; [now rewrite Ea |].
  destruct (truthy b) eqn:Eb; [now rewrite Eb |].
  destruct (truthy c) eqn:Ec; now rewrite ?Ec.
Qed.

Ltac same_fields :=
  let k := fresh "k" in
  let v := fresh "v" in
  let H := fresh "H" in
  intros k v H; cbn [In] in H;
  repeat (destruct H as [H | H];
          [injection H as <- <-; rewrite lookup_assign; reflexivity |]);
  contradiction.

(** X7. Normalising a camera again changes nothing: the record that
    [normalizeCamera] returns is normalised to itself, without an
    exception. *)
Theorem X7_normalizeCamera_idempotent (o : object) (r : value) :
  Api.normalizeCamera (JObj o) = Ok r -> Api.normalizeCamera r = Ok r.
Proof.
  intros H.
  apply normalizeCamera_inv in H as (name & location & Hn & Hl & ->).
  apply or_else_truthy in Hn; [| apply formatCameraName_truthy].
  apply or_else_truthy in Hl; [| apply getCameraLocation_truthy].
  rewrite normalizeCamera_object. rewrite !own_assign.
  cbn [Records.override fold_left fst snd String.eqb Ascii.eqb Bool.eqb
       from_option].
  unfold or_else. rewrite Hn, Hl. cbn [bind].
  change (from_option (lookup "person_count" o)) with (own o "person_count").
  change (from_option (lookup "last_frame_time" o)) with (own o "last_frame_time").
  rewrite or_alias_again, or_absorb, !or_again.
  do 2 f_equal. apply assign_same. same_fields.
Qed.

Lemma X7_normalizeCamera_idempotent_witness :
  exists r,
    Api.normalizeCamera (JObj Examples.shouting_camera) = Ok r /\
    Api.normalizeCamera r = Ok r.
Proof.
  eexists. split; [reflexivity |].
  apply (X7_normalizeCamera_idempotent Examples.shouting_camera). reflexivity.
Defined.

Lemma toISOString_nonempty (ms : Z) : truthy (JStr (JsDate.toISOString ms)) = true.
Proof.
  unfold JsDate.toISOString.
  destruct (JsDate.civil_from_days _) as [[y m] d].
  destruct (JsDate.year_string y); reflexivity.
Qed.

Lemma normalizeEmployee_object (now : Z) (o : object) :
  Api.normalizeEmployee now (JObj o) =
  Ok (JObj (assign o
    [ ("employee_id", or (own o "id") (own o "employee_id"));
      ("name", or (own o "name") (JStr "Unknown"));
      ("email", or (own o "email") (JStr ""));
      ("department", or (own o "department") (JStr ""));
      ("position", or (own o "position") (JStr ""));
      ("face_image", or (or (own o "face_snapshot") (own o "face_image")) (JStr ""));
      ("registered_date", or (own o "registered_date") (JStr (JsDate.toISOString now)));
      ("status", or (own o "status") (JStr "active")) ])).
Proof. reflexivity. Qed.

(** X8. Every employee record is normalised without an exception; the
    result has a [name], [email], [department], [position], [face_image],
    [registered_date] and [status] that are not [undefined]; and
    normalising it again, at any later time, changes nothing. *)
Theorem X8_normalizeEmployee_total_and_idempotent (now later : Z) (o : object) :
  exists r,
    Api.normalizeEmployee now (JObj o) = Ok r /\
    Forall (Records.defined r)
           [ "name"; "email"; "department"; "position"; "face_image";
             "registered_date"; "status" ] /\
    Api.normalizeEmployee later r = Ok r.
Proof.
  rewrite normalizeEmployee_object. eexists. split; [reflexivity |]. split.
  - repeat constructor; field_defined.
  - rewrite normalizeEmployee_object. rewrite !own_assign.
    cbn [Records.override fold_left fst snd String.eqb Ascii.eqb Bool.eqb
         from_option].
    change (from_option (lookup "id" o)) with (own o "id").
    change (from_option (lookup "face_snapshot" o)) with (own o "face_snapshot").
    rewrite or_alias_again, or_absorb, !or_again.
    rewrite (or_keeps_truthy _ _ _ (toISOString_nonempty now)).
    do 2 f_equal. apply assign_same. same_fields.
Qed.

(** X9. Normalising a log again keeps every field but [access_result],
    which takes the value of [access_type]: a log with a truthy raw
    [access_type] is normalised to itself, and a log without one loses
    its result to ['unknown'] on the second pass. *)
Theorem X9_normalizeLog_twice (now later : Z) (o : object) :
  exists r r',
    Api.normalizeLog now (JObj o) = Ok (JObj r) /\
    Api.normalizeLog later (JObj r) = Ok (JObj r') /\
    (forall k, k <> "access_result" -> lookup k r' = lookup k r) /\
    own r' "access_result" = own r "access_type" /\
    own r' "access_result" = or (own o "access_type") (JStr "unknown") /\
    (truthy (own o "access_type") = true -> r' = r).
Proof.
  rewrite normalizeLog_object. eexists. eexists. split; [reflexivity |].
  split.
  { rewrite normalizeLog_object. rewrite !own_assign.
    cbn [Records.override fold_left fst snd String.eqb Ascii.eqb Bool.eqb
         from_option].
    change (from_option (lookup "id" o)) with (own o "id").
    change (from_option (lookup "confidence" o)) with (own o "confidence").
    rewrite !or_absorb, !or_again.
    rewrite (or_keeps_truthy _ _ _ (toISOString_nonempty now)).
    rewrite (or_keeps_truthy (own o "access_type") (JStr "unknown"))
      by reflexivity.
    reflexivity. }
  split; [| split; [| split]].
  - intros k Hk. rewrite !lookup_assign.
    unfold Records.override. cbn [fold_left fst snd].
    repeat match goal with
           | |- context [String.eqb ?a k] =>
               destruct (String.eqb_spec a k); [subst k |]
           end; try reflexivity; congruence.
  - rewrite !own_assign. reflexivity.
  - rewrite !own_assign. reflexivity.
  - intros Ht. apply assign_same.
    rewrite !(or_truthy_left (own o "access_type") _ Ht).
    same_fields.
Qed.

(** *** Regular expressions: [test] decides [Matches] *)

Lemma append_empty_inv (s t : string) : s ++ t = "" -> s = "" /\ t = "".
Proof. destruct s; simpl; [auto | discriminate]. Qed.

Lemma seq_inv (a b : Regex.re) (w : string) :
  Regex.Matches (Regex.Seq a b) w ->
  exists s t, w = s ++ t /\ Regex.Matches a s /\ Regex.Matches b t.
Proof. intros H. inversion H; subst; eauto. Qed.

Lemma or_inv (a b : Regex.re) (w : string) :
  Regex.Matches (Regex.Or a b) w -> Regex.Matches a w \/ Regex.Matches b w.
Proof. intros H. inversion H; subst; auto. Qed.

Lemma class_inv (p : ascii -> bool) (w : string) :
  Regex.Matches (Regex.Class p) w -> exists c, w = String c "" /\ p c = true.
Proof. intros H. inversion H; subst; eauto. Qed.

Lemma nothing_inv (w : string) : ~ Regex.Matches Regex.Nothing w.
Proof. intros H. inversion H. Qed.

Lemma epsilon_inv (w : string) : Regex.Matches Regex.Epsilon w -> w = "".
Proof. intros H. now inversion H. Qed.

Lemma nullable_spec (r : Regex.re) :
  Regex.nullable r = true <-> Regex.Matches r "".
Proof.
  induction r as [| | p | a IHa b IHb | a IHa b IHb | a IHa]; simpl.
  - split; [discriminate | intros H; now apply nothing_inv in H].
  - split; [constructor | reflexivity].
  - split; [discriminate |].
    intros H. apply class_inv in H as (c & Hc & _). discriminate.
  - rewrite andb_true_iff, IHa, IHb. split.
    + intros [Ha Hb]. change "" with ("" ++ ""). now constructor.
    + intros H. apply seq_inv in H as (s & t & Heq & Hs & Ht).
      symmetry in Heq. apply append_empty_inv in Heq as [-> ->]. auto.
  - rewrite orb_true_iff, IHa, IHb. split.
    + intros [H | H]; [now apply Regex.MOrL | now apply Regex.MOrR].
    + apply or_inv.
  - split; [constructor | reflexivity].
Qed.

(** A repetition that matches a non-empty text starts with a non-empty
    match of its body. *)
Lemma star_first (a : Regex.re) (c : ascii) (s : string) :
  Regex.Matches (Regex.Star a) (String c s) ->
  exists s1 s2,
    s = s1 ++ s2 /\ Regex.Matches a (String c s1)
    /\ Regex.Matches (Regex.Star a) s2.
Proof.
  intros H. remember (Regex.Star a) as r eqn:Er.
  remember (String c s) as w eqn:Ew. revert s Ew.
  induction H as [| | | | | | a' u t Hu _ Ht IHt]; intros rest Ew;
    try discriminate.
  injection Er as ->. destruct u as [| x u].
  - simpl in Ew. now apply IHt.
  - simpl in Ew. injection Ew as -> <-. eauto.
Qed.

Lemma seq_deriv_first (a b : Regex.re) (c : ascii) (u : string) :
  (forall s, Regex.Matches (Regex.deriv c a) s -> Regex.Matches a (String c s)) ->
  Regex.Matches (Regex.Seq (Regex.deriv c a) b) u ->
  Regex.Matches (Regex.Seq a b) (String c u).
Proof.
  intros IHa H. apply seq_inv in H as (u1 & u2 & -> & H1 & H2).
  apply IHa in H1. change (String c (u1 ++ u2)) with (String c u1 ++ u2).
  now constructor.
Qed.

Lemma seq_cons_inv (a b : Regex.re) (c : ascii) (s : string) :
  Regex.Matches (Regex.Seq a b) (String c s) ->
  (exists u1 u2, s = u1 ++ u2 /\ Regex.Matches a (String c u1)
                 /\ Regex.Matches b u2)
  \/ (Regex.Matches a "" /\ Regex.Matches b (String c s)).
Proof.
  intros H. apply seq_inv in H as (u1 & u2 & Heq & H1 & H2).
  destruct u1 as [| x u1]; simpl in Heq.
  - subst u2. right. auto.
  - injection Heq as -> ->. left. eauto.
Qed.

Lemma deriv_spec (r : Regex.re) :
  forall c s, Regex.Matches (Regex.deriv c r) s <-> Regex.Matches r (String c s).
Proof.
  induction r as [| | p | a IHa b IHb | a IHa b IHb | a IHa]; intros c s; simpl.
  - split; intros H; now apply nothing_inv in H.
  - split; intros H; [now apply nothing_inv in H |].
    apply epsilon_inv in H. discriminate.
  - destruct (p c) eqn:Ep; split; intros H.
    + apply epsilon_inv in H as ->. now constructor.
    + apply class_inv in H as (x & Hx & _). injection Hx as -> ->. constructor.
    + now apply nothing_inv in H.
    + apply class_inv in H as (x & Hx & Hp). injection Hx as -> ->. congruence.
  - assert (Hback : Regex.Matches (Regex.Seq a b) (String c s) ->
                    Regex.Matches (Regex.Seq (Regex.deriv c a) b) s
                    \/ (Regex.Matches a "" /\ Regex.Matches (Regex.deriv c b) s)).
    { intros H. apply seq_cons_inv in H as [(u1 & u2 & -> & H1 & H2) | [H1 H2]].
      - left. constructor; [now apply IHa | exact H2].
      - right. split; [exact H1 | now apply IHb]. }
    destruct (Regex.nullable a) eqn:En; split; intros H.
    + apply or_inv in H as [H | H].
      * apply seq_deriv_first; [intros u; apply IHa | exact H].
      * change (String c s) with ("" ++ String c s).
        constructor; [now apply nullable_spec | now apply IHb].
    + destruct (Hback H) as [H1 | [_ H2]];
        [now apply Regex.MOrL | now apply Regex.MOrR].
    + apply seq_deriv_first; [intros u; apply IHa | exact H].
    + destruct (Hback H) as [H1 | [H1 _]]; [exact H1 |].
      apply nullable_spec in H1. congruence.
  - split; intros H.
    + apply or_inv in H as [H | H];
        [apply Regex.MOrL; now apply IHa | apply Regex.MOrR; now apply IHb].
    + apply or_inv in H as [H | H];
        [apply Regex.MOrL; now apply IHa | apply Regex.MOrR; now apply IHb].
  - split; intros H.
    + apply seq_inv in H as (u1 & u2 & -> & H1 & H2).
      apply IHa in H1. change (String c (u1 ++ u2)) with (String c u1 ++ u2).
      now constructor.
    + apply star_first in H as (s1 & s2 & -> & H1 & H2).
      constructor; [now apply IHa | exact H2].
Qed.

Lemma test_spec (s : string) :
  forall r, Regex.test r s = true <-> Regex.Matches r s.
Proof.
  induction s as [| c s IH]; intros r; simpl.
  - apply nullable_spec.
  - rewrite IH. apply deriv_spec.
Qed.

(** *** [isValidEmail] *)

Lemma star_class (p : ascii -> bool) (s : string) :
  Regex.Matches (Regex.Star (Regex.Class p)) s <-> Records.all_chars p s = true.
Proof.
  split.
  - intros H. remember (Regex.Star (Regex.Class p)) as r eqn:Er.
    induction H as [| | | | | | a u t Hu _ Ht IHt]; try discriminate.
    + reflexivity.
    + injection Er as ->. apply class_inv in Hu as (c & -> & Hc).
      simpl. rewrite Hc. now apply IHt.
  - induction s as [| c s IH]; simpl; intros H.
    + constructor.
    + apply andb_true_iff in H as [Hc Hs].
      change (String c s) with (String c "" ++ s).
      constructor; [now constructor | now apply IH].
Qed.

Lemma plus_class (p : ascii -> bool) (s : string) :
  Regex.Matches (Regex.Plus (Regex.Class p)) s
  <-> s <> "" /\ Records.all_chars p s = true.
Proof.
  unfold Regex.Plus. split.
  - intros H. apply seq_inv in H as (u & t & -> & Hu & Ht).
    apply class_inv in Hu as (c & -> & Hc). apply star_class in Ht.
    simpl. rewrite Hc, Ht. split; [discriminate | reflexivity].
  - intros [Hne H]. destruct s as [| c s]; [contradiction |].
    simpl in H. apply andb_true_iff in H as [Hc Hs].
    change (String c s) with (String c "" ++ s).
    constructor; [now constructor | now apply star_class].
Qed.

Lemma char_matches (c : ascii) (s : string) :
  Regex.Matches (Regex.Char c) s <-> s = String c "".
Proof.
  unfold Regex.Char. split.
  - intros H. apply class_inv in H as (x & -> & Hx).
    apply Ascii.eqb_eq in Hx. now subst.
  - intros ->. constructor. apply Ascii.eqb_refl.
Qed.

(** X10. [isValidEmail] accepts a text exactly when it reads
    [local@domain.top] with three non-empty parts free of white space and
    of [@] (the domain may contain further dots). On a text it never
    throws. *)
Theorem X10_isValidEmail_shape (s : string) :
  (exists verdict, Utils.isValidEmail (JStr s) = Ok verdict) /\
  (Utils.isValidEmail (JStr s) = Ok true <->
   exists local domain top,
     s = local ++ "@" ++ domain ++ "." ++ top /\
     Records.plain local /\ Records.plain domain /\ Records.plain top).
Proof.
  unfold Utils.isValidEmail. cbn [Utils.property_key bind].
  split; [eauto |].
  assert (Hok : Ok (Regex.test Utils.emailRegex s) = Ok true
                <-> Regex.Matches Utils.emailRegex s).
  { rewrite <- test_spec. split; [intros H; now injection H | now intros ->]. }
  rewrite Hok. unfold Utils.emailRegex, Records.plain. split.
  - intros H.
    apply seq_inv in H as (a & t1 & -> & Ha & H).
    apply seq_inv in H as (at_ & t2 & -> & Hat & H).
    apply seq_inv in H as (b & t3 & -> & Hb & H).
    apply seq_inv in H as (dot & c & -> & Hdot & Hc).
    apply char_matches in Hat as ->. apply char_matches in Hdot as ->.
    apply plus_class in Ha, Hb, Hc.
    exists a, b, c. auto.
  - intros (a & b & c & -> & Ha & Hb & Hc).
    apply plus_class in Ha, Hb, Hc.
    repeat (constructor; try assumption);
      now apply char_matches.
Qed.

(** *** [getStatusColor], [formatCameraName], [formatAccessType],
        [formatRelativeTime] *)

Lemma lower_char_idempotent (c : ascii) :
  Utils.lower_char (Utils.lower_char c) = Utils.lower_char c.
Proof. destruct c as [[] [] [] [] [] [] [] []]; reflexivity. Qed.

Lemma toLowerCase_idempotent (s : string) :
  Utils.toLowerCase (Utils.toLowerCase s) = Utils.toLowerCase s.
Proof.
  induction s as [| c s IH]; simpl; [reflexivity |].
  now rewrite lower_char_idempotent, IH.
Qed.

(** Every entry of the colour table is one of the five class lists. *)
Lemma statusColors_entries (k : string) (v : value) :
  lookup k Utils.statusColors = Some v ->
  exists classes, v = JStr classes /\ In classes Records.class_lists.
Proof.
  unfold Utils.statusColors, Records.class_lists. cbn [lookup].
  repeat match goal with
         | |- (if ?c then _ else _) = _ -> _ => destruct c
         end;
    intros H; try discriminate H; injection H as <-;
    eexists; (split; [reflexivity |]); cbn [In]; tauto.
Qed.

(** No member of [Object.prototype] is a key of the colour table. *)
Lemma statusColors_no_member (k : string) :
  Utils.mem_string k Utils.object_prototype_members = true ->
  lookup k Utils.statusColors = None.
Proof.
  unfold Utils.mem_string. intros H.
  apply existsb_exists in H as (m & Hin & Hm).
  apply String.eqb_eq in Hm. subst m.
  cbn [Utils.object_prototype_members In] in Hin.
  repeat (destruct Hin as [<- | Hin]; [reflexivity |]). contradiction.
Qed.

Lemma class_lists_truthy (classes : string) :
  In classes Records.class_lists -> truthy (JStr classes) = true.
Proof.
  cbn [Records.class_lists In].
  intros H. repeat (destruct H as [<- | H]; [reflexivity |]). contradiction.
Qed.

(** X11. [getStatusColor] never throws on a text, on [null] or on
    [undefined]; its result is truthy and does not depend on the letter
    case of the status. For a status whose small-letter form names no
    member of [Object.prototype] the result is one of the five class
    lists, the grey one when the table has no entry for it, as for [null]
    and [undefined]. For a status that names such a member (["constructor"]
    in any letter case, say) the result is that inherited member, not a
    class list. *)
Theorem X11_getStatusColor_total_and_case_blind (s : string) :
  exists colour,
    Utils.getStatusColor (JStr s) = Ok colour /\
    truthy colour = true /\
    Utils.getStatusColor (JStr (Utils.toLowerCase s)) = Ok colour /\
    (Utils.mem_string (Utils.toLowerCase s) Utils.object_prototype_members = false ->
     exists classes,
       colour = JStr classes /\ In classes Records.class_lists /\
       (lookup (Utils.toLowerCase s) Utils.statusColors = None ->
        classes = Utils.gray)) /\
    (Utils.mem_string (Utils.toLowerCase s) Utils.object_prototype_members = true ->
     colour = JNative (Utils.toLowerCase s)) /\
    Utils.getStatusColor JNull = Ok (JStr Utils.gray) /\
    Utils.getStatusColor JUndefined = Ok (JStr Utils.gray).
Proof.
  unfold Utils.getStatusColor.
  cbn [Utils.optional_toLowerCase Utils.property_key bind].
  eexists. split; [reflexivity |]. split; [| split; [| split; [| split]]].
  - apply truthy_or. reflexivity.
  - now rewrite toLowerCase_idempotent.
  - intros Hmem. unfold Utils.literal_get. rewrite Hmem.
    destruct (lookup (Utils.toLowerCase s) Utils.statusColors) as [v |] eqn:Ev.
    + destruct (statusColors_entries _ _ Ev) as (classes & -> & Hin).
      exists classes. split; [| split; [exact Hin | discriminate]].
      apply or_truthy_left. now apply class_lists_truthy.
    + exists Utils.gray. split; [reflexivity |]. split; [| reflexivity].
      cbn [Records.class_lists In]. tauto.
  - intros Hmem. unfold Utils.literal_get.
    rewrite (statusColors_no_member _ Hmem), Hmem. reflexivity.
  - split; reflexivity.
Qed.

Lemma capitalize_words_lower (s : string) :
  forall prev,
    Utils.toLowerCase (Utils.capitalize_words prev s) = Utils.toLowerCase s.
Proof.
  induction s as [| c s IH]; intros prev; simpl; [reflexivity |].
  rewrite IH. f_equal.
  destruct (Utils.is_word_char c && negb prev); [| reflexivity].
  destruct c as [[] [] [] [] [] [] [] []]; reflexivity.
Qed.

Lemma capitalize_words_head (s : string) (c : ascii) (rest : string) :
  Utils.capitalize_words false s = String c rest ->
  Utils.between 97 122 c = false.
Proof.
  destruct s as [| x s]; simpl; [discriminate |].
  rewrite andb_true_r. intros H. injection H as <- _.
  destruct x as [[] [] [] [] [] [] [] []]; reflexivity.
Qed.

(** X12. For a non-empty text, [formatCameraName] returns a text of the
    same length that differs from the identifier, its first underscore
    turned into a space, only in the case of letters, and that never
    starts with a small letter [a-z]. A missing or empty identifier gives
    ['Unknown Camera'], and a truthy identifier that is no text raises a
    [TypeError]. *)
Theorem X12_formatCameraName_changes_case_only (s : string) :
  s <> "" ->
  exists t,
    Utils.formatCameraName (JStr s) = Ok (JStr t) /\
    String.length t = String.length s /\
    Utils.toLowerCase t = Utils.toLowerCase (Utils.replace_first_underscore s) /\
    (forall c rest, t = String c rest -> Utils.between 97 122 c = false) /\
    Utils.formatCameraName (JStr "") = Ok (JStr "Unknown Camera") /\
    Utils.formatCameraName JUndefined = Ok (JStr "Unknown Camera") /\
    (forall q, ~ (q == 0)%Q ->
               exists msg, Utils.formatCameraName (JNum q) = Throw (TypeError msg)).
Proof.
  intros Hs. unfold Utils.formatCameraName.
  assert (Ht : truthy (JStr s) = true).
  { simpl. destruct (String.eqb_spec s ""); [contradiction | reflexivity]. }
  rewrite Ht. cbn [negb]. eexists. split; [reflexivity |].
  split; [| split; [| split; [| split; [| split]]]].
  - now rewrite capitalize_words_length, replace_first_underscore_length.
  - apply capitalize_words_lower.
  - intros c rest H. now apply capitalize_words_head in H.
  - reflexivity.
  - reflexivity.
  - intros q Hq. simpl. destruct (Qeq_bool q 0) eqn:E.
    + apply Qeq_bool_iff in E. contradiction.
    + simpl. eauto.
Qed.

Lemma X12_formatCameraName_changes_case_only_witness :
  exists t,
    Utils.formatCameraName (JStr "camera_1") = Ok (JStr t) /\
    String.length t = 8%nat.
Proof.
  destruct (X12_formatCameraName_changes_case_only "camera_1")
    as (t & H1 & H2 & _).
  - discriminate.
  - exists t. split; [exact H1 | exact H2].
Defined.

Lemma div_bounds (e k hi : Z) :
  (0 < k)%Z -> (k <= e < k * hi)%Z -> (1 <= e / k < hi)%Z.
Proof.
  intros Hk [Hlo Hhi]. split.
  - apply Z.div_le_lower_bound; lia.
  - apply Z.div_lt_upper_bound; lia.
Qed.

(** X13. For a timestamp that is not falsy and a valid date,
    [formatRelativeTime] says ['Just now'] for less than a minute ago,
    also for a date in the future; otherwise it counts whole minutes from
    1 to 59, whole hours from 1 to 23, or whole days from 1 on, always in
    the plural. A falsy timestamp gives ['N/A'] and an invalid date
    ['NaN days ago']. *)
Theorem X13_formatRelativeTime_buckets (now date : Z) (timestamp : value) :
  truthy timestamp = true ->
  let elapsed := ((now - date) / 1000)%Z in
  let text := Utils.formatRelativeTime now timestamp (Some date) in
  ((elapsed < 60)%Z -> text = "Just now") /\
  ((60 <= elapsed < 3600)%Z ->
   text = Utils.decimal (elapsed / 60) ++ " minutes ago"
   /\ (1 <= elapsed / 60 <= 59)%Z) /\
  ((3600 <= elapsed < 86400)%Z ->
   text = Utils.decimal (elapsed / 3600) ++ " hours ago"
   /\ (1 <= elapsed / 3600 <= 23)%Z) /\
  ((86400 <= elapsed)%Z ->
   text = Utils.decimal (elapsed / 86400) ++ " days ago"
   /\ (1 <= elapsed / 86400)%Z) /\
  Utils.formatRelativeTime now timestamp None = "NaN days ago" /\
  Utils.formatRelativeTime now JUndefined (Some date) = "N/A".
Proof.
  intros Ht elapsed text. subst text.
  unfold Utils.formatRelativeTime. rewrite Ht.
  cbn [negb option_map Utils.relative_text]. fold elapsed.
  repeat split; try (intros H).
  - destruct (Z.ltb_spec elapsed 60); [reflexivity | lia].
  - destruct (Z.ltb_spec elapsed 60); [lia |].
    destruct (Z.ltb_spec elapsed 3600); [reflexivity | lia].
  - apply (div_bounds elapsed 60 60); lia.
  - pose proof (div_bounds elapsed 60 60 ltac:(lia) ltac:(lia)). lia.
  - destruct (Z.ltb_spec elapsed 60); [lia |].
    destruct (Z.ltb_spec elapsed 3600); [lia |].
    destruct (Z.ltb_spec elapsed 86400); [reflexivity | lia].
  - apply (div_bounds elapsed 3600 24); lia.
  - pose proof (div_bounds elapsed 3600 24 ltac:(lia) ltac:(lia)). lia.
  - destruct (Z.ltb_spec elapsed 60); [lia |].
    destruct (Z.ltb_spec elapsed 3600); [lia |].
    destruct (Z.ltb_spec elapsed 86400); [lia | reflexivity].
  - apply Z.div_le_lower_bound; lia.
Qed.

Lemma X13_formatRelativeTime_buckets_witness :
  Utils.formatRelativeTime Examples.second_failure
    (JStr "2026-11-02T03:00:00.000Z") (Some Examples.first_failure)
  = "Just now".
Proof.
  apply (X13_formatRelativeTime_buckets Examples.second_failure
           Examples.first_failure (JStr "2026-11-02T03:00:00.000Z")).
  - reflexivity.
  - vm_compute. reflexivity.
Defined.

(** *** What the gateway hands to the pages *)

Lemma mapMi_normalizeLog (clock : nat -> Z) (xs : list value) :
  Forall Records.is_record xs ->
  forall i, exists ys,
    mapMi (fun i => Api.normalizeLog (clock i)) i xs = Ok ys /\
    length ys = length xs /\
    Forall (fun y => Forall (Records.defined y)
                       [ "timestamp"; "camera_id"; "person_id"; "access_type" ])
           ys.
Proof.
  induction 1 as [| x xs [o ->] _ IH]; intros i.
  - exists []. repeat split; constructor.
  - destruct (normalizeLog_fields (clock i) o) as (y & Hy & Hdef & _).
    destruct (IH (S i)) as (ys & Hys & Hlen & Hall).
    exists (y :: ys). cbn [mapMi]. rewrite Hy. cbn [bind]. rewrite Hys.
    repeat split; simpl; [congruence | now constructor].
Qed.

(** X14. When the body of the response carries, under [logs], an array of
    records, [getAccessLogs] returns, without an exception, an array of
    the same length in which every record has a [timestamp], a
    [camera_id], a [person_id] and an [access_type] that are not
    [undefined]. *)
Theorem X14_getAccessLogs_envelope (server : Api.backend) (clock : nat -> Z)
    (params : list (string * string)) (body : object) (xs : list value) :
  server (Api.access_logs_url params) = Api.Response (JObj body) ->
  lookup "logs" body = Some (JArr xs) ->
  Forall Records.is_record xs ->
  exists ys,
    Api.getAccessLogs server clock params = Ok (JArr ys) /\
    length ys = length xs /\
    Forall (fun y => Forall (Records.defined y)
                       [ "timestamp"; "camera_id"; "person_id"; "access_type" ])
           ys.
Proof.
  intros Hserver Hlogs Hxs.
  destruct (mapMi_normalizeLog clock xs Hxs 0%nat) as (ys & Hys & Hlen & Hall).
  exists ys. split; [| auto].
  unfold Api.getAccessLogs, Api.api_get. cbv zeta.
  fold (Api.access_logs_url params). rewrite Hserver.
  cbn [bind get]. unfold own. rewrite Hlogs.
  cbn [from_option truthy isArray andb elements]. rewrite Hys. reflexivity.
Qed.

Lemma X14_getAccessLogs_envelope_witness :
  exists ys,
    Api.getAccessLogs Examples.both_fields_server (Examples.at_time 0) []
    = Ok (JArr ys) /\ length ys = 1%nat.
Proof.
  destruct (X14_getAccessLogs_envelope Examples.both_fields_server
              (Examples.at_time 0) []
              [ ("logs", JArr [ JObj [ ("id", JNum 7);
                                       ("access_type", JStr "face_recognition");
                                       ("access_result", JStr "granted") ] ]) ]
              [ JObj [ ("id", JNum 7);
                       ("access_type", JStr "face_recognition");
                       ("access_result", JStr "granted") ] ])
    as (ys & H1 & H2 & _).
  - reflexivity.
  - reflexivity.
  - repeat constructor. eexists. reflexivity.
  - exists ys. split; [exact H1 | exact H2].
Defined.

Lemma list_result_is_array (m : result (list value)) (v : value) :
  (ys <- m ;; Ok (JArr ys)) = Ok v -> isArray v = true.
Proof.
  destruct m as [ys | e]; simpl; [| discriminate].
  intros H. injection H as <-. reflexivity.
Qed.

Lemma getAccessLogs_returns_array (server : Api.backend) (clock : nat -> Z)
    (params : list (string * string)) (v : value) :
  Api.getAccessLogs server clock params = Ok v -> isArray v = true.
Proof.
  unfold Api.getAccessLogs, Api.api_get. cbv zeta.
  destruct (server _) as [data | cause]; [| discriminate].
  cbn [bind]. destruct (get data "logs") as [logs | e]; [| discriminate].
  cbn [bind].
  destruct (truthy logs && isArray logs).
  - apply list_result_is_array.
  - destruct (isArray data) eqn:E; intros H; injection H as <-;
      [exact E | reflexivity].
Qed.

Lemma getEmployees_returns_array (server : Api.backend) (clock : nat -> Z)
    (v : value) :
  Api.getEmployees server clock = Ok v -> isArray v = true.
Proof.
  unfold Api.getEmployees, Api.api_get.
  destruct (server "/employees") as [data | cause]; [| discriminate].
  cbn [bind]. destruct (get data "employees") as [emps | e]; [| discriminate].
  cbn [bind].
  destruct (truthy emps && isArray emps).
  - apply list_result_is_array.
  - destruct (isArray data) eqn:E; intros H; injection H as <-;
      [exact E | reflexivity].
Qed.

(** X15. Whatever the server answers, [getAccessLogs] and [getEmployees]
    return an array whenever they return: the normalised list, a bare
    array of the body as it is, or the empty array for any other body. *)
Theorem X15_lists_are_arrays (server : Api.backend) (clock : nat -> Z)
    (params : list (string * string)) (v : value) :
  (Api.getAccessLogs server clock params = Ok v -> isArray v = true) /\
  (Api.getEmployees server clock = Ok v -> isArray v = true) /\
  (forall text, server (Api.access_logs_url params) = Api.Response (JStr text) ->
                Api.getAccessLogs server clock params = Ok (JArr [])) /\
  (forall xs, server (Api.access_logs_url params) = Api.Response (JArr xs) ->
              Api.getAccessLogs server clock params = Ok (JArr xs)).
Proof.
  split; [apply getAccessLogs_returns_array |].
  split; [apply getEmployees_returns_array |].
  unfold Api.getAccessLogs, Api.api_get. cbv zeta.
  fold (Api.access_logs_url params). split.
  - intros text ->. reflexivity.
  - intros xs ->. reflexivity.
Qed.

(** *** The page of the access logs *)

(** X16. Every run of [fetchLogs] ends with [loading] cleared, the filters
    untouched and an array in [logs]; the error message is absent exactly
    when [getAccessLogs] returned, and then [logs] is what it returned. *)
Theorem X16_fetchLogs_outcome (server : Api.backend)
    (norm_clock mock_clock : nat -> Z) (st : AccessLogs.state) :
  let st' := AccessLogs.fetchLogs server norm_clock mock_clock st in
  isArray (AccessLogs.logs st') = true /\
  AccessLogs.loading st' = false /\
  AccessLogs.filters st' = AccessLogs.filters st /\
  (AccessLogs.error st' = None <->
   Api.getAccessLogs server norm_clock (AccessLogs.filters st)
   = Ok (AccessLogs.logs st')).
Proof.
  cbv zeta. unfold AccessLogs.fetchLogs, AccessLogs.fetchLogs_start.
  cbn [AccessLogs.filters].
  destruct (Api.getAccessLogs server norm_clock (AccessLogs.filters st))
    as [v | e] eqn:E.
  - pose proof (getAccessLogs_returns_array server norm_clock
                  (AccessLogs.filters st) v E) as Harr.
    cbn [AccessLogs.fetchLogs_settle]. rewrite Harr. cbn.
    repeat split; auto.
  - cbn. repeat split; try reflexivity; discriminate.
Qed.

Lemma granted_or_denied (x : value) (g d : bool) :
  AccessLogs.is_granted x = Ok g -> AccessLogs.is_denied x = Ok d ->
  g && d = false.
Proof.
  unfold AccessLogs.is_granted, AccessLogs.is_denied.
  destruct (get x "access_result") as [r | e]; [| discriminate].
  cbn [bind]. intros Hg Hd. injection Hg as <-. injection Hd as <-.
  destruct r; try reflexivity. cbn [is_text].
  destruct (String.eqb_spec s "granted") as [-> |]; reflexivity.
Qed.

Lemma counters_disjoint (xs : list value) :
  forall ys zs,
    filterM AccessLogs.is_granted xs = Ok ys ->
    filterM AccessLogs.is_denied xs = Ok zs ->
    (length ys + length zs <= length xs)%nat.
Proof.
  induction xs as [| x xs IH]; intros ys zs Hg Hd; cbn [filterM] in Hg, Hd.
  - injection Hg as <-. injection Hd as <-. simpl. lia.
  - destruct (AccessLogs.is_granted x) as [g |] eqn:Eg; [| discriminate].
    destruct (AccessLogs.is_denied x) as [d |] eqn:Ed; [| discriminate].
    cbn [bind] in Hg, Hd.
    destruct (filterM AccessLogs.is_granted xs) as [ys' |]; [| discriminate].
    destruct (filterM AccessLogs.is_denied xs) as [zs' |]; [| discriminate].
    cbn [bind] in Hg, Hd. injection Hg as <-. injection Hd as <-.
    specialize (IH ys' zs' eq_refl eq_refl).
    pose proof (granted_or_denied x g d Eg Ed) as Hx.
    destruct g, d; try discriminate; simpl; lia.
Qed.

(** X17. The counters under the table never count a log twice: when both
    are computed, "Granted" and "Denied" together are at most "Total
    Logs". *)
Theorem X17_counters_within_total (logs : value) (granted denied : nat) :
  AccessLogs.grantedCount logs = Ok granted ->
  AccessLogs.deniedCount logs = Ok denied ->
  (granted + denied <= AccessLogs.totalLogs logs)%nat.
Proof.
  unfold AccessLogs.grantedCount, AccessLogs.deniedCount,
         AccessLogs.count_where, AccessLogs.totalLogs.
  destruct (isArray logs).
  - destruct (filterM AccessLogs.is_granted (elements logs)) as [ys |] eqn:Eg;
      [| discriminate].
    destruct (filterM AccessLogs.is_denied (elements logs)) as [zs |] eqn:Ed;
      [| discriminate].
    cbn [bind]. intros Hg Hd. injection Hg as <-. injection Hd as <-.
    now apply counters_disjoint.
  - intros Hg Hd. injection Hg as <-. injection Hd as <-. lia.
Qed.

Lemma X17_counters_within_total_witness :
  (3 + 2 <= AccessLogs.totalLogs
              (AccessLogs.mockLogs (Examples.at_time Examples.first_failure)))%nat.
Proof.
  apply (X17_counters_within_total
           (AccessLogs.mockLogs (Examples.at_time Examples.first_failure)) 3 2).
  - reflexivity.
  - reflexivity.
Defined.

(** *** The dashboard *)

Lemma fetchData_settle_array (stats cams : result value) (clock : nat -> Z)
    (st : Dashboard.state) :
  isArray (Dashboard.cameras (Dashboard.fetchData_settle stats cams clock st))
  = true /\
  Dashboard.loading (Dashboard.fetchData_settle stats cams clock st) = false.
Proof.
  unfold Dashboard.fetchData_settle.
  destruct stats as [s | e]; [| split; reflexivity].
  destruct cams as [c | e]; [| split; reflexivity].
  cbn [Dashboard.cameras Dashboard.loading]. split; [| reflexivity].
  destruct (isArray (Dashboard.optional_cameras c)) eqn:E1; [exact E1 |].
  destruct (isArray c) eqn:E2; [exact E2 | reflexivity].
Qed.

Lemma step_keeps_invariant (s : Dashboard.subscription) (e : Dashboard.event) :
  Dashboard.invariant s -> Dashboard.invariant (Dashboard.step s e).
Proof.
  intros (Hp & Ha & Hl). unfold Dashboard.invariant.
  destruct e as [| | server clock |]; cbn [Dashboard.step].
  - cbn. repeat split; [lia | exact Ha | discriminate].
  - destruct (Dashboard.timer s).
    + cbn. repeat split; [lia | exact Ha | discriminate].
    + repeat split; assumption.
  - destruct (Dashboard.pending s) as [| n] eqn:En.
    + rewrite En. repeat split; [lia | exact Ha | exact Hl].
    + cbn [Dashboard.pending Dashboard.issued Dashboard.view].
      destruct (fetchData_settle_array (Api.getSystemStats server)
                  (Api.getCameras server) clock (Dashboard.view s)) as [H1 H2].
      repeat split; [lia | exact H1 | auto].
  - cbn. repeat split; assumption.
Qed.

(** X18. Along every sequence of mounts, ticks, responses and unmounts of
    the dashboard, starting before the first mount: the [cameras] state is
    always an array; no more responses are awaited than requests were
    issued; and whenever no response is awaited any more after a first
    fetch, [loading] is off. *)
Theorem X18_dashboard_invariants (events : list Dashboard.event) :
  let s := Dashboard.run Dashboard.idle events in
  (Dashboard.pending s <= Dashboard.issued s)%nat /\
  isArray (Dashboard.cameras (Dashboard.view s)) = true /\
  (Dashboard.pending s = 0%nat ->
   Dashboard.issued s = 0%nat \/ Dashboard.loading (Dashboard.view s) = false).
Proof.
  cbv zeta. change (Dashboard.invariant (Dashboard.run Dashboard.idle events)).
  assert (H0 : Dashboard.invariant Dashboard.idle).
  { unfold Dashboard.invariant. cbn. auto. }
  revert H0. generalize Dashboard.idle. unfold Dashboard.run.
  induction events as [| e es IH]; intros s Hs; simpl; [exact Hs |].
  apply IH. now apply step_keeps_invariant.
Qed.

(** X19. While the interval is registered, every tick starts a fetch, also
    when earlier fetches are still awaited: after [n] ticks in a row, [n]
    more requests are issued and [n] more are pending. *)
Theorem X19_ticks_pile_up (s : Dashboard.subscription) (n : nat) :
  Dashboard.timer s = true ->
  let s' := Dashboard.run s (repeat Dashboard.Tick n) in
  Dashboard.issued s' = (Dashboard.issued s + n)%nat /\
  Dashboard.pending s' = (Dashboard.pending s + n)%nat /\
  Dashboard.timer s' = true.
Proof.
  cbv zeta. unfold Dashboard.run. revert s.
  induction n as [| n IH]; intros s Ht; simpl.
  - repeat split; auto.
  - rewrite Ht.
    destruct (IH (Dashboard.call_fetchData s) Ht) as (H1 & H2 & H3).
    rewrite H1, H2, H3. cbn. repeat split; lia.
Qed.

Lemma X19_ticks_pile_up_witness :
  Dashboard.pending
    (Dashboard.run Examples.mounted (repeat Dashboard.Tick 3)) = 4%nat.
Proof.
  destruct (X19_ticks_pile_up Examples.mounted 3 eq_refl) as (_ & H & _).
  exact H.
Defined.

Lemma round_percentage (g d : Q) :
  (0 < g)%Q -> (0 < d)%Q ->
  (0 <= Dashboard.round (g / (g + d) * 100) <= 100)%Z.
Proof.
  intros Hg Hd. unfold Dashboard.round.
  assert (Hsum : (0 < g + d)%Q).
  { apply Qlt_trans with g; [exact Hg |].
    rewrite <- (Qplus_0_r g) at 1. now apply Qplus_lt_r. }
  assert (Hlo : (0 <= g / (g + d))%Q).
  { apply Qle_shift_div_l; [exact Hsum |]. rewrite Qmult_0_l.
    now apply Qlt_le_weak. }
  assert (Hhi : (g / (g + d) <= 1)%Q).
  { apply Qle_shift_div_r; [exact Hsum |]. rewrite Qmult_1_l.
    rewrite <- (Qplus_0_r g) at 1. apply Qplus_le_r. now apply Qlt_le_weak. }
  split.
  - change 0%Z with (Qfloor 0). apply Qfloor_resp_le.
    apply Qle_trans with (0 * 100 + (1 # 2))%Q; [discriminate |].
    apply Qplus_le_l. apply Qmult_le_compat_r; [exact Hlo | discriminate].
  - change 100%Z with (Qfloor (1 * 100 + (1 # 2))). apply Qfloor_resp_le.
    apply Qplus_le_l. apply Qmult_le_compat_r; [exact Hhi | discriminate].
Qed.

(** X20. The success rate of the dashboard reads ['100%'] whenever one of
    the two counters is zero or missing; in particular when no access was
    granted and some were denied. When both counters are positive numbers
    it is a whole percentage between 0 and 100. *)
Theorem X20_success_rate (systemStats : value) :
  (truthy (Dashboard.optional_get systemStats "total_access_granted") = false
   \/ truthy (Dashboard.optional_get systemStats "total_access_denied") = false ->
   Dashboard.success_rate systemStats = Some "100%") /\
  (forall g d,
      Dashboard.optional_get systemStats "total_access_granted" = JNum g ->
      Dashboard.optional_get systemStats "total_access_denied" = JNum d ->
      (0 < g)%Q -> (0 < d)%Q ->
      exists n, Dashboard.success_rate systemStats
                = Some (Utils.decimal n ++ "%")
                /\ (0 <= n <= 100)%Z).
Proof.
  unfold Dashboard.success_rate. cbv zeta. split.
  - intros [H | H]; rewrite H; [reflexivity | now rewrite andb_false_r].
  - intros g d -> -> Hg Hd.
    assert (Hsum : (0 < g + d)%Q).
    { apply Qlt_trans with g; [exact Hg |].
      rewrite <- (Qplus_0_r g) at 1. now apply Qplus_lt_r. }
    assert (Tg : truthy (JNum g) = true).
    { simpl. destruct (Qeq_bool g 0) eqn:E; [| reflexivity].
      apply Qeq_bool_iff in E. rewrite E in Hg. discriminate Hg. }
    assert (Td : truthy (JNum d) = true).
    { simpl. destruct (Qeq_bool d 0) eqn:E; [| reflexivity].
      apply Qeq_bool_iff in E. rewrite E in Hd. discriminate Hd. }
    rewrite Tg, Td. cbn [andb].
    destruct (Qeq_bool (g + d) 0) eqn:E.
    { apply Qeq_bool_iff in E. rewrite E in Hsum. discriminate Hsum. }
    pose proof (round_percentage g d Hg Hd) as Hr.
    exists (Dashboard.round (g / (g + d) * 100)). split; [| exact Hr].
    unfold Dashboard.whole_text.
    destruct (Z.leb_spec (10 ^ 21) (Z.abs (Dashboard.round (g / (g + d) * 100))));
      [lia |].
    destruct (Z.ltb_spec (Dashboard.round (g / (g + d) * 100)) 0); [lia |].
    reflexivity.
Qed.

(** *** The camera health page *)

(** X21. Whenever [getHealthScore] gives a score, it is 0, 20, 60, 80 or
    100; it is 60 or more exactly when the status is the text ['online']
    as written, and 20 exactly when it is ['offline']; its colour is
    green from 80 on, yellow at 60, red below 40. A camera that is not
    ['online'] always gets a score, whatever its frame rate. *)
Theorem X21_health_score (camera : object) (score : Z) :
  CameraHealth.getHealthScore (JObj camera) = Ok (Some score) ->
  In score [ 0; 20; 60; 80; 100 ]%Z /\
  ((60 <= score)%Z <-> own camera "status" = JStr "online") /\
  (score = 20%Z <-> own camera "status" = JStr "offline") /\
  ((80 <= score)%Z <-> CameraHealth.getHealthColor score = "text-green-600") /\
  ((score < 40)%Z <-> CameraHealth.getHealthColor score = "text-red-600") /\
  (forall other : object,
      is_text (own other "status") "online" = false ->
      exists n, CameraHealth.getHealthScore (JObj other) = Ok (Some n)).
Proof.
  unfold CameraHealth.getHealthScore. cbn [get bind].
  intros H.
  assert (Htext : forall t, is_text (own camera "status") t = true
                            <-> own camera "status" = JStr t).
  { intros t. destruct (own camera "status"); cbn [is_text];
      try (split; [discriminate | intros E; discriminate E]).
    rewrite String.eqb_eq. split; [now intros -> | intros E; now injection E]. }
  assert (Hscore :
    (is_text (own camera "status") "online" = true
     /\ (score = 60 \/ score = 80 \/ score = 100)%Z)
    \/ (is_text (own camera "status") "online" = false
        /\ is_text (own camera "status") "offline" = true /\ score = 20%Z)
    \/ (is_text (own camera "status") "online" = false
        /\ is_text (own camera "status") "offline" = false /\ score = 0%Z)).
  { destruct (is_text (own camera "status") "online").
    - left. split; [reflexivity |].
      destruct (CameraHealth.greater (own camera "fps") 25) as [[] |];
        try discriminate; [injection H as <-; auto |].
      destruct (CameraHealth.greater (own camera "fps") 15) as [[] |];
        try discriminate; injection H as <-; auto.
    - right. destruct (is_text (own camera "status") "offline");
        injection H as <-; auto. }
  assert (Hboth : is_text (own camera "status") "online" = true ->
                  is_text (own camera "status") "offline" = true -> False).
  { intros H1 H2. apply Htext in H1, H2. congruence. }
  split; [| split; [| split; [| split; [| split]]]].
  - simpl. intuition auto.
  - rewrite <- Htext.
    destruct Hscore as [[E H1] | [(E & _ & ->) | (E & _ & ->)]];
      rewrite E; split; try discriminate; try lia; auto.
  - rewrite <- Htext.
    destruct Hscore as [[E H1] | [(E & E' & ->) | (E & E' & ->)]];
      rewrite ?E'; split; try discriminate; try lia; auto.
    intros H2. exfalso. now apply Hboth.
  - unfold CameraHealth.getHealthColor.
    destruct (Z.leb_spec 80 score); [split; auto |].
    split; [lia |].
    destruct (60 <=? score)%Z; [discriminate |].
    destruct (40 <=? score)%Z; discriminate.
  - unfold CameraHealth.getHealthColor.
    destruct (Z.leb_spec 80 score); [split; [lia | discriminate] |].
    destruct (Z.leb_spec 60 score); [split; [lia | discriminate] |].
    destruct (Z.leb_spec 40 score); [split; [lia | discriminate] |].
    split; auto.
  - intros other Hother. rewrite Hother.
    destruct (is_text (own other "status") "offline"); eauto.
Qed.

Lemma X21_health_score_witness :
  In 100%Z [ 0; 20; 60; 80; 100 ]%Z /\
  ((60 <= 100)%Z <-> own Examples.fast_camera "status" = JStr "online").
Proof.
  destruct (X21_health_score Examples.fast_camera 100 eq_refl) as (H1 & H2 & _).
  split; [exact H1 | exact H2].
Defined.

(** X22. A camera whose status is ["online"] in another letter case than
    the small one (as [normalizeCamera] leaves it) is shown with the icon
    and the colours of an online camera, yet it is not counted among the
    online cameras and its health score is 0, in red. *)
Theorem X22_online_in_capitals (camera : object) (s : string) :
  own camera "status" = JStr s ->
  Records.any_case_online s -> s <> "online" ->
  CameraHealth.getStatusIcon (JStr s) = Ok "CheckCircle" /\
  CameraHealth.getStatusColor (JStr s) = Ok Utils.green /\
  CameraHealth.count_status "online" [ JObj camera ] = Ok 0%nat /\
  CameraHealth.getHealthScore (JObj camera) = Ok (Some 0%Z) /\
  CameraHealth.getHealthColor 0 = "text-red-600".
Proof.
  intros Hstatus Hcase Hs. unfold Records.any_case_online in Hcase.
  assert (Hon : (s =? "online") = false) by now apply String.eqb_neq.
  assert (Hoff : (s =? "offline") = false).
  { apply String.eqb_neq. intros ->. discriminate Hcase. }
  unfold CameraHealth.getStatusIcon, CameraHealth.getStatusColor,
         CameraHealth.count_status, CameraHealth.getHealthScore.
  cbn [Utils.optional_toLowerCase bind get filterM].
  rewrite Hcase, Hstatus. cbn [is_text]. rewrite Hon, Hoff.
  repeat split.
Qed.

Lemma X22_online_in_capitals_witness :
  CameraHealth.getStatusIcon (JStr "ONLINE") = Ok "CheckCircle" /\
  CameraHealth.getStatusColor (JStr "ONLINE") = Ok Utils.green /\
  CameraHealth.count_status "online" [ JObj Examples.shouting_camera ] = Ok 0%nat /\
  CameraHealth.getHealthScore (JObj Examples.shouting_camera) = Ok (Some 0%Z) /\
  CameraHealth.getHealthColor 0 = "text-red-600".
Proof.
  apply (X22_online_in_capitals Examples.shouting_camera "ONLINE").
  - reflexivity.
  - reflexivity.
  - discriminate.
Defined.

(** *** The live feed *)

Lemma slice_first_nine (l : list value) : LogTable.slice l 0 9 = firstn 9 l.
Proof.
  unfold LogTable.slice, LogTable.len. cbn [Z.ltb Z.compare].
  replace (Z.min 0 (Z.of_nat (length l))) with 0%Z by lia.
  cbn [Z.to_nat skipn].
  destruct (Nat.le_gt_cases (length l) 9).
  - rewrite !firstn_all2 by lia. reflexivity.
  - f_equal. lia.
Qed.

Lemma firstn_app_firstn (n : nat) (a b : list value) :
  firstn n (a ++ firstn n b)%list = firstn n (a ++ b)%list.
Proof.
  rewrite !firstn_app, firstn_firstn. do 2 f_equal. lia.
Qed.

Lemma push_logs (pushes : list value) :
  forall start,
    (length start <= 10)%nat ->
    fold_left (fun logs newLog => LiveFeed.push_log newLog logs) pushes start
    = firstn 10 (rev pushes ++ start)%list.
Proof.
  induction pushes as [| p rest IH]; intros start Hstart.
  - cbn [fold_left rev app]. now rewrite firstn_all2.
  - cbn [fold_left].
    change (LiveFeed.push_log p start) with (p :: LogTable.slice start 0 9).
    rewrite slice_first_nine.
    rewrite IH by (cbn [length]; rewrite length_firstn; lia).
    change (p :: firstn 9 start) with (firstn 10 (p :: start)).
    rewrite firstn_app_firstn. cbn [rev]. now rewrite <- app_assoc.
Qed.

(** X23. The live logs never grow beyond ten entries: starting from at
    most ten, after any number of new logs the list holds the ten most
    recent entries, the newest first. *)
Theorem X23_live_logs_keep_the_last_ten (start pushes : list value) :
  (length start <= 10)%nat ->
  let logs := fold_left (fun logs newLog => LiveFeed.push_log newLog logs)
                        pushes start in
  logs = firstn 10 (rev pushes ++ start)%list /\
  (length logs <= 10)%nat /\
  length logs = Nat.min 10 (length pushes + length start).
Proof.
  intros Hstart. cbv zeta. rewrite push_logs by exact Hstart.
  split; [reflexivity |].
  rewrite length_firstn, length_app, length_rev. lia.
Qed.

Lemma X23_live_logs_keep_the_last_ten_witness :
  length (fold_left (fun logs newLog => LiveFeed.push_log newLog logs)
                    (repeat JNull 12) Examples.three_logs) = 10%nat.
Proof.
  destruct (X23_live_logs_keep_the_last_ten Examples.three_logs
              (repeat JNull 12)) as (_ & _ & H).
  - simpl. lia.
  - exact H.
Defined.

Lemma getCameras_of_object (server : Api.backend) (body : object) (v : value) :
  server "/cameras" = Api.Response (JObj body) ->
  Api.getCameras server = Ok v -> exists o, v = JObj o.
Proof.
  intros Hserver. unfold Api.getCameras, Api.api_get. rewrite Hserver.
  cbn [bind get].
  destruct (truthy (own body "cameras") && typeof_object (own body "cameras")).
  - destruct (mapM _ _) as [out | e]; cbn [bind]; [| discriminate].
    intros H. injection H as <-. eauto.
  - intros H. injection H as <-. eauto.
Qed.

Lemma find_in_mock (cameraId : string) :
  LiveFeed.find_by_id cameraId LiveFeed.mockCameras
  = Ok (if "camera_1" =? cameraId then nth 0 LiveFeed.mockCameras JUndefined
        else if "camera_2" =? cameraId then nth 1 LiveFeed.mockCameras JUndefined
        else JUndefined).
Proof.
  unfold LiveFeed.mockCameras. cbn [LiveFeed.find_by_id get bind nth].
  change (own [ ("id", JStr "camera_1"); ("name", JStr "Main Entrance");
                ("status", JStr "online"); ("location", JStr "Main Entrance") ]
              "id") with (JStr "camera_1").
  change (own [ ("id", JStr "camera_2"); ("name", JStr "Office Floor");
                ("status", JStr "online"); ("location", JStr "Office Floor") ]
              "id") with (JStr "camera_2").
  cbn [is_text].
  destruct ("camera_1" =? cameraId); [reflexivity |].
  destruct ("camera_2" =? cameraId); reflexivity.
Qed.

(** X24. When the server answers [/cameras] with an object, be it the
    envelope that [getCameras] normalises, the live feed never shows its
    cameras: the result has no [find] method, so the page ends with its
    two fallback cameras, one of them selected, and the message
    ['Failed to load cameras']. *)
Theorem X24_live_feed_rejects_the_envelope (server : Api.backend)
    (body : object) (cameraId : string) :
  server "/cameras" = Api.Response (JObj body) ->
  LiveFeed.fetchCameras server cameraId = LiveFeed.degraded cameraId /\
  LiveFeed.cameras (LiveFeed.degraded cameraId) = JArr LiveFeed.mockCameras /\
  In (LiveFeed.selectedCamera (LiveFeed.degraded cameraId)) LiveFeed.mockCameras /\
  LiveFeed.error (LiveFeed.degraded cameraId) = Some "Failed to load cameras".
Proof.
  intros Hserver. split; [| split; [reflexivity | split; [| reflexivity]]].
  - unfold LiveFeed.fetchCameras, LiveFeed.fetchCameras_settle.
    destruct (Api.getCameras server) as [v | e] eqn:E; [| reflexivity].
    destruct (getCameras_of_object server body v Hserver E) as [o ->].
    reflexivity.
  - unfold LiveFeed.degraded. cbn [LiveFeed.selectedCamera].
    rewrite find_in_mock.
    destruct ("camera_1" =? cameraId); [left; reflexivity |].
    destruct ("camera_2" =? cameraId); [right; left; reflexivity |].
    left. reflexivity.
Qed.

Lemma X24_live_feed_rejects_the_envelope_witness :
  LiveFeed.fetchCameras (Examples.map_of Examples.two_cameras) "camera_2"
  = LiveFeed.degraded "camera_2".
Proof.
  apply (X24_live_feed_rejects_the_envelope
           (Examples.map_of Examples.two_cameras)
           [ ("cameras", JObj Examples.two_cameras) ] "camera_2").
  reflexivity.
Defined.

(** *** The search of the employees page *)

Lemma filterM_filter (f : value -> result bool) (xs : list value) :
  forall kept,
    filterM f xs = Ok kept ->
    kept = filter (fun x => match f x with Ok true => true | _ => false end) xs.
Proof.
  induction xs as [| x xs IH]; intros kept H; cbn [filterM filter] in *.
  - now injection H.
  - destruct (f x) as [keep | e]; [| discriminate]. cbn [bind] in H.
    destruct (filterM f xs) as [ys | e]; [| discriminate]. cbn [bind] in H.
    injection H as <-. rewrite (IH ys eq_refl). now destruct keep.
Qed.

Lemma filterM_ext (f g : value -> result bool) (xs : list value) :
  (forall x, f x = g x) -> filterM f xs = filterM g xs.
Proof.
  intros H. induction xs as [| x xs IH]; cbn [filterM]; [reflexivity |].
  now rewrite H, IH.
Qed.

Lemma matches_lower (term : string) (employee : value) :
  Employees.matches (Utils.toLowerCase term) employee
  = Employees.matches term employee.
Proof.
  unfold Employees.matches, Employees.field_includes.
  now rewrite toLowerCase_idempotent.
Qed.

(** X25. The search of the employees page only selects: whenever it
    returns, its result is the list of the employees that pass the three
    tests, in their order, so it is never longer than the list; and the
    letter case of the search term makes no difference. *)
Theorem X25_search_selects (employees : list value) (term : string)
    (kept : list value) :
  Employees.filteredEmployees employees term = Ok kept ->
  kept = filter (Employees.keeps term) employees /\
  (length kept <= length employees)%nat /\
  Employees.filteredEmployees employees (Utils.toLowerCase term) = Ok kept.
Proof.
  unfold Employees.filteredEmployees. intros H.
  pose proof (filterM_filter _ _ _ H) as Hk.
  split; [exact Hk |]. split.
  - rewrite Hk. apply filter_length_le.
  - rewrite <- H. apply filterM_ext. intros x. apply matches_lower.
Qed.

Lemma X25_search_selects_witness :
  [ JObj Examples.john ] = filter (Employees.keeps "DOE") [ JObj Examples.john ].
Proof.
  apply (X25_search_selects [ JObj Examples.john ] "DOE" [ JObj Examples.john ]).
  reflexivity.
Defined.

Lemma includes_empty (s : string) : includes s "" = true.
Proof. destruct s; reflexivity. Qed.

(** X26. With an empty search term every employee is shown, provided each
    one has a text as its name; the other two fields are then not even
    read. An employee whose name is no text makes the search throw a
    [TypeError], whatever the term. *)
Theorem X26_empty_search_shows_everyone (employees : list value) :
  Forall Employees.named employees ->
  Employees.filteredEmployees employees "" = Ok employees /\
  (forall o rest term,
      (forall name, own o "name" <> JStr name) ->
      exists msg,
        Employees.filteredEmployees (JObj o :: rest) term = Throw (TypeError msg)).
Proof.
  intros H. split.
  - unfold Employees.filteredEmployees.
    induction H as [| x xs (o & name & -> & Hname) _ IH]; [reflexivity |].
    cbn [filterM]. unfold Employees.matches at 1, Employees.field_includes.
    cbn [get bind]. rewrite Hname. cbn [Employees.lower_of bind Utils.toLowerCase].
    rewrite includes_empty. cbn [bind]. rewrite IH. reflexivity.
  - intros o rest term Hname. unfold Employees.filteredEmployees.
    cbn [filterM]. unfold Employees.matches at 1, Employees.field_includes.
    cbn [get bind].
    destruct (own o "name") eqn:E; cbn [Employees.lower_of bind]; eauto.
    exfalso. now apply (Hname s).
Qed.

Lemma X26_empty_search_shows_everyone_witness :
  Employees.filteredEmployees [ JObj Examples.john ] "" = Ok [ JObj Examples.john ].
Proof.
  apply (X26_empty_search_shows_everyone [ JObj Examples.john ]).
  repeat constructor. eexists. eexists. split; reflexivity.
Defined.

(** X27. An employee that the server sends with a numeric [id] is
    normalised to a record whose [employee_id] is that number, because
    [id] comes before [employee_id]; searching then for a term that its
    name does not contain reads [employee_id.toLowerCase] and throws a
    [TypeError]. *)
Theorem X27_numeric_id_breaks_the_search (now : Z) (o : object) (q : Q)
    (name term : string) :
  own o "id" = JNum q -> ~ (q == 0)%Q ->
  own o "name" = JStr name -> name <> "" ->
  includes (Utils.toLowerCase name) (Utils.toLowerCase term) = false ->
  exists r msg,
    Api.normalizeEmployee now (JObj o) = Ok r /\
    get r "employee_id" = Ok (JNum q) /\
    Employees.filteredEmployees [ r ] term = Throw (TypeError msg).
Proof.
  intros Hid Hq Hname Hne Hinc.
  assert (Tq : truthy (JNum q) = true).
  { simpl. destruct (Qeq_bool q 0) eqn:E; [| reflexivity].
    apply Qeq_bool_iff in E. contradiction. }
  assert (Tn : truthy (JStr name) = true).
  { simpl. destruct (String.eqb_spec name ""); [contradiction | reflexivity]. }
  rewrite normalizeEmployee_object. eexists. eexists.
  split; [reflexivity |].
  cbn [get]. rewrite own_assign.
  cbn [Records.override fold_left fst snd String.eqb Ascii.eqb Bool.eqb
       from_option].
  rewrite Hid, (or_truthy_left _ _ Tq). split; [reflexivity |].
  unfold Employees.filteredEmployees. cbn [filterM].
  unfold Employees.matches, Employees.field_includes. cbn [get].
  rewrite !own_assign.
  cbn [Records.override fold_left fst snd String.eqb Ascii.eqb Bool.eqb
       from_option].
  rewrite ?Hid, ?Hname, ?(or_truthy_left _ _ Tq), ?(or_truthy_left _ _ Tn).
  cbn [bind Employees.lower_of]. rewrite Hinc. cbn [bind Employees.lower_of].
  reflexivity.
Qed.

Lemma X27_numeric_id_breaks_the_search_witness :
  exists r msg,
    Api.normalizeEmployee 0 (JObj Examples.john) = Ok r /\
    get r "employee_id" = Ok (JNum 1) /\
    Employees.filteredEmployees [ r ] "EMP001" = Throw (TypeError msg).
Proof.
  apply (X27_numeric_id_breaks_the_search 0 Examples.john 1 "John Doe" "EMP001").
  - reflexivity.
  - discriminate.
  - reflexivity.
  - discriminate.
  - reflexivity.
Defined.

(** *** Cells and cards fed by the normalisers *)

(** X28. For a log whose raw [access_type] is a text or is missing, the
    "Access Type" cell of the normalised log is never empty:
    [formatAccessType] returns, without an exception, a truthy value,
    which is ['unknown'] when the type is missing or empty. *)
Theorem X28_access_type_cell (now : Z) (o : object) :
  Records.text_or_missing (own o "access_type") ->
  exists r access_type cell,
    Api.normalizeLog now (JObj o) = Ok r /\
    get r "access_type" = Ok access_type /\
    Utils.formatAccessType access_type = Ok cell /\
    truthy cell = true /\
    (truthy (own o "access_type") = false -> cell = JStr "unknown").
Proof.
  intros Htext.
  assert (Hshape : exists s, or (own o "access_type") (JStr "unknown") = JStr s
                             /\ s <> "").
  { unfold or. destruct (own o "access_type") eqn:E; try contradiction.
    - cbn [truthy]. eexists. split; [reflexivity | discriminate].
    - cbn [truthy]. destruct (String.eqb_spec s ""); cbn [negb].
      + eexists. split; [reflexivity | discriminate].
      + eauto. }
  destruct Hshape as (s & Hs & Hne).
  assert (Ts : truthy (JStr s) = true).
  { simpl. destruct (String.eqb_spec s ""); [contradiction | reflexivity]. }
  rewrite normalizeLog_object.
  eexists. exists (JStr s).
  exists (or (Utils.literal_get Utils.types (Some s)) (JStr s)).
  split; [reflexivity |].
  cbn [get]. rewrite own_assign.
  cbn [Records.override fold_left fst snd String.eqb Ascii.eqb Bool.eqb
       from_option].
  rewrite Hs. split; [reflexivity |].
  unfold Utils.formatAccessType. cbn [Utils.property_key bind].
  split; [reflexivity |]. split.
  - unfold or at 1. destruct (truthy (Utils.literal_get Utils.types (Some s))) eqn:E;
      [exact E | exact Ts].
  - intros Hfalsy. unfold or in Hs. rewrite Hfalsy in Hs.
    injection Hs as <-. reflexivity.
Qed.

Lemma X28_access_type_cell_witness :
  exists r access_type cell,
    Api.normalizeLog 0 (JObj Examples.raw_log_without_type) = Ok r /\
    get r "access_type" = Ok access_type /\
    Utils.formatAccessType access_type = Ok cell /\
    truthy cell = true /\
    (truthy (own Examples.raw_log_without_type "access_type") = false ->
     cell = JStr "unknown").
Proof.
  apply (X28_access_type_cell 0 Examples.raw_log_without_type). exact I.
Defined.



(** X30. On a text, [getCameraLocation] never throws and never returns an
    empty or [undefined] location: the four cameras of its table get
    their place, and every other text that names no member of
    [Object.prototype] gets ['Unknown Location'], as a missing identifier
    does. *)
Theorem X30_getCameraLocation_total (s : string) :
  exists place,
    Utils.getCameraLocation (JStr s) = Ok place /\
    truthy place = true /\
    (forall known, lookup s Utils.locations = Some known -> place = known) /\
    (lookup s Utils.locations = None ->
     Utils.mem_string s Utils.object_prototype_members = false ->
     place = JStr "Unknown Location") /\
    Utils.getCameraLocation JUndefined = Ok (JStr "Unknown Location").
Proof.
  unfold Utils.getCameraLocation. cbn [Utils.property_key bind].
  eexists. split; [reflexivity |]. split; [| split; [| split]].
  - apply truthy_or. reflexivity.
  - intros known Hk. unfold Utils.literal_get. rewrite Hk.
    unfold Utils.locations in Hk. cbn [lookup] in Hk.
    repeat match type of Hk with
           | (if ?c then _ else _) = _ => destruct c
           end;
      try discriminate; injection Hk as <-; reflexivity.
  - intros H1 H2. unfold Utils.literal_get. rewrite H1, H2. reflexivity.
  - reflexivity.
Qed.
